(* ===== verification/_CoqProject ===== *)
-Q . S2P
Prelude.v
Model.v
Factory.v
Items.v
Folding.v
Protocol.v
Relationship.v
Assembly.v
CommentLine.v
Registry.v
Styling.v
CopyPaste.v
Scenarios.v
Witnesses.v
ComponentScenarios.v
ComponentTests.v
