(* ===== verification/Prelude.v ===== *)
(** * A verification library for gaphor's connectors, interface folding,
      assembly connectors, element model, style cascade and copy

    ** The program

    gaphor is a UML editor. Its domain model (src/gaphor/core/modeling/
    coremodel.py) holds elements and their associations: a [Comment]
    annotates elements through [Comment.annotatedElement], whose opposite
    is [Element.comment]; a [NamedElement] has client and supplier
    dependencies and derives its [qualifiedName] from its namespace
    chain. Diagrams show elements through presentation items; a line
    item is glued to other items by its handles, and the editor keeps one
    [ConnectionInfo] per handle. When a handle is dropped on a port of an
    item, the editor asks the connector registered for the pair (target
    item, line item) whether the glue is allowed, records the connection
    and lets the connector [connect] the subjects; [disconnect] undoes it.
    src/gaphor/diagram/general/connectors.py registers
    [CommentLinePresentationConnect] (a comment line sets or deletes
    [annotatedElement]) and its inverse. The interface items (tested by
    src/gaphor/UML/components/tests/test_connect.py and src/gaphor/UML/
    classes/tests/test_realizationconnect.py) add the realization and
    dependency connectors, which give a line a relationship subject, the
    fold state of an interface item, recomputed from the lines attached
    to it, and the assembly connector, which lets the connector lines of
    several components share one [Connector] with one end per component.
    Style sheets (src/gaphor/core/styling/__init__.py) compile CSS rules
    into selectors and compute the cascade; src/gaphor/UML/classes/
    copypaste.py copies classes, operations and associations.

    ** The files

    - [Prelude] (this file): Python exceptions as values ([pyerror]) and
      the error monad [result] with [x <- m ;; k] in [gaphor_scope];
      [pyassert]; truthiness of optional references; gaphor's ordered,
      duplicate-free [collection] ([coll_add]; [coll_remove] drops the
      first occurrence, the caller raises when there is none); the shared
      lemmas on lists, the [gaphor] hint databases and the tactics
      [inv_clear], [unfold_result], [decide_compute].
    - [Model], Module [CoreModel]: coremodel.py. The element store
      [store] maps ids to classes ([UClass], with [mro]), attributes and
      reference lists. The [associations] with an opposite
      (annotatedElement/comment, clientDependency/client,
      supplierDependency/supplier, implementatingClassifier/
      interfaceRealization) are set by [assoc_set] and deleted by
      [assoc_del] (ValueError when the link is absent, as list.remove),
      both directions at once; [store_wf] says every declared association
      is consistent both ways and no collection has duplicates.
      [namedelement_qualifiedname] is _namedelement_qualifiedname with
      Python's recursion limit as fuel, [ns_depth] (decided by
      [ns_depthb]) the depth of a namespace chain. [store_equiv] is
      equality up to empty collections, with Proper instances.
      [annotations_typed] says every owner of an [annotatedElement] link
      is a [Comment], the declared type of the association.
    - [Factory], Module [Factory]: the element factory and property
      writes the connectors call (outside src/, from the specification):
      [create] with [fresh_id], [set_attr], [ref_add], [assoc_set_one]
      (relation_one: the old value deleted first) and [unlink].
    - [Items], Module [Items]: presentation items ([IClass], [item] with
      its subject, ports and [Folded] state), handles, [cinfo] and the
      [world]: store, items and the connection table of each diagram;
      [opposite] is gaphas Line.opposite; [get_connection],
      [record_connection], [remove_connection], [set_subject]. The frames
      [connector_frame] and [line_frame] say what a connector and a
      gesture on one line leave unchanged.
    - [Folding], Module [Folding]: section 4.4. [line_roles] reads the
      role of an attached line off its record (realization head:
      provided; dependency head: required; connector line: the port it
      docks to), [fold_state] is the transition rule, [fold_ports] the
      ports of each state, [set_folded] the [folded] setter, [refold]
      and [refold_line] the recomputation after a gesture.
    - [Protocol], Module [Protocol]: the [Connector] typeclass (allow,
      connect, disconnect) with its [ConnectorLaws] (frame and store
      well-formedness) and [ConnectorTyped] (annotation typing), kept
      apart as laws over the operations; [BaseConnector] and the editor's
      gestures [connect_gesture] and
      [disconnect_gesture], generic in the connector and the dispatch.
    - [Relationship], Module [Relationship]: the realization and
      dependency connectors (RelationshipConnect, outside src/, from the
      specification and test_realizationconnect.py): [allow], [connect]
      with [set_ends], [disconnect], and their laws.
    - [Assembly], Module [Assembly]: the assembly connector of section
      4.5: [allow] with [port_matches], [connect] ([assembly_of],
      [new_assembly], [add_end]) and [disconnect] ([drop_ends], teardown
      below two ends), and its laws.
    - [CommentLine], Module [CommentLine]: connectors.py, line by line:
      [allow], [connect], [disconnect], [all_comment_line_items],
      [unlink_subjects], [InverseCommentLineLineConnect]; instance and
      laws of the protocol.
    - [Registry], Module [Registry]: the [registrations] of connectors.py
      and [uml_registrations] of the interface items, [resolve] and
      [ambiguous], [dispatch] to [AnyConnector], and the editor: [step]
      (a gesture, then [refold_line]) and [run].
    - [Styling], Module [Styling]: [merge_styles], [CompiledStyleSheet],
      [match_] (MATCH_SORT_KEY as [key_le]) and [parse_style_sheet];
      tinycss2, compile_selector_list and StyleDeclarations are section
      variables.
    - [CopyPaste], Module [CopyPaste]: [copy_class], [copy_operation],
      [copy_association] and the single-dispatch [copy], with fuel.
    - [Scenarios] and [Witnesses]: comment-line worlds, their theorems
      and the witnesses of the general theorems about comment lines,
      associations, copy and qualified names.
    - [ComponentScenarios]: a diagram of components, an interface and
      classes, the scenarios of section 8 through [run], and the
      witnesses of the theorems about folding, assembly and realization.
    - [ComponentTests]: test_connect.py and test_realizationconnect.py,
      one definition per test, with the tests the model passes and those
      it does not.

    ** How the parts interact

    [Registry.dispatch] picks a connector by the classes of the two items
    and wraps it in [AnyConnector]; the gestures of [Protocol] call its
    [allow], [connect] and [disconnect] around the updates of the
    connection table of [Items]; the connectors change the store through
    [Model] and [Factory] and the subjects of items; [Registry.step] then
    refolds the interface items the line touched ([Folding]). Clients are
    proved against [ConnectorLaws]; each connector discharges them.

    ** The theorems

    - Comment lines through the editor (Registry): dropping the second
      handle of a comment line links the two subjects, the comment
      annotating the other ([step_links_comment_line]); taking off the
      only line joining two linked subjects succeeds and unlinks them
      ([step_unlinks_last_comment_line]); a line other than a comment
      line dropped on a comment line raises [KeyError], the inverse
      connector's swapped arguments ([step_inverse_raises]).
    - Typing (Registry): along any gesture sequence every owner of an
      [annotatedElement] link and every target of an [Element.comment]
      link is a [Comment] ([run_keeps_annotation_types]), from one
      [ConnectorTyped] instance per connector; for the comment line the
      assert of [connect] is what keeps it.
    - The comment-line connector (CommentLine): [connect] links the two
      subjects and its [assert] raises when neither is a comment;
      [allow] prevents that failure, and refuses two items showing the
      same subject only when that subject is [None]; [disconnect] keeps
      a link another line still shows, removes the last one, and raises
      [ValueError] when the last one is missing.
    - Styling: [match_] refines the cascade; [merge_styles] keeps the
      last value; a rule's declarations keep the last accepted value.
    - Copy and qualified names: the shape of a copy and its termination
      with three levels of fuel; the qualified name of an element [n]
      namespaces deep, RecursionError on a cycle, and the bound of
      [qualifiedName] against the recursion limit
      ([qualifiedName_recursion_bound]).
    - Assembly (Assembly): [connect] creates an assembly with one end or
      joins the existing one, one end per component.

    The development also proves, as lemmas the theorems above rest on:
    along any gesture sequence each handle keeps at most one record and
    the store stays well formed ([run_preserves_wf]); association
    consistency both ways ([assoc_set_links], [assoc_del_unlinks]); the
    laws of every connector; the local recomputation of folds equals
    the global one ([step_refolds_everything]). The scenario files
    replay section 8 and the tests of the interface items; where the
    model, written from the specification, and a test disagree, the
    theorem states the model's outcome and the findings record the
    disagreement.

    ** Fuel and bounds

    [_namedelement_qualifiedname] pushes one Python frame per level of
    the namespace chain. CPython raises RecursionError when the stack
    would exceed [sys.getrecursionlimit()] (1000 by default), and the
    stack also holds the frames of the code reading [qualifiedName], of
    the [derived] descriptor and of the lambda at coremodel.py:102:
    [qualifiedName] takes that depth as its argument [frames] and gives
    the recursion [1000 - frames] levels of fuel. A chain [n] deep reads
    exactly when [frames + n < 1000] ([qualifiedName_recursion_bound]);
    the witness reads from three frames and evaluates chains of 996
    and 997 levels. [qualifiedname_depth] states the fuel a chain needs,
    whatever the limit.
    copy needs three levels for a class (class, operation, parameter)
    ([copy_terminates]). Every other definition is structural. Element
    ids are unbounded naturals: [fresh_id] is one above the largest id
    the store mentions ([create_fresh]), so an id is never taken while
    its element exists; the id of an unlinked element can come again
    (gaphor's ids are uuids), which is why the scenarios compare
    relationships by their ends and the lines showing them, not by id.

    ** Not modelled

    The geometry of ports and handles (the glue distance), the side of
    a folded interface, rendering, persistence and the user interface
    carry no state the theorems depend on; tinycss2 and the selector and
    declaration parsers are parameters; connectors registered by other
    modules of gaphor than those above are not in the registry. *)

From stdpp Require Import base list gmap strings sets.

Declare Scope gaphor_scope.
Delimit Scope gaphor_scope with gaphor.
Open Scope gaphor_scope.
Set Warnings "-clear-no-such-hyp".

(** ** Exceptions and the error monad *)

(** The Python exceptions the modelled code can raise: a failed [assert],
    [Line.opposite] of a handle that is not an end of the line,
    [del collection[x]] on an absent [x], and unbounded recursion. *)
Inductive pyerror := AssertionError | ValueError | KeyError | RecursionError.

#[export] Instance pyerror_eq_dec : EqDecision pyerror.
Proof. solve_decision. Defined.

(** A Python call either returns a value or raises. *)
Inductive result (A : Type) := Ok (a : A) | Raise (e : pyerror).
Arguments Ok {A} a.
Arguments Raise {A} e.

Definition bind {A B} (m : result A) (k : A -> result B) : result B :=
  match m with Ok a => k a | Raise e => Raise e end.

Notation "x <- m ;; k" := (bind m (fun x => k))
  (at level 100, m at level 99, right associativity) : gaphor_scope.

(** Python's [assert b]: continue with [k], or raise. *)
Definition pyassert {A} (b : bool) (k : result A) : result A :=
  if b then k else Raise AssertionError.

Lemma bind_Ok {A B} (a : A) (k : A -> result B) : bind (Ok a) k = k a.
Proof. reflexivity. Qed.

Lemma bind_Raise {A B} e (k : A -> result B) : bind (Raise e) k = Raise e.
Proof. reflexivity. Qed.

Lemma bind_Ok_inv {A B} (m : result A) (k : A -> result B) b :
  bind m k = Ok b -> exists a, m = Ok a /\ k a = Ok b.
Proof. destruct m; simpl; [eauto | discriminate]. Qed.

(** Run a fallible function over a list, stopping at the first raise. *)
Fixpoint result_mapM {A B} (f : A -> result B) (l : list A) : result (list B) :=
  match l with
  | [] => Ok []
  | x :: l' => y <- f x ;; ys <- result_mapM f l' ;; Ok (y :: ys)
  end.

Lemma result_mapM_Ok {A B} (f : A -> result B) (l : list A) (g : A -> B) :
  (forall x, x ∈ l -> f x = Ok (g x)) -> result_mapM f l = Ok (g <$> l).
Proof.
  induction l as [|x l IH]; intros Hf; simpl; [done|].
  rewrite Hf by set_solver. simpl. rewrite IH by set_solver. done.
Qed.

Lemma list_bind_ext_in {A B} (f g : A -> list B) (l : list A) :
  (forall x, x ∈ l -> f x = g x) -> l ≫= f = l ≫= g.
Proof.
  induction l as [|x l IH]; intros Hfg; [done|].
  change ((x :: l) ≫= f) with (f x ++ l ≫= f). change ((x :: l) ≫= g) with (g x ++ l ≫= g).
  rewrite Hfg, IH by set_solver. done.
Qed.

Lemma list_filter_ext_in {A} (P1 P2 : A -> Prop)
    `{!forall x, Decision (P1 x), !forall x, Decision (P2 x)} (l : list A) :
  (forall x, x ∈ l -> P1 x <-> P2 x) -> filter P1 l = filter P2 l.
Proof.
  induction l as [|x l IH]; intros Hl; [done|]. rewrite !filter_cons.
  rewrite IH by set_solver. pose proof (Hl x (list_elem_of_here x l)).
  repeat case_decide; naive_solver.
Qed.

Lemma list_bind_ext_eq {A B} (f g : A -> list B) (l : list A) :
  (forall x, f x = g x) -> l ≫= f = l ≫= g.
Proof. intros Hfg. by apply list_bind_ext_in. Qed.

Lemma result_mapM_exists {A B} (f : A -> result B) (l : list A) :
  (forall x, x ∈ l -> exists y, f x = Ok y) -> exists ys, result_mapM f l = Ok ys.
Proof.
  induction l as [|x l IH]; intros Hf; simpl; [by eexists|].
  destruct (Hf x) as [y ->]; [set_solver|]. simpl.
  destruct IH as [ys ->]; [intros; apply Hf; set_solver|]. by eexists.
Qed.

Lemma result_mapM_ext_Ok {A B} (f g : A -> result B) (l : list A) ys :
  (forall x y, x ∈ l -> f x = Ok y -> g x = Ok y) ->
  result_mapM f l = Ok ys -> result_mapM g l = Ok ys.
Proof.
  revert ys. induction l as [|x l IH]; intros ys Hfg Hf; simpl in *; [done|].
  destruct (f x) as [y|] eqn:Hx; [|discriminate]. simpl in Hf.
  destruct (result_mapM f l) as [ys'|] eqn:Hl; [|discriminate]. simpl in Hf.
  rewrite (Hfg x y) by (set_solver || done). simpl.
  rewrite (IH ys'); [done| |done]. intros; apply Hfg; set_solver.
Qed.

Create HintDb gaphor.
Create Rewrite HintDb gaphor_rw.
#[export] Hint Rewrite @bind_Ok @bind_Raise : gaphor_rw.

(** Python truthiness of an optional object reference. *)
Definition truthy {A} (o : option A) : bool :=
  match o with Some _ => true | None => false end.

(** Python truthiness of an optional boolean return value ([None] is
    falsy). *)
Definition truthy_bool (o : option bool) : bool :=
  match o with Some b => b | None => false end.

(** ** gaphor's [collection]: an ordered list without duplicates

    Adding a present value leaves the collection unchanged; removing
    deletes the first occurrence, like Python's [list.remove]. *)
Section Collection.
Context {A : Type} `{EqDecision A}.

Definition coll_add (x : A) (l : list A) : list A :=
  if decide (x ∈ l) then l else l ++ [x].

Fixpoint coll_remove (x : A) (l : list A) : list A :=
  match l with
  | [] => []
  | y :: l' => if decide (x = y) then l' else y :: coll_remove x l'
  end.

Lemma elem_of_coll_add x y l : y ∈ coll_add x l <-> y = x \/ y ∈ l.
Proof.
  unfold coll_add. case_decide; rewrite ?elem_of_app, ?list_elem_of_singleton;
    naive_solver.
Qed.

Lemma NoDup_coll_add x l : NoDup l -> NoDup (coll_add x l).
Proof.
  intros Hl. unfold coll_add. case_decide; [done|].
  apply NoDup_app; repeat split; [done| |by apply NoDup_singleton].
  intros z Hz ->%list_elem_of_singleton. done.
Qed.

Lemma coll_add_elem x l : x ∈ l -> coll_add x l = l.
Proof. unfold coll_add. by case_decide. Qed.

Lemma coll_remove_not_elem x l : x ∉ l -> coll_remove x l = l.
Proof.
  induction l as [|y l IH]; intros Hx; simpl; [done|].
  rewrite elem_of_cons in Hx.
  case_decide; [naive_solver|]. rewrite IH; naive_solver.
Qed.

Lemma elem_of_coll_remove_weak x y l : y ∈ coll_remove x l -> y ∈ l.
Proof.
  induction l as [|z l IH]; simpl; [done|].
  case_decide; rewrite !elem_of_cons; naive_solver.
Qed.

Lemma elem_of_coll_remove x y l :
  NoDup l -> y ∈ coll_remove x l <-> y ≠ x /\ y ∈ l.
Proof.
  induction l as [|z l IH]; intros Hnd; simpl.
  - split; [set_solver | intros [_ H]; inversion H].
  - apply NoDup_cons in Hnd as [Hz Hnd].
    case_decide as Hxz; subst; rewrite ?elem_of_cons, ?IH by done;
      naive_solver.
Qed.

Lemma NoDup_coll_remove x l : NoDup l -> NoDup (coll_remove x l).
Proof.
  induction l as [|z l IH]; intros Hnd; simpl; [done|].
  apply NoDup_cons in Hnd as [Hz Hnd].
  case_decide; [done|]. constructor; [|by apply IH].
  intros Hin%elem_of_coll_remove_weak. done.
Qed.
Lemma NoDup_snoc (x : A) (l : list A) : NoDup l -> x ∉ l -> NoDup (l ++ [x]).
Proof.
  intros Hl Hx. apply NoDup_app; repeat split; [done| |by apply NoDup_singleton].
  by intros z Hz ->%list_elem_of_singleton.
Qed.

Lemma coll_remove_snoc (x : A) (l : list A) : x ∉ l -> coll_remove x (l ++ [x]) = l.
Proof.
  induction l as [|y l IH]; intros Hx; simpl; [by case_decide|].
  rewrite elem_of_cons in Hx.
  case_decide; [naive_solver|]. rewrite IH; naive_solver.
Qed.

Lemma coll_add_not_elem (x : A) (l : list A) : x ∉ l -> coll_add x l = l ++ [x].
Proof. unfold coll_add. by case_decide. Qed.
End Collection.

(** ** Generic list lemmas *)

Lemma NoDup_fmap_filter {A B} (f : A -> B) (P : A -> Prop) `{forall x, Decision (P x)}
    (l : list A) :
  NoDup (f <$> l) -> NoDup (f <$> filter P l).
Proof.
  induction l as [|x l IH]; intros Hnd; simpl in *; [constructor|].
  apply NoDup_cons in Hnd as [Hx Hnd]. rewrite filter_cons.
  case_decide; simpl; [|auto]. constructor; [|auto].
  intros Hin. apply Hx. apply list_elem_of_fmap in Hin as (y & -> & Hy).
  apply list_elem_of_fmap. exists y. split; [done|]. by apply list_elem_of_filter in Hy as [_ ?].
Qed.

Lemma head_filter_app_r {A} (P : A -> Prop) `{forall x, Decision (P x)} (l k : list A) :
  filter P l = [] -> head (filter P (l ++ k)) = head (filter P k).
Proof. intros Hl. by rewrite filter_app, Hl. Qed.

Lemma omap_fmap {A B C} (f : B -> option C) (g : A -> B) (l : list A) :
  omap f (g <$> l) = omap (fun x => f (g x)) l.
Proof. induction l as [|x l IH]; csimpl; [done|]. by destruct (f (g x)); rewrite IH. Qed.

(** Two elements of [l] with the same image under a map without
    duplicates on [l] are equal. *)
Lemma NoDup_fmap_inj_on {A B} (f : A -> B) (l : list A) x y :
  NoDup (f <$> l) -> x ∈ l -> y ∈ l -> f x = f y -> x = y.
Proof.
  induction l as [|z l IH]; intros Hnd Hx Hy Hf; [set_solver|].
  simpl in Hnd. apply NoDup_cons in Hnd as [Hz Hnd].
  apply elem_of_cons in Hx as [->|Hx], Hy as [->|Hy]; auto.
  - exfalso. apply Hz. rewrite Hf. by apply list_elem_of_fmap_2.
  - exfalso. apply Hz. rewrite <- Hf. by apply list_elem_of_fmap_2.
Qed.

Lemma snoc_split {A} (l l1 l2 : list A) (a x : A) :
  l ++ [a] = l1 ++ x :: l2 ->
  (l2 = [] /\ x = a /\ l = l1) \/ (exists l2', l2 = l2' ++ [a] /\ l = l1 ++ x :: l2').
Proof.
  destruct l2 as [|b l2'] using rev_ind; intros Heq.
  - apply app_inj_tail in Heq as [-> ->]. by left.
  - right. rewrite app_comm_cons, app_assoc in Heq.
    apply app_inj_tail in Heq as [-> ->]. by eexists.
Qed.

(** The last [Some] of [omap f l] is the image of an element after which
    [f] is [None] everywhere. *)
Lemma last_omap_Some {A B} (f : A -> option B) (l : list A) v :
  last (omap f l) = Some v <->
  exists l1 x l2, l = l1 ++ x :: l2 /\ f x = Some v /\ Forall (fun y => f y = None) l2.
Proof.
  induction l as [|a l IH] using rev_ind.
  - split; [done|]. intros (l1 & x & l2 & Hl & _). by destruct l1.
  - rewrite omap_app. simpl. destruct (f a) as [w|] eqn:Ha; simpl.
    + rewrite last_snoc. split.
      * intros [= ->]. exists l, a, []. auto.
      * intros (l1 & x & l2 & Hl & Hx & Hn).
        destruct (snoc_split _ _ _ _ _ Hl) as [(-> & -> & ->)|(l2' & -> & ->)]; [congruence|].
        apply Forall_app in Hn as [_ Hn]. inversion Hn; congruence.
    + rewrite app_nil_r, IH. split.
      * intros (l1 & x & l2 & -> & Hx & Hn). exists l1, x, (l2 ++ [a]).
        rewrite <- app_assoc. split_and!; [done|done|]. apply Forall_app; auto.
      * intros (l1 & x & l2 & Hl & Hx & Hn).
        destruct (snoc_split _ _ _ _ _ Hl) as [(-> & -> & ->)|(l2' & -> & ->)]; [congruence|].
        apply Forall_app in Hn as [Hn _]. exists l1, x, l2'. auto.
Qed.

#[export] Hint Resolve NoDup_coll_add NoDup_coll_remove NoDup_fmap_filter : gaphor.

(** Invert a hypothesis and clean up. *)
(** Close a decidable goal on closed terms by evaluation. *)
Ltac decide_compute := apply (bool_decide_unpack _); vm_compute; exact I.

Ltac inv_clear H := inversion H; subst; clear H.

(** Decompose the [result] binds and [if]s of a model's body in a
    hypothesis [H : ... = Ok _]. *)
Ltac unfold_result H :=
  repeat match type of H with
  | bind ?m _ = Ok _ =>
      let a := fresh "a" in let Ha := fresh "Ha" in
      apply bind_Ok_inv in H as (a & Ha & H)
  | (if ?b then _ else _) = _ => destruct b eqn:?
  | Raise _ = Ok _ => discriminate H
  end.
