(* ===== verification/Model.v ===== *)
(** * Model: the domain objects of gaphor/core/modeling/coremodel.py

    The element store of gaphor's ElementFactory, as explicit state:
    - [UClass] and [mro]: the metaclasses [NamedElement],
      [PackageableElement] and [Comment] declared in coremodel.py, with
      the UML metaclasses the connectors and copy/paste handle;
    - [store]: the class of every element, its attribute values (keyed by
      object and attribute name, e.g. [NamedElement.name],
      [Comment.body]) and its association values (keyed by object and
      property name, each an ordered collection, a [relation_one] being a
      collection of at most one element);
    - [assoc_set] and [assoc_del]: [obj.prop = v] and [del obj.prop[v]] on
      an association with an opposite ([Comment.annotatedElement] and
      [Element.comment]), which update both directions as one step;
    - [namedelement_qualifiedname]: the recursive
      [_namedelement_qualifiedname], with Python's recursion limit as fuel.

    The theorems: both association operations preserve the bidirectional
    consistency of the two directions and the absence of duplicates; their
    effect on every branch, errors included; the qualified name is
    computed whenever the namespace chain is shorter than the recursion
    limit, and has one entry per level, and raises at the limit; the
    association operations keep [annotations_typed], the declared type
    of [Comment.annotatedElement]. *)

From stdpp Require Import base list gmap strings sets.
From S2P Require Import Prelude.
Set Warnings "-clear-no-such-hyp".

Module CoreModel.

(** ** Metaclasses *)

(** The metaclasses of the domain model. [NamedElement],
    [PackageableElement] and [Comment] are declared in coremodel.py; the
    others are generated into gaphor.UML and are listed with the bases
    that matter here. [Class_] and [Parameter_] are UML's [Class] and
    [Parameter] (both are keywords). *)
Inductive UClass :=
  | Element | NamedElement | PackageableElement | Comment
  | Namespace | Classifier | Class_ | Interface | Component | Association
  | Operation | Property | Parameter_ | Port
  | Dependency | Usage | InterfaceRealization
  | Connector | ConnectorEnd.

#[export] Instance UClass_eq_dec : EqDecision UClass.
Proof. solve_decision. Defined.

(** The method resolution order of each metaclass: the class itself first,
    [Element] last. *)
Definition mro (c : UClass) : list UClass :=
  match c with
  | Element => [Element]
  | NamedElement => [NamedElement; Element]
  | PackageableElement => [PackageableElement; NamedElement; Element]
  | Comment => [Comment; Element]
  | Namespace => [Namespace; NamedElement; Element]
  | Classifier => [Classifier; Namespace; PackageableElement; NamedElement; Element]
  | Component =>
      [Component; Class_; Classifier; Namespace; PackageableElement; NamedElement; Element]
  | Class_ | Interface | Association =>
      [c; Classifier; Namespace; PackageableElement; NamedElement; Element]
  | Operation | Parameter_ | Property | Connector => [c; NamedElement; Element]
  | Port => [Port; Property; NamedElement; Element]
  | Dependency => [Dependency; PackageableElement; NamedElement; Element]
  | Usage | InterfaceRealization =>
      [c; Dependency; PackageableElement; NamedElement; Element]
  | ConnectorEnd => [ConnectorEnd; Element]
  end.

(** [issubclass c d]. *)
Definition subclass (c d : UClass) : bool := bool_decide (d ∈ mro c).

(** ** The element store *)

Record store := mkStore {
  s_class : gmap nat UClass;
  s_attr : gmap (nat * string) string;
  s_ref : gmap (nat * string) (list nat)
}.

Definition get_ref (st : store) (o : nat) (p : string) : list nat :=
  default [] (s_ref st !! (o, p)).

Definition put_ref (o : nat) (p : string) (l : list nat) (st : store) : store :=
  mkStore (s_class st) (s_attr st) (<[(o, p) := l]> (s_ref st)).

(** A [relation_one] reads as the first (and only) element of its
    collection, or [None]. *)
Definition get_one (st : store) (o : nat) (p : string) : option nat :=
  head (get_ref st o p).

Definition get_attr (st : store) (o : nat) (p : string) : option string :=
  s_attr st !! (o, p).

(** [isinstance(o, c)] for an element of the store. *)
Definition isinstance (st : store) (o : nat) (c : UClass) : bool :=
  match s_class st !! o with Some k => subclass k c | None => false end.

(** ** Associations with an opposite *)

Record association := mkAssociation {
  assoc_name : string;
  assoc_opposite : string
}.

#[export] Instance association_eq_dec : EqDecision association.
Proof. solve_decision. Defined.

(** coremodel.py:72-73 *)
Definition Comment_annotatedElement : association :=
  mkAssociation "annotatedElement" "comment".
Definition Element_comment : association :=
  mkAssociation "comment" "annotatedElement".

Definition flip (a : association) : association :=
  mkAssociation (assoc_opposite a) (assoc_name a).

(** [o.<name> = v] on a many-valued association: nothing when [v] is
    already there; otherwise [v] is appended and the opposite side adds
    [o] to [v.<opposite>]. *)
Definition assoc_set (a : association) (o v : nat) (st : store) : store :=
  if decide (v ∈ get_ref st o (assoc_name a)) then st
  else
    let st1 := put_ref o (assoc_name a) (get_ref st o (assoc_name a) ++ [v]) st in
    put_ref v (assoc_opposite a) (coll_add o (get_ref st1 v (assoc_opposite a))) st1.

(** [del o.<name>[v]]: [ValueError] when [v] is not in the collection;
    otherwise [v] is removed and the opposite side removes [o] from
    [v.<opposite>]. *)
Definition assoc_del (a : association) (o v : nat) (st : store) : result store :=
  if decide (v ∈ get_ref st o (assoc_name a)) then
    let st1 := put_ref o (assoc_name a) (coll_remove v (get_ref st o (assoc_name a))) st in
    Ok (put_ref v (assoc_opposite a) (coll_remove o (get_ref st1 v (assoc_opposite a))) st1)
  else Raise ValueError.

(** ** The derived qualified name *)

(** CPython's default recursion limit ([sys.getrecursionlimit()]): the
    most Python frames the stack may hold; entering one more raises
    [RecursionError]. *)
Definition recursion_limit : nat := 1000.

(** coremodel.py:89-94. [fuel] is the number of frames the call may still
    push: each level of the namespace chain is one frame. *)
Fixpoint namedelement_qualifiedname (fuel : nat) (st : store) (e : nat)
    : result (list (option string)) :=
  match fuel with
  | 0 => Raise RecursionError
  | S fuel' =>
      match get_one st e "namespace" with
      | Some ns =>
          q <- namedelement_qualifiedname fuel' st ns ;;
          Ok (q ++ [get_attr st e "name"])
      | None => Ok [get_attr st e "name"]
      end
  end.

(** coremodel.py:97-103: the function of the [derived] property returns
    the one-element list [[_namedelement_qualifiedname(obj)]], and a derived
    property of multiplicity one reads as the first value of that list.
    [frames] is the depth of the Python stack when the lambda of line 102
    calls [_namedelement_qualifiedname]: the frames of the code reading
    [qualifiedName], of the [derived] descriptor (outside src/) and of
    the lambda itself. The recursion may push the rest, up to the
    limit. *)
Definition qualifiedName_values (frames : nat) (st : store) (e : nat)
    : result (list (list (option string))) :=
  q <- namedelement_qualifiedname (recursion_limit - frames) st e ;; Ok [q].

Definition qualifiedName (frames : nat) (st : store) (e : nat)
    : result (option (list (option string))) :=
  u <- qualifiedName_values frames st e ;; Ok (head u).

(** ** Invariants *)

(** Comment [c] annotates element [e], seen from both sides. *)
Definition annotates (st : store) (c e : nat) : Prop :=
  e ∈ get_ref st c "annotatedElement" /\ c ∈ get_ref st e "comment".

(** Both directions of an association agree. *)
Definition assoc_consistent (st : store) (a : association) : Prop :=
  forall o v, v ∈ get_ref st o (assoc_name a) <-> o ∈ get_ref st v (assoc_opposite a).

(** No collection holds an element twice. *)
Definition refs_nodup (st : store) : Prop :=
  forall o p, NoDup (get_ref st o p).

(** The namespace chain of [e] has [n] links and ends. *)
Inductive ns_depth (st : store) : nat -> nat -> Prop :=
  | ns_root e : get_one st e "namespace" = None -> ns_depth st e 0
  | ns_step e p n :
      get_one st e "namespace" = Some p -> ns_depth st p n -> ns_depth st e (S n).

(** [ns_depth] decided, by following the chain [n] links. *)
Fixpoint ns_depthb (st : store) (e n : nat) : bool :=
  match n, get_one st e "namespace" with
  | 0, None => true
  | S n', Some p => ns_depthb st p n'
  | _, _ => false
  end.

(** ** Store lemmas *)

Lemma get_ref_put_ref st o p l o' p' :
  get_ref (put_ref o p l st) o' p' =
  if decide ((o, p) = (o', p')) then l else get_ref st o' p'.
Proof.
  unfold get_ref, put_ref; simpl. rewrite lookup_insert.
  by case_decide.
Qed.

Lemma get_attr_put_ref st o p l o' p' :
  get_attr (put_ref o p l st) o' p' = get_attr st o' p'.
Proof. reflexivity. Qed.

Lemma isinstance_put_ref st o p l o' c :
  isinstance (put_ref o p l st) o' c = isinstance st o' c.
Proof. reflexivity. Qed.

Lemma s_class_put_ref st o p l : s_class (put_ref o p l st) = s_class st.
Proof. reflexivity. Qed.

Lemma refs_nodup_put_ref st o p l :
  refs_nodup st -> NoDup l -> refs_nodup (put_ref o p l st).
Proof.
  intros Hst Hl o' p'. rewrite get_ref_put_ref. case_decide; auto.
Qed.

#[export] Hint Resolve refs_nodup_put_ref : gaphor.
#[export] Hint Rewrite get_ref_put_ref get_attr_put_ref isinstance_put_ref
  s_class_put_ref : gaphor_rw.

Lemma assoc_consistent_flip st a :
  assoc_consistent st a <-> assoc_consistent st (flip a).
Proof. unfold assoc_consistent; simpl. naive_solver. Qed.

(** Rewrite the store reads of a goal and split on the key comparisons. *)
Ltac simpl_store :=
  repeat (autorewrite with gaphor_rw in *; simpl in *);
  repeat case_decide; simplify_eq.

(** ** Stores up to the reads of the model

    Two stores are equivalent when every class, attribute and collection
    reads the same; an absent key and an empty collection are the same
    collection. *)
Definition store_equiv (st1 st2 : store) : Prop :=
  s_class st1 = s_class st2 /\ s_attr st1 = s_attr st2 /\
  forall o p, get_ref st1 o p = get_ref st2 o p.

#[export] Instance store_equiv_equivalence : Equivalence store_equiv.
Proof.
  split.
  - done.
  - intros ?? (?&?&?). split_and!; congruence.
  - intros ??? (?&?&H1) (?&?&H2). split_and!; [congruence|congruence|].
    intros o p. by rewrite H1, H2.
Qed.

#[export] Instance get_ref_proper :
  Proper (store_equiv ==> eq ==> eq ==> eq) get_ref.
Proof. intros ?? (_&_&H) ?? -> ?? ->. apply H. Qed.

#[export] Instance get_one_proper :
  Proper (store_equiv ==> eq ==> eq ==> eq) get_one.
Proof. intros ?? H ?? -> ?? ->. unfold get_one. by rewrite H. Qed.

#[export] Instance get_attr_proper :
  Proper (store_equiv ==> eq ==> eq ==> eq) get_attr.
Proof. intros ?? (_&H&_) ?? -> ?? ->. unfold get_attr. by rewrite H. Qed.

#[export] Instance isinstance_proper :
  Proper (store_equiv ==> eq ==> eq ==> eq) isinstance.
Proof. intros ?? (H&_&_) ?? -> ?? ->. unfold isinstance. by rewrite H. Qed.

#[export] Instance put_ref_proper o p l :
  Proper (store_equiv ==> store_equiv) (put_ref o p l).
Proof.
  intros ?? (?&?&H). split_and!; [done|done|]. intros.
  rewrite !get_ref_put_ref. case_decide; auto.
Qed.

(** [assoc_set] only reads the store through [get_ref]. *)
#[export] Instance assoc_set_proper a o v :
  Proper (store_equiv ==> store_equiv) (assoc_set a o v).
Proof.
  intros st1 st2 Heq. pose proof (proj2 (proj2 Heq)) as Hr.
  unfold assoc_set. rewrite !get_ref_put_ref, !Hr.
  case_decide; [done|]. by do 2 apply put_ref_proper.
Qed.

Section Association.
Context (a : association).
Hypothesis Hname : assoc_name a <> assoc_opposite a.

Lemma assoc_set_consistent st o v :
  assoc_consistent st a -> assoc_consistent (assoc_set a o v st) a.
Proof.
  intros Hc x y. specialize (Hc x y). unfold assoc_set.
  case_decide; [done|]. simpl_store;
    rewrite ?elem_of_app, ?elem_of_coll_add, ?list_elem_of_singleton; naive_solver.
Qed.

Lemma assoc_set_nodup st o v :
  refs_nodup st -> refs_nodup (assoc_set a o v st).
Proof.
  intros Hnd. unfold assoc_set. case_decide; [done|].
  apply refs_nodup_put_ref; [apply refs_nodup_put_ref|]; auto using NoDup_snoc.
  apply NoDup_coll_add. simpl_store; auto using NoDup_snoc.
Qed.

(** After [o.<name> = v], the link is there in both directions. *)
Lemma assoc_set_linked st o v :
  assoc_consistent st a ->
  v ∈ get_ref (assoc_set a o v st) o (assoc_name a) /\
  o ∈ get_ref (assoc_set a o v st) v (assoc_opposite a).
Proof.
  intros Hc. pose proof (assoc_set_consistent st o v Hc o v) as Hl.
  unfold assoc_set in *. case_decide; [naive_solver|].
  simpl_store; rewrite ?elem_of_app, ?elem_of_coll_add, ?list_elem_of_singleton in *;
    naive_solver.
Qed.

(** Every other collection is untouched. *)
Lemma assoc_set_frame st o v x p :
  (x, p) <> (o, assoc_name a) -> (x, p) <> (v, assoc_opposite a) ->
  get_ref (assoc_set a o v st) x p = get_ref st x p.
Proof. intros H1 H2. unfold assoc_set. case_decide; [done|]. by simpl_store. Qed.

Lemma assoc_set_idempotent st o v :
  assoc_set a o v (assoc_set a o v st) = assoc_set a o v st.
Proof.
  unfold assoc_set at 1. case_decide as Hin; [done|]. exfalso; apply Hin.
  unfold assoc_set. case_decide; [done|].
  simpl_store. rewrite elem_of_app, list_elem_of_singleton. auto.
Qed.

Lemma assoc_del_raises st o v :
  assoc_del a o v st = Raise ValueError <-> v ∉ get_ref st o (assoc_name a).
Proof. unfold assoc_del. case_decide; naive_solver. Qed.

Lemma assoc_del_invariant st o v st' :
  assoc_consistent st a -> refs_nodup st -> assoc_del a o v st = Ok st' ->
  assoc_consistent st' a /\ refs_nodup st' /\
  (v ∉ get_ref st' o (assoc_name a)) /\ (o ∉ get_ref st' v (assoc_opposite a)).
Proof.
  intros Hc Hnd Hdel. unfold assoc_del in Hdel.
  case_decide; [|discriminate]. inv_clear Hdel.
  split_and!.
  - intros x y. specialize (Hc x y).
    pose proof (Hnd o (assoc_name a)). pose proof (Hnd v (assoc_opposite a)).
    pose proof (Hnd y (assoc_opposite a)). pose proof (Hnd x (assoc_name a)).
    simpl_store; rewrite ?elem_of_coll_remove by done; naive_solver.
  - apply refs_nodup_put_ref; [apply refs_nodup_put_ref|]; auto with gaphor.
    apply NoDup_coll_remove. simpl_store; auto with gaphor.
  - pose proof (Hnd o (assoc_name a)). simpl_store.
    rewrite elem_of_coll_remove by done. naive_solver.
  - pose proof (Hnd v (assoc_opposite a)). simpl_store.
    rewrite elem_of_coll_remove by done. naive_solver.
Qed.

(** Adding a new link and deleting it again gives back the store. *)
Lemma assoc_del_set st o v :
  assoc_consistent st a -> v ∉ get_ref st o (assoc_name a) ->
  exists st', assoc_del a o v (assoc_set a o v st) = Ok st' /\ store_equiv st' st.
Proof.
  intros Hc Hv. assert (o ∉ get_ref st v (assoc_opposite a)) by (intros Hin; by apply Hv, Hc).
  destruct (assoc_set_linked st o v Hc) as [Hin _].
  unfold assoc_del. rewrite decide_True by done.
  eexists; split; [done|].
  unfold assoc_set. case_decide; [contradiction|].
  split_and!; [done|done|]. intros x p. simpl_store; rewrite ?coll_add_not_elem, ?coll_remove_snoc by done; done.
Qed.
End Association.

(** After [o.<name> = v] the two directions still agree, no collection
    has a duplicate, the link is there both ways, and no other collection
    changed. *)
Theorem assoc_set_links a st o v :
  assoc_name a <> assoc_opposite a -> assoc_consistent st a -> refs_nodup st ->
  assoc_consistent (assoc_set a o v st) a /\ refs_nodup (assoc_set a o v st) /\
  v ∈ get_ref (assoc_set a o v st) o (assoc_name a) /\
  o ∈ get_ref (assoc_set a o v st) v (assoc_opposite a) /\
  (forall x p, (x, p) <> (o, assoc_name a) -> (x, p) <> (v, assoc_opposite a) ->
     get_ref (assoc_set a o v st) x p = get_ref st x p).
Proof.
  intros Hn Hc Hnd. destruct (assoc_set_linked a Hn st o v Hc).
  split_and!; auto using assoc_set_consistent, assoc_set_nodup, assoc_set_frame.
Qed.

(** [del o.<name>[v]] of a present link removes it both ways and keeps
    the store consistent and duplicate-free; of an absent link it raises
    [ValueError]. *)
Theorem assoc_del_unlinks a st o v :
  assoc_name a <> assoc_opposite a -> assoc_consistent st a -> refs_nodup st ->
  (v ∈ get_ref st o (assoc_name a) ->
     exists st', assoc_del a o v st = Ok st' /\
       assoc_consistent st' a /\ refs_nodup st' /\
       (v ∉ get_ref st' o (assoc_name a)) /\ (o ∉ get_ref st' v (assoc_opposite a))) /\
  (v ∉ get_ref st o (assoc_name a) -> assoc_del a o v st = Raise ValueError).
Proof.
  intros Hn Hc Hnd. split.
  - intros Hin. destruct (assoc_del a o v st) as [st'|e] eqn:Hd.
    + exists st'. split; [done|]. by apply (assoc_del_invariant a Hn st o v).
    + exfalso. unfold assoc_del in Hd. by rewrite decide_True in Hd.
  - intros Hno. by apply assoc_del_raises.
Qed.

(** ** Qualified names *)

(** The recursion on a chain [n] namespaces deep: [n + 1] levels of
    fuel give [n + 1] names ending with the element's own, fewer raise. *)
Lemma qualifiedname_fuel_cases st e n fuel :
  ns_depth st e n ->
  (n < fuel -> exists q, namedelement_qualifiedname fuel st e = Ok q /\
     length q = S n /\ last q = Some (get_attr st e "name")) /\
  (fuel <= n -> namedelement_qualifiedname fuel st e = Raise RecursionError).
Proof.
  intros Hd. revert fuel. induction Hd as [e Hns|e p n Hns Hd IH]; intros [|fuel];
    (split; intros Hf; [try lia|try done]); simpl; rewrite Hns; try lia.
  - by eexists.
  - destruct (proj1 (IH fuel)) as (q & -> & Hlen & _); [lia|]. simpl.
    eexists; split_and!; [done| |by rewrite last_snoc].
    rewrite length_app; simpl; lia.
  - by rewrite (proj2 (IH fuel)); [|lia].
Qed.

(** C18. For an element [n] namespaces deep, [n + 1] levels of fuel give
    the qualified name: [n + 1] names, ending with the element's own. *)
Lemma qualifiedname_depth st e n fuel :
  ns_depth st e n -> n < fuel ->
  exists q, namedelement_qualifiedname fuel st e = Ok q /\
    length q = S n /\ last q = Some (get_attr st e "name").
Proof. intros Hd. apply (qualifiedname_fuel_cases st e n fuel Hd). Qed.

Lemma qualifiedname_fuel_mono st e fuel fuel' q :
  namedelement_qualifiedname fuel st e = Ok q -> fuel <= fuel' ->
  namedelement_qualifiedname fuel' st e = Ok q.
Proof.
  revert e fuel' q. induction fuel as [|fuel IH]; intros e [|fuel'] q Hq Hle;
    simpl in *; try discriminate; try lia.
  destruct (get_one st e "namespace"); [|done].
  unfold_result Hq. rewrite (IH _ fuel' _ Ha); [done|lia].
Qed.

Lemma isinstance_assoc_set a o v st x c :
  isinstance (assoc_set a o v st) x c = isinstance st x c.
Proof. unfold assoc_set. by case_decide. Qed.

#[export] Hint Rewrite isinstance_assoc_set : gaphor_rw.

(** ** The well-formedness of the store the connectors maintain *)

(** The associations with an opposite that the connectors write:
    [Comment.annotatedElement] (coremodel.py:72-73),
    [NamedElement.clientDependency] and [NamedElement.supplierDependency]
    (coremodel.py:33-34, whose opposites [Dependency.client] and
    [Dependency.supplier] are declared in gaphor.UML), and
    [InterfaceRealization.implementatingClassifier] with its opposite
    [BehavioredClassifier.interfaceRealization] (gaphor.UML). *)
Definition NamedElement_clientDependency : association :=
  mkAssociation "clientDependency" "client".
Definition NamedElement_supplierDependency : association :=
  mkAssociation "supplierDependency" "supplier".
Definition InterfaceRealization_implementatingClassifier : association :=
  mkAssociation "implementatingClassifier" "interfaceRealization".

Definition associations : list association :=
  [Comment_annotatedElement; NamedElement_clientDependency;
   NamedElement_supplierDependency; InterfaceRealization_implementatingClassifier].

(** The names an association occupies in the store. *)
Definition assoc_names (a : association) : list string := [assoc_name a; assoc_opposite a].

Definition store_wf (st : store) : Prop :=
  (forall a, a ∈ associations -> assoc_consistent st a) /\ refs_nodup st.

Lemma annotatedElement_name_ne :
  assoc_name Comment_annotatedElement <> assoc_opposite Comment_annotatedElement.
Proof. cbv. discriminate. Qed.

Lemma annotatedElement_in : Comment_annotatedElement ∈ associations.
Proof. left. Qed.

Lemma wf_annotated st :
  (forall a, a ∈ associations -> assoc_consistent st a) ->
  assoc_consistent st Comment_annotatedElement.
Proof. intros H. apply H, annotatedElement_in. Qed.

Ltac in_associations H :=
  unfold associations in H; repeat rewrite elem_of_cons in H;
  rewrite ?elem_of_nil in H; destruct_or! H; subst.

Lemma associations_name_ne a : a ∈ associations -> assoc_name a <> assoc_opposite a.
Proof. intros Ha. in_associations Ha; try done; cbv; discriminate. Qed.

(** Two different associations of the list occupy different names. *)
Lemma associations_disjoint a b :
  a ∈ associations -> b ∈ associations -> a <> b ->
  forall p, p ∈ assoc_names a -> p ∉ assoc_names b.
Proof.
  intros Ha Hb Hab p Hp. in_associations Ha; in_associations Hb; try done;
    unfold assoc_names in *; simpl in *; repeat rewrite elem_of_cons in Hp;
    rewrite ?elem_of_nil in Hp; destruct_or! Hp; try contradiction; subst;
    apply (bool_decide_unpack _); vm_compute; exact I.
Qed.

(** Writing a collection outside an association's names keeps it
    consistent. *)
Lemma put_ref_consistent st o p l b :
  p ∉ assoc_names b -> assoc_consistent st b -> assoc_consistent (put_ref o p l st) b.
Proof.
  intros Hp Hc x y. unfold assoc_names in Hp. rewrite !get_ref_put_ref.
  rewrite !decide_False; [apply Hc| |]; intros [= _ ->]; set_solver.
Qed.

Lemma assoc_set_other a b st o v :
  (forall p, p ∈ assoc_names a -> p ∉ assoc_names b) ->
  assoc_consistent st b -> assoc_consistent (assoc_set a o v st) b.
Proof.
  intros Hd Hc. unfold assoc_set. case_decide; [done|].
  apply put_ref_consistent; [apply Hd; set_solver|].
  apply put_ref_consistent; [apply Hd; set_solver|done].
Qed.

Lemma assoc_del_other a b st o v st' :
  (forall p, p ∈ assoc_names a -> p ∉ assoc_names b) ->
  assoc_consistent st b -> assoc_del a o v st = Ok st' -> assoc_consistent st' b.
Proof.
  intros Hd Hc Hdel. unfold assoc_del in Hdel. case_decide; [|discriminate].
  inv_clear Hdel. apply put_ref_consistent; [apply Hd; set_solver|].
  apply put_ref_consistent; [apply Hd; set_solver|done].
Qed.

(** An association of the list, written from either side. *)
Definition declared (a : association) : Prop := a ∈ associations \/ flip a ∈ associations.

Lemma flip_flip a : flip (flip a) = a.
Proof. by destruct a. Qed.

Lemma declared_cases a :
  declared a -> exists a', a' ∈ associations /\ (a = a' \/ a = flip a').
Proof. intros [Ha|Ha]; [exists a; auto|exists (flip a); rewrite flip_flip; auto]. Qed.

Lemma declared_name_ne a : declared a -> assoc_name a <> assoc_opposite a.
Proof.
  intros (a' & Ha' & [->| ->])%declared_cases; simpl;
    [|apply not_eq_sym]; by apply associations_name_ne.
Qed.

Lemma annotatedElement_declared : declared Comment_annotatedElement.
Proof. left. apply annotatedElement_in. Qed.

(** Splitting the entries of the list for a write through a declared
    association: its own entry (either side), and the others, which
    occupy other names. *)
Lemma declared_frame a (P : association -> Prop) :
  declared a ->
  (forall b, b ∈ associations -> (forall p, p ∈ assoc_names a -> p ∉ assoc_names b) -> P b) ->
  (forall b, b ∈ associations -> (b = a \/ b = flip a) -> P b) ->
  forall b, b ∈ associations -> P b.
Proof.
  intros (a' & Ha' & Hcase)%declared_cases Hd Hs b Hb.
  destruct (decide (b = a')) as [->|Hne].
  - apply Hs; [done|]. destruct Hcase as [->| ->]; [by left|right; by rewrite flip_flip].
  - apply Hd; [done|]. intros p Hp. apply (associations_disjoint a' b Ha' Hb); [congruence|].
    destruct Hcase as [->| ->]; [done|]. unfold assoc_names in *; simpl in *. set_solver.
Qed.

(** A property of an association and of its flip alike. *)
Lemma consistent_either st a b :
  (b = a \/ b = flip a) -> assoc_consistent st b -> assoc_consistent st a.
Proof. intros [->| ->]; [done|]. by rewrite (assoc_consistent_flip st a). Qed.

Lemma store_wf_assoc_set a st o v :
  declared a -> store_wf st -> store_wf (assoc_set a o v st).
Proof.
  intros Ha [Hc Hnd]. pose proof (declared_name_ne a Ha) as Hn.
  split; [|eapply assoc_set_nodup; eauto].
  apply (declared_frame a); [done| |].
  - intros b Hb Hd. apply assoc_set_other; [done|]. by apply Hc.
  - intros b Hb Hab. apply (consistent_either _ b b); [by left|].
    destruct Hab as [->| ->]; [by apply assoc_set_consistent, Hc|].
    apply (proj1 (assoc_consistent_flip _ a)). apply assoc_set_consistent; [done|].
    apply (proj2 (assoc_consistent_flip st a)), Hc, Hb.
Qed.

Lemma store_wf_assoc_del a st o v st' :
  declared a -> store_wf st -> assoc_del a o v st = Ok st' -> store_wf st'.
Proof.
  intros Ha [Hc Hnd] Hdel. pose proof (declared_name_ne a Ha) as Hn.
  assert (Hca : assoc_consistent st a).
  { destruct (declared_cases a Ha) as (a' & Ha' & Hcase).
    destruct Hcase as [->| ->]; [by apply Hc|].
    apply (proj1 (assoc_consistent_flip st a')), Hc, Ha'. }
  destruct (assoc_del_invariant a Hn _ _ _ _ Hca Hnd Hdel) as (Hca' & Hnd' & _).
  split; [|done].
  apply (declared_frame a); [done| |].
  - intros b Hb Hd. apply (assoc_del_other a b st o v st'); [done|by apply Hc|done].
  - intros b Hb [->| ->]; [done|]. by apply (proj1 (assoc_consistent_flip st' a)).
Qed.

(** A collection outside every association, written without duplicates. *)
Definition plain_ref (p : string) : Prop := forall a, a ∈ associations -> p ∉ assoc_names a.

#[export] Instance plain_ref_dec p : Decision (plain_ref p).
Proof.
  refine (cast_if (decide (Forall (fun a => p ∉ assoc_names a) associations)));
    unfold plain_ref; by rewrite <- Forall_forall.
Defined.

Lemma store_wf_put_ref st o p l :
  plain_ref p -> NoDup l -> store_wf st -> store_wf (put_ref o p l st).
Proof.
  intros Hp Hl [Hc Hnd]. split; [|auto with gaphor].
  intros a Ha. apply put_ref_consistent; auto.
Qed.

#[export] Hint Resolve store_wf_assoc_set store_wf_assoc_del store_wf_put_ref annotatedElement_in
  annotatedElement_declared : gaphor.

(** *** A checker for [store_wf] *)

Definition opposite_name (p : string) : option string :=
  head (omap (fun a => if decide (p = assoc_name a) then Some (assoc_opposite a)
                       else if decide (p = assoc_opposite a) then Some (assoc_name a)
                       else None) associations).

Lemma opposite_name_assoc a :
  a ∈ associations ->
  opposite_name (assoc_name a) = Some (assoc_opposite a) /\
  opposite_name (assoc_opposite a) = Some (assoc_name a).
Proof. intros Ha. in_associations Ha; vm_compute; auto. Qed.

Definition store_wfb (st : store) : bool :=
  forallb (fun '((o, p), l) =>
    bool_decide (NoDup l) &&
    match opposite_name p with
    | Some q => forallb (fun v => bool_decide (o ∈ get_ref st v q)) l
    | None => true
    end) (map_to_list (s_ref st)).

Lemma store_wfb_entry st o p l :
  store_wfb st = true -> s_ref st !! (o, p) = Some l ->
  NoDup l /\ forall q v, opposite_name p = Some q -> v ∈ l -> o ∈ get_ref st v q.
Proof.
  unfold store_wfb. rewrite forallb_forall. intros Hall Hl.
  specialize (Hall ((o, p), l)). rewrite <- list_elem_of_In, elem_of_map_to_list in Hall.
  specialize (Hall Hl). apply andb_prop in Hall as [Hnd Hopp].
  apply bool_decide_eq_true_1 in Hnd.
  split; [done|]. intros q v Hq Hv. rewrite Hq, forallb_forall in Hopp.
  apply (bool_decide_eq_true_1 _), Hopp, list_elem_of_In, Hv.
Qed.

Lemma elem_of_get_ref st o p v :
  v ∈ get_ref st o p -> exists l, s_ref st !! (o, p) = Some l /\ v ∈ l.
Proof. unfold get_ref. destruct (s_ref st !! (o, p)); simpl; [eauto|set_solver]. Qed.

Lemma store_wfb_sound st : store_wfb st = true -> store_wf st.
Proof.
  intros Hb. split.
  - intros a Ha o v. destruct (opposite_name_assoc a Ha) as [Hn Ho]. split.
    + intros (l & Hl & Hv)%elem_of_get_ref.
      by apply (store_wfb_entry _ _ _ _ Hb Hl).
    + intros (l & Hl & Hv)%elem_of_get_ref.
      by apply (store_wfb_entry _ _ _ _ Hb Hl).
  - intros o p. unfold get_ref. destruct (s_ref st !! (o, p)) as [l|] eqn:Hl;
      simpl; [by apply (store_wfb_entry _ _ _ _ Hb Hl)|constructor].
Qed.

(** C19. A namespace chain that returns to its start never ends: the
    recursion raises whatever the fuel. *)
Lemma qualifiedname_cycle st e fuel :
  get_one st e "namespace" = Some e ->
  namedelement_qualifiedname fuel st e = Raise RecursionError.
Proof.
  intros Hns. induction fuel as [|fuel IH]; [done|]. simpl. by rewrite Hns, IH.
Qed.

Lemma ns_depthb_sound st e n : ns_depthb st e n = true -> ns_depth st e n.
Proof.
  revert e. induction n as [|n IH]; intros e; simpl;
    destruct (get_one st e "namespace") eqn:Hns; intros H; try discriminate.
  - by constructor.
  - econstructor; eauto.
Qed.

(** C15. The derived [qualifiedName] against CPython's recursion limit:
    read with [frames] frames already on the stack, an element [n]
    namespaces deep gets its qualified name, one name per level ending
    with its own, when the [n + 1] frames of the recursion fit under
    [recursion_limit]; when they do not, the read raises
    [RecursionError]. *)
Theorem qualifiedName_recursion_bound frames st e n :
  ns_depth st e n ->
  (frames + n < recursion_limit -> exists q, qualifiedName frames st e = Ok (Some q) /\
     length q = S n /\ last q = Some (get_attr st e "name")) /\
  (recursion_limit <= frames + n -> qualifiedName frames st e = Raise RecursionError).
Proof.
  intros Hd. unfold qualifiedName, qualifiedName_values.
  destruct (qualifiedname_fuel_cases st e n (recursion_limit - frames) Hd) as [Hok Hdeep].
  split.
  - intros Hn. destruct Hok as (q & -> & Hq); [lia|]. by exists q.
  - intros Hn. by rewrite Hdeep; [|lia].
Qed.

(** ** The type of [annotatedElement]

    [Comment.annotatedElement] is declared on [Comment]: every element
    that owns an [annotatedElement] link is a comment. *)

Definition annotations_typed (st : store) : Prop :=
  forall o v, v ∈ get_ref st o (assoc_name Comment_annotatedElement) ->
    isinstance st o Comment = true.

(** A write keeps the type when it writes no [annotatedElement] list, or
    only shrinks one, or writes one of a comment. *)
Lemma annotations_typed_put_ref st o p l :
  annotations_typed st ->
  (p = assoc_name Comment_annotatedElement -> l ⊆ get_ref st o p \/ isinstance st o Comment = true) ->
  annotations_typed (put_ref o p l st).
Proof.
  intros Ht Hp o' v. rewrite get_ref_put_ref, isinstance_put_ref. case_decide as Heq; [|apply Ht].
  simplify_eq. intros Hv. destruct (Hp eq_refl) as [Hs|Hc]; [|done]. apply (Ht _ v), Hs, Hv.
Qed.

Lemma annotations_typed_assoc_set a o v st :
  annotations_typed st ->
  (assoc_name a = assoc_name Comment_annotatedElement -> isinstance st o Comment = true) ->
  (assoc_opposite a = assoc_name Comment_annotatedElement -> isinstance st v Comment = true) ->
  annotations_typed (assoc_set a o v st).
Proof.
  intros Ht Ho Hv. unfold assoc_set. case_decide; [done|].
  apply annotations_typed_put_ref; rewrite ?isinstance_put_ref; [|auto].
  apply annotations_typed_put_ref; auto.
Qed.

Lemma annotations_typed_assoc_del a o v st st' :
  annotations_typed st -> assoc_del a o v st = Ok st' -> annotations_typed st'.
Proof.
  intros Ht. unfold assoc_del. case_decide; [|done]. intros [= <-].
  apply annotations_typed_put_ref; [apply annotations_typed_put_ref; [done|]|];
    intros _; left; intros x Hx; by apply elem_of_coll_remove_weak in Hx.
Qed.

#[export] Hint Resolve annotations_typed_assoc_del : gaphor.

End CoreModel.
