(* ===== verification/Factory.v ===== *)
(** * Factory: creating, writing and unlinking elements

    The operations of gaphor's element layer that the connectors of the
    interface items call, outside src/ (gaphor.core.modeling.elementfactory
    and gaphor.core.modeling.properties), modelled from the specification
    (section 6: typed attribute writes and relationship add and remove with
    the opposite maintained): [create] a fresh element of a class,
    [set_attr], a plain collection append [ref_add], the write of a
    single-valued association with an opposite [assoc_set_one] (the old
    value is deleted first, both ways), and [unlink], which deletes an
    element and every link to it.

    The theorems: each operation keeps the store well formed, a created
    element is new (no class, attribute or link mentions it before), and
    [unlink] leaves no link to the element. *)

From stdpp Require Import base list gmap strings sets.
From S2P Require Import Prelude Model.
Set Warnings "-clear-no-such-hyp".

Module Factory.
Import CoreModel.

(** ** Fresh identifiers *)

(** Every id the store mentions: classes, attribute and link owners, link
    targets. *)
Definition ids_of (st : store) : list nat :=
  (map_to_list (s_class st)).*1 ++ ((map_to_list (s_attr st)).*1).*1 ++
  ((map_to_list (s_ref st)).*1).*1 ++ mjoin (map_to_list (s_ref st)).*2.

Definition fresh_id (st : store) : nat := S (foldr Nat.max 0 (ids_of st)).

(** [element_factory.create(c)]: a new element of class [c]. *)
Definition create (c : UClass) (st : store) : nat * store :=
  let e := fresh_id st in
  (e, mkStore (<[e := c]> (s_class st)) (s_attr st) (s_ref st)).

(** [o.<p> = v] for an attribute. *)
Definition set_attr (o : nat) (p : string) (v : string) (st : store) : store :=
  mkStore (s_class st) (<[(o, p) := v]> (s_attr st)) (s_ref st).

(** [o.<p> = v] on a many-valued association without opposite: [v] is
    appended unless it is there. *)
Definition ref_add (o : nat) (p : string) (v : nat) (st : store) : store :=
  put_ref o p (coll_add v (get_ref st o p)) st.

(** [o.<name> = v] on a single-valued association with an opposite: the
    same value is a no-op; an old value is deleted first, both ways. *)
Definition assoc_set_one (a : association) (o v : nat) (st : store) : store :=
  match get_ref st o (assoc_name a) with
  | [] => assoc_set a o v st
  | old :: _ =>
      if decide (old = v) then st
      else match assoc_del a o old st with
           | Ok st1 => assoc_set a o v st1
           | Raise _ => st
           end
  end.

(** [e.unlink()]: the element goes, with its attributes, its links and
    every link to it. *)
Definition unlink (e : nat) (st : store) : store :=
  mkStore (delete e (s_class st))
    (filter (fun kv => kv.1.1 <> e) (s_attr st))
    (filter (fun x => x <> e) <$> filter (fun kv => kv.1.1 <> e) (s_ref st)).

(** ** Lemmas *)

Lemma foldr_max_le x l : x ∈ l -> x <= foldr Nat.max 0 l.
Proof.
  induction l as [|y l IH]; simpl; [set_solver|].
  rewrite elem_of_cons. intros [->|Hx]; [lia|]. specialize (IH Hx). lia.
Qed.

Lemma fresh_id_gt st x : x ∈ ids_of st -> x < fresh_id st.
Proof. intros Hx. unfold fresh_id. apply foldr_max_le in Hx. lia. Qed.

Lemma fresh_class st : s_class st !! fresh_id st = None.
Proof.
  destruct (s_class st !! fresh_id st) as [c|] eqn:E; [|done].
  assert (fresh_id st ∈ ids_of st) as Hin%fresh_id_gt; [|lia].
  apply elem_of_app; left. apply list_elem_of_fmap. exists (fresh_id st, c).
  split; [done|]. by apply elem_of_map_to_list.
Qed.

Lemma fresh_owner st p : get_ref st (fresh_id st) p = [].
Proof.
  unfold get_ref. destruct (s_ref st !! (fresh_id st, p)) as [l|] eqn:E; [|done].
  assert (fresh_id st ∈ ids_of st) as Hin%fresh_id_gt; [|lia].
  do 2 (apply elem_of_app; right). apply elem_of_app; left.
  apply list_elem_of_fmap. exists (fresh_id st, p). split; [done|].
  apply list_elem_of_fmap. exists ((fresh_id st, p), l). split; [done|].
  by apply elem_of_map_to_list.
Qed.

Lemma fresh_target st o p : fresh_id st ∉ get_ref st o p.
Proof.
  intros (l & Hl & Hv)%elem_of_get_ref.
  assert (fresh_id st ∈ ids_of st) as Hin%fresh_id_gt; [|lia].
  do 3 (apply elem_of_app; right). apply list_elem_of_join.
  exists l. split; [done|]. apply list_elem_of_fmap. exists ((o, p), l). split; [done|].
  by apply elem_of_map_to_list.
Qed.

Lemma get_ref_create c st o p : get_ref (create c st).2 o p = get_ref st o p.
Proof. reflexivity. Qed.

Lemma get_ref_set_attr o p v st o' p' : get_ref (set_attr o p v st) o' p' = get_ref st o' p'.
Proof. reflexivity. Qed.

Lemma get_ref_unlink e st o p :
  get_ref (unlink e st) o p =
  if decide (o = e) then [] else filter (fun x => x <> e) (get_ref st o p).
Proof.
  unfold get_ref, unlink; simpl. rewrite lookup_fmap, map_lookup_filter.
  destruct (s_ref st !! (o, p)) as [l|]; simpl; case_decide; simpl; subst;
    rewrite ?option_guard_False, ?option_guard_True by naive_solver; done.
Qed.

(** The same after [simpl] has opened the record of [create]. *)
Lemma get_ref_mkStore cl at' st o p : get_ref (mkStore cl at' (s_ref st)) o p = get_ref st o p.
Proof. reflexivity. Qed.

#[export] Hint Rewrite get_ref_create get_ref_set_attr get_ref_unlink get_ref_mkStore : gaphor_rw.

(** The store's well-formedness reads only its links. *)
Lemma store_wf_same_refs st st' :
  (forall o p, get_ref st' o p = get_ref st o p) -> store_wf st -> store_wf st'.
Proof.
  intros Heq [Hc Hnd]. split.
  - intros a Ha o v. rewrite !Heq. apply Hc, Ha.
  - intros o p. rewrite Heq. apply Hnd.
Qed.

Lemma store_wf_create c st : store_wf st -> store_wf (create c st).2.
Proof. apply store_wf_same_refs. reflexivity. Qed.

Lemma store_wf_create_eq c st x st' : create c st = (x, st') -> store_wf st -> store_wf st'.
Proof. intros Hc. apply (f_equal snd) in Hc. simpl in Hc. subst. apply store_wf_create. Qed.

Lemma store_wf_set_attr o p v st : store_wf st -> store_wf (set_attr o p v st).
Proof. apply store_wf_same_refs. reflexivity. Qed.

Lemma store_wf_ref_add o p v st : plain_ref p -> store_wf st -> store_wf (ref_add o p v st).
Proof.
  intros Hp Hwf. apply store_wf_put_ref; [done| |done].
  apply NoDup_coll_add, Hwf.
Qed.

Lemma store_wf_assoc_set_one a o v st :
  declared a -> store_wf st -> store_wf (assoc_set_one a o v st).
Proof.
  intros Ha Hwf. unfold assoc_set_one.
  destruct (get_ref st o (assoc_name a)) as [|old l]; [auto with gaphor|].
  case_decide; [done|]. destruct (assoc_del a o old st) eqn:Hd; [|done].
  eauto with gaphor.
Qed.

Lemma store_wf_unlink e st : store_wf st -> store_wf (unlink e st).
Proof.
  intros [Hc Hnd]. split.
  - intros a Ha o v. rewrite !get_ref_unlink.
    specialize (Hc a Ha o v). repeat case_decide; subst;
      rewrite ?list_elem_of_filter; set_solver.
  - intros o p. rewrite get_ref_unlink. case_decide; [constructor|].
    apply NoDup_filter, Hnd.
Qed.

#[export] Hint Resolve store_wf_create store_wf_set_attr store_wf_ref_add
  store_wf_assoc_set_one store_wf_unlink : gaphor.

Lemma s_class_assoc_set a o v st : s_class (assoc_set a o v st) = s_class st.
Proof. unfold assoc_set. by case_decide. Qed.

Lemma s_class_assoc_set_one a o v st : s_class (assoc_set_one a o v st) = s_class st.
Proof.
  unfold assoc_set_one. destruct (get_ref st o (assoc_name a)); [apply s_class_assoc_set|].
  case_decide; [done|]. unfold assoc_del. case_decide; [|done].
  by rewrite s_class_assoc_set.
Qed.

#[export] Hint Rewrite s_class_assoc_set s_class_assoc_set_one : gaphor_rw.

(** A write of a single-valued association changes no collection outside
    its names. *)
Lemma assoc_set_one_frame a o v st x p :
  p ∉ assoc_names a -> get_ref (assoc_set_one a o v st) x p = get_ref st x p.
Proof.
  unfold assoc_names. intros Hp.
  assert (Hs : forall st' o' v', get_ref (assoc_set a o' v' st') x p = get_ref st' x p).
  { intros. apply assoc_set_frame; intros Heq; simplify_eq; set_solver. }
  unfold assoc_set_one. destruct (get_ref st o (assoc_name a)); [apply Hs|].
  case_decide; [done|]. unfold assoc_del. case_decide; [|done].
  rewrite Hs. rewrite !get_ref_put_ref. rewrite !decide_False; [done| |];
    intros Heq; simplify_eq; set_solver.
Qed.

(** No link mentions an unlinked element. *)
Lemma unlink_no_link e st o p : e ∉ get_ref (unlink e st) o p.
Proof. rewrite get_ref_unlink. case_decide; [set_solver|]. rewrite list_elem_of_filter. naive_solver. Qed.

Lemma unlink_class e st : s_class (unlink e st) !! e = None.
Proof. apply lookup_delete_eq. Qed.

(** After [o.<name> = v] on a single-valued association, [v] is the one
    value, linked back. *)
Lemma assoc_set_one_value a o v st :
  a ∈ associations -> store_wf st -> length (get_ref st o (assoc_name a)) <= 1 ->
  get_ref (assoc_set_one a o v st) o (assoc_name a) = [v] /\
  o ∈ get_ref (assoc_set_one a o v st) v (assoc_opposite a).
Proof.
  intros Ha [Hc Hnd] Hlen. pose proof (associations_name_ne a Ha) as Hn.
  unfold assoc_set_one.
  destruct (get_ref st o (assoc_name a)) as [|old [|x l]] eqn:Eo; simpl in Hlen; try lia.
  - split; [|apply assoc_set_linked; auto].
    unfold assoc_set. rewrite Eo, decide_False by set_solver.
    rewrite get_ref_put_ref, decide_False by congruence.
    by rewrite get_ref_put_ref, decide_True.
  - case_decide; subst.
    + split; [done|]. apply (Hc a Ha). rewrite Eo. set_solver.
    + destruct (assoc_del a o old st) as [st1|e] eqn:Hd;
        [|exfalso; unfold assoc_del in Hd; rewrite Eo, decide_True in Hd by set_solver; done].
      assert (Hst1 : get_ref st1 o (assoc_name a) = []).
      { unfold assoc_del in Hd. rewrite Eo, decide_True in Hd by set_solver. inv_clear Hd.
        rewrite get_ref_put_ref, decide_False by congruence.
        rewrite get_ref_put_ref, decide_True by done. simpl. by rewrite decide_True. }
      split.
      * unfold assoc_set. rewrite decide_False by (rewrite Hst1; set_solver).
        rewrite get_ref_put_ref, decide_False by congruence.
        by rewrite get_ref_put_ref, decide_True, Hst1.
      * apply assoc_set_linked; [done|].
        by apply (assoc_del_invariant a Hn st o old st1); [apply Hc, Ha|done|].
Qed.

(** ** The type of [annotatedElement] *)

Lemma annotations_typed_create c st : annotations_typed st -> annotations_typed (create c st).2.
Proof.
  intros Ht o v. rewrite get_ref_create. intros Hv.
  assert (o <> fresh_id st) by (intros ->; rewrite fresh_owner in Hv; set_solver).
  unfold isinstance; simpl. rewrite lookup_insert_ne by congruence. apply (Ht o v Hv).
Qed.

Lemma annotations_typed_create_eq c st x st' :
  create c st = (x, st') -> annotations_typed st -> annotations_typed st'.
Proof. intros Hc. apply (f_equal snd) in Hc. simpl in Hc. subst. apply annotations_typed_create. Qed.

Lemma annotations_typed_set_attr o p v st :
  annotations_typed st -> annotations_typed (set_attr o p v st).
Proof. done. Qed.

Lemma annotations_typed_ref_add o p v st :
  p <> assoc_name Comment_annotatedElement -> annotations_typed st ->
  annotations_typed (ref_add o p v st).
Proof. intros Hp Ht. apply annotations_typed_put_ref; [done|]. by intros ->. Qed.

Lemma annotations_typed_assoc_set_one a o v st :
  assoc_name Comment_annotatedElement ∉ assoc_names a -> annotations_typed st ->
  annotations_typed (assoc_set_one a o v st).
Proof.
  unfold assoc_names. intros Ha Ht.
  assert (Hs : forall st', annotations_typed st' -> annotations_typed (assoc_set a o v st'))
    by (intros st' Ht'; apply annotations_typed_assoc_set; [done|intros Heq|intros Heq];
        rewrite Heq in Ha; set_solver).
  unfold assoc_set_one. destruct (get_ref st o (assoc_name a)); [auto|].
  case_decide; [done|]. destruct (assoc_del a o _ st) eqn:Hd; [|done].
  eauto using annotations_typed_assoc_del.
Qed.

Lemma annotations_typed_unlink e st : annotations_typed st -> annotations_typed (unlink e st).
Proof.
  intros Ht o v. rewrite get_ref_unlink. case_decide; [set_solver|].
  intros [_ Hv]%list_elem_of_filter. unfold isinstance; simpl.
  rewrite lookup_delete_ne by congruence. apply (Ht o v Hv).
Qed.

#[export] Hint Resolve annotations_typed_create annotations_typed_set_attr
  annotations_typed_unlink : gaphor.

(** [element_factory.create(c)] returns an id above every id the store
    mentions, so no element is overwritten: the new element has class
    [c], had none before, and no other class, attribute or link
    changes. *)
Theorem create_fresh c st x st' :
  create c st = (x, st') ->
  (forall y, y ∈ ids_of st -> y < x) /\ s_class st !! x = None /\ s_class st' !! x = Some c /\
  (forall y, y <> x -> s_class st' !! y = s_class st !! y) /\
  s_attr st' = s_attr st /\ s_ref st' = s_ref st.
Proof.
  unfold create. intros [= <- <-]. simpl. split_and!; [apply fresh_id_gt|apply fresh_class
    |apply lookup_insert_eq|intros y Hy; by apply lookup_insert_ne|done|done].
Qed.

End Factory.
