(* ===== verification/Items.v ===== *)
(** * Items: presentation items, handles, ports and the connection table

    The visual side of the core, as explicit state: a [world] holds the
    element store of [Model], the presentation items (class, subject,
    diagram, the [connectable] flag of each port, the fold state of an
    interface item) and, per diagram, the table of [ConnectionInfo]
    records that says which line handle is docked to which port of which
    item. The item layer and the connection table are gaphor's and
    gaphas' collaborators, outside src/: they are modelled from the
    specification (sections 3 and 6), [Line.opposite] as gaphas defines
    it (a handle that is not an end of the line raises).

    [connector_frame] and [line_frame] are what a connector and a gesture
    on one line leave unchanged: the connection table (all of it, or the
    records of other lines), the diagrams, classes and folds of items.

    The theorems: recording and removing a connection keep at most one
    record per handle and every record in its line's diagram, a recorded
    connection is found again, and the frames compose. *)

From stdpp Require Import base list gmap strings sets.
From S2P Require Import Prelude Model.
Set Warnings "-clear-no-such-hyp".

Module Items.
Import CoreModel.

(** ** Presentation classes *)

Inductive IClass :=
  | Presentation | ElementPresentation | LinePresentation
  | CommentItem | CommentLineItem
  | ClassItem | InterfaceItem | ComponentItem
  | DependencyItem | InterfaceRealizationItem | ConnectorItem.

#[export] Instance IClass_eq_dec : EqDecision IClass.
Proof. solve_decision. Defined.

Definition imro (c : IClass) : list IClass :=
  match c with
  | Presentation => [Presentation]
  | ElementPresentation | LinePresentation => [c; Presentation]
  | CommentItem | ClassItem | InterfaceItem | ComponentItem =>
      [c; ElementPresentation; Presentation]
  | CommentLineItem | DependencyItem | InterfaceRealizationItem | ConnectorItem =>
      [c; LinePresentation; Presentation]
  end.

Definition isubclass (c d : IClass) : bool := bool_decide (d ∈ imro c).

(** The fold state of an interface item ([Folded] in
    gaphor.UML.classes.interface). *)
Inductive Folded := NONE | PROVIDED | REQUIRED | ASSEMBLY.

#[export] Instance Folded_eq_dec : EqDecision Folded.
Proof. solve_decision. Defined.

Record item := mkItem {
  it_class : IClass;
  it_subject : option nat;
  it_diagram : nat;
  it_ports : list bool;
  it_folded : Folded
}.

(** The two end handles of a line; a handle belongs to one line item. *)
Inductive hend := Head | Tail.

#[export] Instance hend_eq_dec : EqDecision hend.
Proof. solve_decision. Defined.

Definition handle : Type := (nat * hend)%type.

Definition other_end (e : hend) : hend := match e with Head => Tail | Tail => Head end.

(** [ConnectionInfo(item, handle, connected, port)]. *)
Record cinfo := mkCinfo {
  ci_item : nat;
  ci_handle : hend;
  ci_connected : nat;
  ci_port : nat
}.

#[export] Instance cinfo_eq_dec : EqDecision cinfo.
Proof. solve_decision. Defined.

Record world := mkWorld {
  w_store : store;
  w_items : gmap nat item;
  w_conns : gmap nat (list cinfo)
}.

(** ** Queries *)

Definition item_of (w : world) (i : nat) : option item := w_items w !! i.

Definition subject_of (w : world) (i : nat) : option nat :=
  item_of w i ≫= it_subject.

Definition is_item (w : world) (i : nat) (c : IClass) : bool :=
  match item_of w i with Some it => isubclass (it_class it) c | None => false end.

Definition diagram_of (w : world) (i : nat) : nat :=
  default 0 (it_diagram <$> item_of w i).

Definition diagram_connections (w : world) (d : nat) : list cinfo :=
  default [] (w_conns w !! d).

Definition ci_key (ci : cinfo) : handle := (ci_item ci, ci_handle ci).

(** [line.opposite(handle)]: the other end of the line; a handle that is
    not an end of this line raises [KeyError]. *)
Definition opposite (line : nat) (h : handle) : result handle :=
  if decide (h.1 = line) then
    Ok (line, match h.2 with Head => Tail | Tail => Head end)
  else Raise KeyError.

(** [connections.get_connection(handle)] in the handle's diagram. *)
Definition get_connection (w : world) (h : handle) : option cinfo :=
  head (filter (fun ci => ci_key ci = h) (diagram_connections w (diagram_of w h.1))).

(** [BaseConnector.get_connected(handle)]: the item the handle is docked
    to. *)
Definition get_connected (w : world) (h : handle) : option nat :=
  ci_connected <$> get_connection w h.

(** [connections.get_connections(connected=p)] in [p]'s diagram. *)
Definition get_connections_to (w : world) (p : nat) : list cinfo :=
  filter (fun ci => ci_connected ci = p) (diagram_connections w (diagram_of w p)).

(** The items whose subject is [s] ([s.presentation]). *)
Definition presentation (w : world) (s : nat) : list nat :=
  (map_to_list (w_items w)).*1 ≫= fun i =>
    if decide (subject_of w i = Some s) then [i] else [].

(** ** Updates of the connection table *)

Definition put_conns (d : nat) (l : list cinfo) (w : world) : world :=
  mkWorld (w_store w) (w_items w) (<[d := l]> (w_conns w)).

Definition set_store (st : store) (w : world) : world :=
  mkWorld st (w_items w) (w_conns w).

(** Replace item [i] by [f] of it; nothing when there is no such item. *)
Definition update_item (i : nat) (f : item -> item) (w : world) : world :=
  mkWorld (w_store w) (alter f i (w_items w)) (w_conns w).

(** [item.subject = s]. *)
Definition set_subject (i : nat) (s : option nat) (w : world) : world :=
  update_item i (fun it => mkItem (it_class it) s (it_diagram it) (it_ports it) (it_folded it)) w.

(** Drop the record of handle [h], if any. *)
Definition remove_connection (h : handle) (w : world) : world :=
  let d := diagram_of w h.1 in
  put_conns d (filter (fun ci => ci_key ci <> h) (diagram_connections w d)) w.

(** Record that handle [h] is docked to [port] of [target]: an older
    record of the same handle is replaced. *)
Definition record_connection (h : handle) (target port : nat) (w : world) : world :=
  let d := diagram_of w h.1 in
  put_conns d
    (filter (fun ci => ci_key ci <> h) (diagram_connections w d)
       ++ [mkCinfo h.1 h.2 target port]) w.

(** ** Invariant: one record per handle *)

Definition conns_unique (w : world) : Prop :=
  forall d, NoDup (ci_key <$> diagram_connections w d).

(** ** Lemmas on the connection table *)

Lemma diagram_connections_put_conns d l w d' :
  diagram_connections (put_conns d l w) d' =
  if decide (d = d') then l else diagram_connections w d'.
Proof. unfold diagram_connections, put_conns; simpl. rewrite lookup_insert. by case_decide. Qed.

Lemma item_of_put_conns d l w i : item_of (put_conns d l w) i = item_of w i.
Proof. reflexivity. Qed.

Lemma diagram_of_put_conns d l w i : diagram_of (put_conns d l w) i = diagram_of w i.
Proof. reflexivity. Qed.

Lemma w_store_put_conns d l w : w_store (put_conns d l w) = w_store w.
Proof. reflexivity. Qed.

Lemma item_of_set_store st w i : item_of (set_store st w) i = item_of w i.
Proof. reflexivity. Qed.

Lemma diagram_connections_set_store st w d :
  diagram_connections (set_store st w) d = diagram_connections w d.
Proof. reflexivity. Qed.

Lemma get_connected_set_store st w h : get_connected (set_store st w) h = get_connected w h.
Proof. reflexivity. Qed.

Lemma subject_of_set_store st w i : subject_of (set_store st w) i = subject_of w i.
Proof. reflexivity. Qed.

Lemma w_store_set_store st w : w_store (set_store st w) = st.
Proof. reflexivity. Qed.

Lemma set_store_set_store st st' w : set_store st (set_store st' w) = set_store st w.
Proof. reflexivity. Qed.

Lemma is_item_set_store st w i c : is_item (set_store st w) i c = is_item w i c.
Proof. reflexivity. Qed.

Lemma elem_of_presentation w s p : p ∈ presentation w s <-> subject_of w p = Some s.
Proof.
  unfold presentation. rewrite list_elem_of_bind. split.
  - intros (i & Hp & Hi). case_decide; [|set_solver]. by apply list_elem_of_singleton in Hp as ->.
  - intros Hs. exists p. split; [rewrite decide_True by done; by left|].
    apply list_elem_of_fmap. unfold subject_of, item_of in Hs.
    destruct (w_items w !! p) as [it|] eqn:E; [|done].
    exists (p, it). split; [done|]. by apply elem_of_map_to_list.
Qed.

#[export] Hint Rewrite diagram_connections_put_conns item_of_put_conns
  diagram_of_put_conns w_store_put_conns item_of_set_store
  diagram_connections_set_store get_connected_set_store subject_of_set_store
  w_store_set_store set_store_set_store is_item_set_store : gaphor_rw.

Lemma filter_key_ne_eq (h h' : handle) (l : list cinfo) :
  h <> h' ->
  filter (fun ci => ci_key ci = h') (filter (fun ci => ci_key ci <> h) l) =
  filter (fun ci => ci_key ci = h') l.
Proof.
  intros Hne. rewrite list_filter_filter. apply list_filter_iff. naive_solver.
Qed.

Lemma filter_key_eq_ne (h : handle) (l : list cinfo) :
  filter (fun ci => ci_key ci = h) (filter (fun ci => ci_key ci <> h) l) = [].
Proof.
  rewrite list_filter_filter.
  induction l as [|ci l IH]; [done|]. rewrite filter_cons_False; naive_solver.
Qed.

Lemma get_connection_Some w h ci :
  get_connection w h = Some ci ->
  ci_key ci = h /\ ci ∈ diagram_connections w (diagram_of w h.1).
Proof.
  unfold get_connection. intros Hh.
  destruct (filter _ _) as [|c l] eqn:E; simplify_eq/=.
  assert (Hin : ci ∈ filter (fun ci => ci_key ci = h)
                  (diagram_connections w (diagram_of w h.1))) by (rewrite E; left).
  by apply list_elem_of_filter in Hin.
Qed.

(** A recorded connection is found again. *)
Lemma get_connection_record w h target port :
  get_connection (record_connection h target port w) h =
  Some (mkCinfo h.1 h.2 target port).
Proof.
  unfold get_connection, record_connection. autorewrite with gaphor_rw.
  rewrite decide_True by done. rewrite head_filter_app_r by apply filter_key_eq_ne.
  rewrite filter_cons_True by (destruct h; done). done.
Qed.

(** Recording one handle leaves every other handle's connection alone. *)
Lemma get_connection_record_ne w h h' target port :
  h <> h' ->
  get_connection (record_connection h target port w) h' = get_connection w h'.
Proof.
  intros Hne. unfold get_connection, record_connection. autorewrite with gaphor_rw.
  case_decide as Hd; [|done]. rewrite <- Hd, filter_app, filter_key_ne_eq by done.
  rewrite filter_cons_False by (destruct h; naive_solver).
  by rewrite app_nil_r.
Qed.

Lemma get_connection_remove w h :
  get_connection (remove_connection h w) h = None.
Proof.
  unfold get_connection, remove_connection. autorewrite with gaphor_rw.
  rewrite decide_True by done. by rewrite filter_key_eq_ne.
Qed.

Lemma get_connection_remove_ne w h h' :
  h <> h' -> get_connection (remove_connection h w) h' = get_connection w h'.
Proof.
  intros Hne. unfold get_connection, remove_connection. autorewrite with gaphor_rw.
  case_decide as Hd; [|done]. by rewrite <- Hd, filter_key_ne_eq.
Qed.

Lemma conns_unique_remove w h :
  conns_unique w -> conns_unique (remove_connection h w).
Proof.
  intros Hu d. unfold remove_connection. autorewrite with gaphor_rw.
  case_decide; subst; auto with gaphor.
Qed.

Lemma conns_unique_record w h target port :
  conns_unique w -> conns_unique (record_connection h target port w).
Proof.
  intros Hu d. unfold record_connection. autorewrite with gaphor_rw.
  case_decide; [subst|auto]. rewrite fmap_app. simpl.
  apply NoDup_snoc; [auto with gaphor|].
  intros (ci & Hk & Hin)%list_elem_of_fmap. apply list_elem_of_filter in Hin.
  destruct h; naive_solver.
Qed.

#[export] Hint Resolve conns_unique_remove conns_unique_record : gaphor.

(** ** Invariant: a record sits in its line's diagram *)

Definition conns_placed (w : world) : Prop :=
  forall d ci, ci ∈ diagram_connections w d -> diagram_of w (ci_item ci) = d.

Lemma conns_placed_remove w h : conns_placed w -> conns_placed (remove_connection h w).
Proof.
  intros Hp d ci. unfold remove_connection. autorewrite with gaphor_rw.
  case_decide; subst; [|auto]. rewrite list_elem_of_filter. intros [_ Hin]. auto.
Qed.

Lemma conns_placed_record w h t p :
  conns_placed w -> conns_placed (record_connection h t p w).
Proof.
  intros Hp d ci. unfold record_connection. autorewrite with gaphor_rw.
  case_decide; subst; [|auto]. rewrite elem_of_app, list_elem_of_filter, list_elem_of_singleton.
  intros [[_ Hin]| ->]; auto.
Qed.

#[export] Hint Resolve conns_placed_remove conns_placed_record : gaphor.

(** With one record per handle, a record of handle [h] in its line's
    diagram is the one [get_connection] finds. *)
Lemma get_connection_unique w ci :
  conns_unique w -> ci ∈ diagram_connections w (diagram_of w (ci_item ci)) ->
  get_connection w (ci_key ci) = Some ci.
Proof.
  intros Hu Hin. unfold get_connection. simpl.
  specialize (Hu (diagram_of w (ci_item ci))).
  induction (diagram_connections w (diagram_of w (ci_item ci))) as [|c l IH]; [set_solver|].
  simpl in Hu. apply NoDup_cons in Hu as [Hc Hu].
  apply elem_of_cons in Hin as [->|Hin]; [by rewrite filter_cons_True|].
  rewrite filter_cons_False; [by apply IH|].
  intros Hk. apply Hc. rewrite Hk. apply list_elem_of_fmap. by exists ci.
Qed.

Lemma subject_of_set_subject i s w it :
  item_of w i = Some it -> subject_of (set_subject i s w) i = s.
Proof.
  intros Hit. unfold subject_of, item_of, set_subject, update_item in *; simpl.
  by rewrite lookup_alter_eq, Hit.
Qed.

Lemma subject_of_set_subject_None i w : subject_of (set_subject i None w) i = None.
Proof.
  unfold subject_of, item_of, set_subject, update_item; simpl.
  rewrite lookup_alter_eq. by destruct (w_items w !! i).
Qed.

Lemma subject_of_set_subject_ne i j s w :
  i <> j -> subject_of (set_subject i s w) j = subject_of w j.
Proof.
  intros Hij. unfold subject_of, item_of, set_subject, update_item; simpl.
  by rewrite lookup_alter_ne.
Qed.

Lemma w_store_set_subject i s w : w_store (set_subject i s w) = w_store w.
Proof. reflexivity. Qed.

#[export] Hint Rewrite w_store_set_subject : gaphor_rw.

(** ** What a connector leaves alone

    A connector changes subjects, elements and the fold of items, never
    the connection table, the diagram or the class of an item. *)
Definition item_class_of (w : world) (i : nat) : option IClass := it_class <$> item_of w i.

Definition conns_frame (w w' : world) : Prop :=
  w_conns w' = w_conns w /\ (forall i, diagram_of w' i = diagram_of w i) /\
  (forall i, item_class_of w' i = item_class_of w i).

Lemma conns_frame_refl w : conns_frame w w.
Proof. done. Qed.

Lemma conns_frame_trans w1 w2 w3 : conns_frame w1 w2 -> conns_frame w2 w3 -> conns_frame w1 w3.
Proof.
  intros (H1 & H2 & H3) (H4 & H5 & H6). split_and!; [congruence| |]; intros i;
    [by rewrite H5, H2|by rewrite H6, H3].
Qed.

Lemma conns_frame_set_store st w : conns_frame w (set_store st w).
Proof. done. Qed.

(** An item update that keeps the item's diagram and class. *)
Lemma conns_frame_update_item i f w :
  (forall it, it_diagram (f it) = it_diagram it) ->
  (forall it, it_class (f it) = it_class it) -> conns_frame w (update_item i f w).
Proof.
  intros Hd Hc. split_and!; [done| |]; intros j;
    unfold diagram_of, item_class_of, item_of, update_item; simpl;
    (destruct (decide (i = j)) as [->|Hne];
     [rewrite lookup_alter_eq; destruct (w_items w !! j); cbn; [by rewrite ?Hd, ?Hc|done]
     |by rewrite lookup_alter_ne]).
Qed.

Lemma conns_frame_set_subject i s w : conns_frame w (set_subject i s w).
Proof. by apply conns_frame_update_item. Qed.

#[export] Hint Resolve conns_frame_refl conns_frame_set_store conns_frame_set_subject : gaphor.

Lemma conns_frame_get_connection w w' h :
  conns_frame w w' -> get_connection w' h = get_connection w h.
Proof.
  intros (Hc & Hd & _). unfold get_connection, diagram_connections. by rewrite Hd, Hc.
Qed.

Lemma conns_frame_conns_unique w w' : conns_frame w w' -> conns_unique w -> conns_unique w'.
Proof. intros (Hc & _) Hu d. unfold diagram_connections. rewrite Hc. apply Hu. Qed.

Lemma conns_frame_get_connections_to w w' p :
  conns_frame w w' -> get_connections_to w' p = get_connections_to w p.
Proof.
  intros (Hc & Hd & _). unfold get_connections_to, diagram_connections. by rewrite Hd, Hc.
Qed.

Lemma conns_frame_conns_placed w w' : conns_frame w w' -> conns_placed w -> conns_placed w'.
Proof.
  intros (Hc & Hd & _) Hp d ci. unfold diagram_connections. rewrite Hc, Hd. apply Hp.
Qed.

(** The fold state and port flags of an item, which only the editor's
    refolding writes. *)
Definition item_folds (w : world) (i : nat) : option (Folded * list bool) :=
  (fun it => (it_folded it, it_ports it)) <$> item_of w i.

(** What a connector promises to leave alone. *)
Definition connector_frame (w w' : world) : Prop :=
  conns_frame w w' /\ forall i, item_folds w' i = item_folds w i.

Lemma connector_frame_refl w : connector_frame w w.
Proof. done. Qed.

Lemma connector_frame_trans w1 w2 w3 :
  connector_frame w1 w2 -> connector_frame w2 w3 -> connector_frame w1 w3.
Proof.
  intros [H1 H2] [H3 H4]. split; [by eapply conns_frame_trans|]. intros i. by rewrite H4, H2.
Qed.

Lemma connector_frame_set_store st w : connector_frame w (set_store st w).
Proof. done. Qed.

Lemma connector_frame_set_subject i s w : connector_frame w (set_subject i s w).
Proof.
  split; [apply conns_frame_set_subject|]. intros j.
  unfold item_folds, item_of, set_subject, update_item; simpl.
  destruct (decide (i = j)) as [->|Hne];
    [rewrite lookup_alter_eq; by destruct (w_items w !! j)|by rewrite lookup_alter_ne].
Qed.

#[export] Hint Resolve connector_frame_refl connector_frame_set_store
  connector_frame_set_subject : gaphor.

(** What a gesture on line [l] leaves alone: the records of every other
    line, and the diagram, class and fold of every item. *)
Definition line_frame (l : nat) (w w' : world) : Prop :=
  (forall d ci, ci_item ci <> l ->
     ci ∈ diagram_connections w' d <-> ci ∈ diagram_connections w d) /\
  (forall i, diagram_of w' i = diagram_of w i) /\
  (forall i, item_class_of w' i = item_class_of w i) /\
  (forall i, item_folds w' i = item_folds w i).

Lemma line_frame_trans l w1 w2 w3 : line_frame l w1 w2 -> line_frame l w2 w3 -> line_frame l w1 w3.
Proof.
  intros (H1 & H2 & H3 & H4) (H5 & H6 & H7 & H8). split_and!; intros.
  - by rewrite H5, H1.
  - by rewrite H6, H2.
  - by rewrite H7, H3.
  - by rewrite H8, H4.
Qed.

Lemma line_frame_connector l w w' : connector_frame w w' -> line_frame l w w'.
Proof.
  intros [(Hc & Hd & Hk) Hf]. split_and!; auto. intros d ci _.
  unfold diagram_connections. by rewrite Hc.
Qed.

Lemma line_frame_remove h w : line_frame h.1 w (remove_connection h w).
Proof.
  split_and!; try done. intros d ci Hne. unfold remove_connection. autorewrite with gaphor_rw.
  case_decide; subst; [|done]. rewrite list_elem_of_filter.
  destruct h; unfold ci_key; simpl in *. naive_solver.
Qed.

Lemma line_frame_record h t p w : line_frame h.1 w (record_connection h t p w).
Proof.
  split_and!; try done. intros d ci Hne. unfold record_connection. autorewrite with gaphor_rw.
  case_decide; subst; [|done]. rewrite elem_of_app, list_elem_of_filter, list_elem_of_singleton.
  destruct h; unfold ci_key; simpl in *. split; [intros [[_ ?]| ->]; simpl in *; naive_solver|].
  intros Hin. left. split; [|done]. intros [=]. naive_solver.
Qed.

#[export] Hint Resolve line_frame_connector line_frame_remove line_frame_record : gaphor.

Definition conns_uniqueb (w : world) : bool :=
  forallb (fun '(_, l) => bool_decide (NoDup (ci_key <$> l))) (map_to_list (w_conns w)).

Lemma conns_uniqueb_sound w : conns_uniqueb w = true -> conns_unique w.
Proof.
  unfold conns_uniqueb, conns_unique, diagram_connections. rewrite forallb_forall.
  intros Hall d. destruct (w_conns w !! d) as [l|] eqn:Hl; simpl; [|constructor].
  specialize (Hall (d, l)). rewrite <- list_elem_of_In, elem_of_map_to_list in Hall.
  by apply (bool_decide_eq_true_1 _), Hall.
Qed.

End Items.
