(* ===== verification/Folding.v ===== *)
(** * Folding: the fold state machine of an interface item

    Section 4.4 of the specification: an interface item is drawn folded
    ([PROVIDED], [REQUIRED], [ASSEMBLY]) or not ([NONE]), and its state
    is a function of the lines attached to it, "not a remembered
    history": a provided-producing line and a required-producing line give
    [ASSEMBLY], one of them [PROVIDED] or [REQUIRED], none [NONE]. The
    code that implements it (gaphor.UML.classes.interface and the
    connectors of gaphor.UML.components) is outside src/; it is modelled
    from the specification and checked against test_connect.py.

    The role of an attached line is read from its connection record: the
    head of an interface realization produces [Provides] (the interface
    is the contract), the head of a dependency [Requires] (the interface
    is the supplier), a connector line docked to the provided port (port
    0) [Provides] and one docked to the required port (port 2, the port
    test_connect.py:228 uses as the required port) [Requires]. The ports
    that stay connectable in each state are [fold_ports]: all four in
    [NONE], the provided port, the required port or both when folded.

    [refold i] recomputes item [i]; the editor refolds the interface items
    a line is docked to before and after each gesture on it (Registry).
    The theorems: [refold] puts an item in the state its lines determine
    and leaves every other item alone; the fold of an interface depends
    only on the records docked to it, so after a gesture that changes
    only the records of one line, refolding the items that line touched
    restores [fold_consistent] and equals refolding every item
    ([refold_line_consistent], [refold_line_everything]). *)

From stdpp Require Import base list gmap strings sets.
From S2P Require Import Prelude Model Items.
Set Warnings "-clear-no-such-hyp".

Module Folding.
Import CoreModel Items.

(** ** Roles of attached lines *)

Inductive role := Provides | Requires.

#[export] Instance role_eq_dec : EqDecision role.
Proof. solve_decision. Defined.

(** The provided (ball) port and the required (socket) port of a folded
    interface item. *)
Definition provided_port : nat := 0.
Definition required_port : nat := 2.

(** The roles the line of record [ci] produces at the item it is docked
    to. *)
Definition line_roles (w : world) (ci : cinfo) : list role :=
  let l := ci_item ci in
  if is_item w l InterfaceRealizationItem then
    if decide (ci_handle ci = Head) then [Provides] else []
  else if is_item w l DependencyItem then
    if decide (ci_handle ci = Head) then [Requires] else []
  else if is_item w l ConnectorItem then
    if decide (ci_port ci = provided_port) then [Provides]
    else if decide (ci_port ci = required_port) then [Requires] else []
  else [].

Definition attached_roles (w : world) (i : nat) : list role :=
  get_connections_to w i ≫= line_roles w.

(** The transition rule of section 4.4. *)
Definition fold_of (provided required : bool) : Folded :=
  match provided, required with
  | true, true => ASSEMBLY
  | true, false => PROVIDED
  | false, true => REQUIRED
  | false, false => NONE
  end.

Definition fold_state (w : world) (i : nat) : Folded :=
  let rs := attached_roles w i in
  fold_of (bool_decide (Provides ∈ rs)) (bool_decide (Requires ∈ rs)).

(** The [connectable] flag of the four ports in each state. *)
Definition fold_ports (f : Folded) : list bool :=
  match f with
  | NONE => [true; true; true; true]
  | PROVIDED => [true; false; false; false]
  | REQUIRED => [false; false; true; false]
  | ASSEMBLY => [true; false; true; false]
  end.

(** Recompute the fold of item [i] when it is an interface item. *)
Definition refold_item (f : Folded) (it : item) : item :=
  if decide (it_class it = InterfaceItem) then
    mkItem (it_class it) (it_subject it) (it_diagram it) (fold_ports f) f
  else it.

(** [item.folded = f] on an interface item: the state and, as the state
    says, the ports. *)
Definition set_folded (i : nat) (f : Folded) (w : world) : world :=
  update_item i (refold_item f) w.

Definition refold (i : nat) (w : world) : world :=
  update_item i (refold_item (fold_state w i)) w.

Definition refold_all (ids : list nat) (w : world) : world := foldr refold w ids.

(** The items the line [l] is docked to. *)
Definition line_targets (w : world) (l : nat) : list nat :=
  omap (fun e => get_connected w (l, e)) [Head; Tail].

(** The lines whose connection changes a fold: realizations,
    dependencies and connectors. *)
Definition role_line (w : world) (l : nat) : bool :=
  is_item w l InterfaceRealizationItem || is_item w l DependencyItem ||
  is_item w l ConnectorItem.

(** The items a gesture on line [l] that took [w] to [w'] touches: those
    [l] was docked to and is docked to, for a line that plays a role. *)
Definition touched (l : nat) (w w' : world) : list nat :=
  if role_line w' l then line_targets w l ++ line_targets w' l else [].

(** The editor's recomputation after the gesture. *)
Definition refold_line (l : nat) (w w' : world) : world :=
  refold_all (touched l w w') w'.

(** The reference: every item recomputed from its lines. *)
Definition refold_everything (w : world) : world :=
  mkWorld (w_store w) (map_imap (fun i it => Some (refold_item (fold_state w i) it)) (w_items w))
    (w_conns w).

(** ** The invariant *)

Definition fold_consistent_at (w : world) (i : nat) : Prop :=
  forall it, item_of w i = Some it -> it_class it = InterfaceItem ->
    it_folded it = fold_state w i /\ it_ports it = fold_ports (it_folded it).

Definition fold_consistent (w : world) : Prop := forall i, fold_consistent_at w i.

(** The invariant as a check on the items of a world. *)
Definition fold_consistentb (w : world) : bool :=
  forallb (fun '(i, it) =>
             if decide (it_class it = InterfaceItem)
             then bool_decide (it_folded it = fold_state w i /\ it_ports it = fold_ports (it_folded it))
             else true)
    (map_to_list (w_items w)).

(** ** Lemmas *)

Lemma fold_consistentb_sound w : fold_consistentb w = true -> fold_consistent w.
Proof.
  intros Hb i it Hit Hcl. unfold fold_consistentb in Hb. rewrite forallb_forall in Hb.
  specialize (Hb (i, it)). rewrite <-list_elem_of_In, elem_of_map_to_list in Hb.
  specialize (Hb Hit). simpl in Hb. rewrite decide_True in Hb by done.
  by apply bool_decide_eq_true in Hb.
Qed.

Lemma is_item_class w i c :
  is_item w i c = default false ((fun k => isubclass k c) <$> item_class_of w i).
Proof. unfold is_item, item_class_of. by destruct (item_of w i). Qed.

Lemma line_roles_ext w w' ci :
  (forall j, item_class_of w' j = item_class_of w j) -> line_roles w' ci = line_roles w ci.
Proof. intros Hc. unfold line_roles. by rewrite !is_item_class, !Hc. Qed.

(** The fold of [i] reads only the records docked to [i] and the classes
    of the items. *)
Lemma fold_state_ext w w' i :
  get_connections_to w' i = get_connections_to w i ->
  (forall j, item_class_of w' j = item_class_of w j) ->
  fold_state w' i = fold_state w i.
Proof.
  intros Hconn Hc. unfold fold_state, attached_roles. rewrite Hconn.
  by rewrite (list_bind_ext_eq (line_roles w') (line_roles w)) by (intros ci; by apply line_roles_ext).
Qed.

Lemma refold_item_id f it :
  it_class it = InterfaceItem -> it_folded it = f -> it_ports it = fold_ports f ->
  refold_item f it = it.
Proof. intros Hc Hf Hp. unfold refold_item. rewrite decide_True by done. destruct it; simpl in *; by subst. Qed.

Lemma refold_item_idem f it : refold_item f (refold_item f it) = refold_item f it.
Proof.
  unfold refold_item. destruct (decide (it_class it = InterfaceItem)) as [Hc|Hc];
    simpl; case_decide; simpl in *; done.
Qed.

Lemma refold_item_class f it : it_class (refold_item f it) = it_class it.
Proof. unfold refold_item. by case_decide. Qed.

Lemma refold_item_diagram f it : it_diagram (refold_item f it) = it_diagram it.
Proof. unfold refold_item. by case_decide. Qed.

Lemma conns_frame_refold i w : conns_frame w (refold i w).
Proof. apply conns_frame_update_item; auto using refold_item_diagram, refold_item_class. Qed.

#[export] Hint Resolve conns_frame_refold : gaphor.

Lemma conns_frame_refold_all ids w : conns_frame w (refold_all ids w).
Proof.
  induction ids as [|i ids IH]; simpl; [apply conns_frame_refl|].
  eapply conns_frame_trans; [exact IH|apply conns_frame_refold].
Qed.

(** Refolding leaves every fold state as it was. *)
Lemma fold_state_conns_frame w w' i : conns_frame w w' -> fold_state w' i = fold_state w i.
Proof.
  intros Hf. apply fold_state_ext; [by apply conns_frame_get_connections_to|apply Hf].
Qed.

Lemma item_of_refold_ne i j w : i <> j -> item_of (refold i w) j = item_of w j.
Proof. intros Hne. unfold refold, update_item, item_of; simpl. by rewrite lookup_alter_ne. Qed.

Lemma item_of_refold i w :
  item_of (refold i w) i = refold_item (fold_state w i) <$> item_of w i.
Proof. unfold refold, update_item, item_of; simpl. by rewrite lookup_alter_eq. Qed.

(** After [refold i], item [i] is in the state its lines determine. *)
Lemma refold_consistent_at i w : fold_consistent_at (refold i w) i.
Proof.
  intros it Hit Hc. rewrite item_of_refold in Hit.
  destruct (item_of w i) as [it0|]; simplify_eq/=.
  rewrite (fold_state_conns_frame w (refold i w)) by apply conns_frame_refold.
  unfold refold_item in *. case_decide; simplify_eq/=; try done; congruence.
Qed.

Lemma refold_consistent_at_ne i j w :
  i <> j -> fold_consistent_at w j -> fold_consistent_at (refold i w) j.
Proof.
  intros Hne Hj it Hit Hc. rewrite item_of_refold_ne in Hit by done.
  rewrite (fold_state_conns_frame w (refold i w)) by apply conns_frame_refold. by apply Hj.
Qed.

(** Refolding a list of items makes each of them consistent and keeps the
    others as they were. *)
Lemma refold_all_consistent ids w j :
  (j ∈ ids \/ fold_consistent_at w j) -> fold_consistent_at (refold_all ids w) j.
Proof.
  induction ids as [|i ids IH]; simpl; intros Hj.
  - destruct Hj as [Hj|Hj]; [set_solver|done].
  - destruct (decide (i = j)) as [->|Hne]; [apply refold_consistent_at|].
    apply refold_consistent_at_ne; [done|]. apply IH. set_solver.
Qed.

(** Refolding an item that is already consistent changes nothing. *)
Lemma refold_id i w : fold_consistent_at w i -> refold i w = w.
Proof.
  intros Hi. unfold refold, update_item. destruct w as [st items conns]; simpl.
  f_equal. apply alter_id. intros it Hit.
  destruct (decide (it_class it = InterfaceItem)) as [Hc|Hc].
  - destruct (Hi it Hit Hc) as [Hf Hp]. apply refold_item_id; congruence.
  - unfold refold_item. by rewrite decide_False.
Qed.

(** ** Locality *)

Lemma role_line_ext w w' l :
  (forall j, item_class_of w' j = item_class_of w j) -> role_line w' l = role_line w l.
Proof. intros Hc. unfold role_line. by rewrite !is_item_class, !Hc. Qed.

Lemma line_roles_nil w ci : role_line w (ci_item ci) = false -> line_roles w ci = [].
Proof.
  unfold role_line, line_roles. intros Hr.
  repeat match type of Hr with
         | (?a || ?b) = false => apply orb_false_iff in Hr as [Hr ?]
         end.
  repeat match goal with H : is_item _ _ _ = false |- _ => rewrite H; clear H end. done.
Qed.

Lemma elem_of_attached_roles w j r :
  r ∈ attached_roles w j <-> exists ci, ci ∈ get_connections_to w j /\ r ∈ line_roles w ci.
Proof. unfold attached_roles. rewrite list_elem_of_bind. naive_solver. Qed.

(** A record docked to [j] makes [j] a target of its line. *)
Lemma record_target w j ci :
  conns_unique w -> conns_placed w -> ci ∈ get_connections_to w j ->
  j ∈ line_targets w (ci_item ci).
Proof.
  intros Hu Hp Hin. unfold get_connections_to in Hin.
  apply list_elem_of_filter in Hin as [Hj Hin].
  pose proof (Hp _ _ Hin) as Hd. rewrite <- Hd in Hin.
  pose proof (get_connection_unique w ci Hu Hin) as Hg.
  assert (get_connected w (ci_item ci, ci_handle ci) = Some j)
    by (unfold get_connected; unfold ci_key in Hg; rewrite Hg; simpl; by f_equal).
  unfold line_targets. destruct (ci_handle ci); simpl;
    repeat match goal with H : get_connected _ _ = Some _ |- _ => rewrite H end;
    simpl; [left|].
  destruct (get_connected w (ci_item ci, Head)); set_solver.
Qed.

Lemma get_connections_to_line_frame l w w' j ci :
  line_frame l w w' -> ci_item ci <> l ->
  ci ∈ get_connections_to w' j <-> ci ∈ get_connections_to w j.
Proof.
  intros (Hr & Hd & _) Hne. unfold get_connections_to. rewrite !list_elem_of_filter, Hd, Hr by done.
  done.
Qed.

(** The fold of an item the gesture's line does not touch, or of any item
    when the line plays no role, does not change. *)
Lemma fold_state_local l w w' j :
  line_frame l w w' -> conns_unique w -> conns_placed w -> conns_unique w' -> conns_placed w' ->
  ((j ∉ line_targets w l) /\ (j ∉ line_targets w' l)) \/ (role_line w l = false) ->
  fold_state w' j = fold_state w j.
Proof.
  intros Hf Hu Hp Hu' Hp' Hcase.
  pose proof (proj1 (proj2 (proj2 Hf))) as Hk.
  assert (Hrl : role_line w' l = role_line w l) by (by apply role_line_ext).
  (* a record of line [l] docked to [j] contributes no role *)
  assert (Hl : forall v ci, (v = w \/ v = w') -> ci_item ci = l ->
            ci ∈ get_connections_to v j -> line_roles v ci = []).
  { intros v ci Hv Hci Hin. destruct Hcase as [[Hj Hj']|Hr].
    - destruct Hv as [->| ->]; apply record_target in Hin; auto; subst; done.
    - apply line_roles_nil. destruct Hv as [->| ->]; congruence. }
  assert (Hr : forall r, r ∈ attached_roles w' j <-> r ∈ attached_roles w j).
  { intros r. rewrite !elem_of_attached_roles.
    split; intros (ci & Hin & Hrole); exists ci;
      destruct (decide (ci_item ci = l)) as [Hci|Hne].
    - rewrite (Hl w' ci) in Hrole by auto. set_solver.
    - rewrite <- (get_connections_to_line_frame l w w') by done.
      by rewrite (line_roles_ext w w') in Hrole by done.
    - rewrite (Hl w ci) in Hrole by auto. set_solver.
    - rewrite (get_connections_to_line_frame l w w') by done.
      by rewrite (line_roles_ext w w') by done. }
  unfold fold_state. f_equal; apply bool_decide_ext; apply Hr.
Qed.

Lemma fold_consistent_at_transfer w w' j :
  item_class_of w' j = item_class_of w j -> item_folds w' j = item_folds w j ->
  fold_state w' j = fold_state w j -> fold_consistent_at w j -> fold_consistent_at w' j.
Proof.
  unfold item_class_of, item_folds. intros Hc Hf Hs Hj it Hit Hcl.
  rewrite Hit in Hc, Hf. destruct (item_of w j) as [it0|] eqn:E; simplify_eq/=.
  destruct (Hj it0) as [H1 H2]; [done|congruence|]. split; congruence.
Qed.

(** An item the gesture does not touch keeps a consistent fold. *)
Lemma untouched_consistent l w w' i :
  line_frame l w w' -> conns_unique w -> conns_placed w -> conns_unique w' -> conns_placed w' ->
  fold_consistent w -> i ∉ touched l w w' -> fold_consistent_at w' i.
Proof.
  intros Hf Hu Hp Hu' Hp' Hc Hi. pose proof Hf as (_ & _ & Hk & Hfo).
  apply (fold_consistent_at_transfer w); auto.
  apply (fold_state_local l); auto. unfold touched in Hi.
  destruct (role_line w' l) eqn:Er; [left; set_solver|].
  right. by rewrite <- (role_line_ext w w').
Qed.

(** Recomputing the items a role line touches after a gesture on it keeps
    every interface item in the state its lines determine. *)
Lemma refold_line_consistent l w w' :
  line_frame l w w' -> conns_unique w -> conns_placed w -> conns_unique w' -> conns_placed w' ->
  fold_consistent w -> fold_consistent (refold_line l w w').
Proof.
  intros Hf Hu Hp Hu' Hp' Hc j. apply refold_all_consistent.
  destruct (decide (j ∈ touched l w w')); [by left|right].
  by apply (untouched_consistent l w).
Qed.

Lemma item_of_refold_all ids w i :
  item_of (refold_all ids w) i =
  if decide (i ∈ ids) then refold_item (fold_state w i) <$> item_of w i else item_of w i.
Proof.
  induction ids as [|k ids IH];
    [unfold refold_all; cbn [foldr]; by rewrite decide_False by set_solver|].
  change (refold_all (k :: ids) w) with (refold k (refold_all ids w)).
  destruct (decide (k = i)) as [->|Hne].
  - rewrite item_of_refold, decide_True by set_solver. rewrite IH.
    rewrite (fold_state_conns_frame w (refold_all ids w)) by apply conns_frame_refold_all.
    case_decide; [|done]. destruct (item_of w i); simpl; [|done].
    f_equal. apply refold_item_idem.
  - rewrite item_of_refold_ne by done. rewrite IH.
    case_decide; case_decide; set_solver.
Qed.

Lemma refold_all_store_conns ids w :
  w_store (refold_all ids w) = w_store w /\ w_conns (refold_all ids w) = w_conns w.
Proof. induction ids as [|i ids IH]; simpl; [done|]. apply IH. Qed.

Lemma world_eq x y :
  w_store x = w_store y -> w_items x = w_items y -> w_conns x = w_conns y -> x = y.
Proof. destruct x, y; simpl. congruence. Qed.

Lemma consistent_refold_item w i it :
  fold_consistent_at w i -> item_of w i = Some it -> refold_item (fold_state w i) it = it.
Proof.
  intros Hc Hit. destruct (decide (it_class it = InterfaceItem)) as [Hcl|Hcl].
  - destruct (Hc it Hit Hcl) as [Hf Hp]. apply refold_item_id; congruence.
  - unfold refold_item. by rewrite decide_False.
Qed.

(** The incremental recomputation is the recomputation of every item: a
    gesture on a line changes the fold of no item the line does not
    touch. *)
Lemma refold_line_everything l w w' :
  line_frame l w w' -> conns_unique w -> conns_placed w -> conns_unique w' -> conns_placed w' ->
  fold_consistent w -> refold_line l w w' = refold_everything w'.
Proof.
  intros Hf Hu Hp Hu' Hp' Hc. unfold refold_line, refold_everything.
  destruct (refold_all_store_conns (touched l w w') w') as [Hs Hcs].
  apply world_eq; [done| |done]. simpl. apply map_eq. intros i.
  change (w_items (refold_all (touched l w w') w') !! i)
    with (item_of (refold_all (touched l w w') w') i).
  rewrite item_of_refold_all, map_lookup_imap. unfold item_of.
  case_decide as Hi; destruct (w_items w' !! i) as [it|] eqn:E; simpl; try done.
  f_equal. symmetry. apply (consistent_refold_item w' i it); [|done].
  by apply (untouched_consistent l w).
Qed.

End Folding.
