(* ===== verification/Protocol.v ===== *)
(** * Protocol: the connector interface and the editor's gestures

    [Connector] is the interface of gaphor's [BaseConnector] (section 4.2
    of the specification): [allow], [connect] and [disconnect] for the pair
    (target element, line) a connector is built for. [ConnectorLaws] is
    what a connector promises the editor: it leaves the connection table,
    the diagram, class and fold of every item alone ([connector_frame]),
    and keeps the store well formed. [ConnectorTyped], a second laws
    class over the same operations, promises that a connector never
    makes a non-comment the owner of an [annotatedElement] link.
    [BaseConnector] gives the
    defaults every concrete connector calls as [super()].

    The editor's gestures are generic in the connector type and in the
    registry's [dispatch]: [connect_gesture] tests [allow], moves the
    handle off its old target (running that connector's [disconnect]),
    records the new [ConnectionInfo] and runs [connect];
    [disconnect_gesture] runs the connector's [disconnect] while the
    record is still there, then removes it (the order gaphas uses).
    Their theorems are proved from the laws alone: one record per handle,
    a well-formed store, the recorded connection after a connect, none
    after a disconnect, the idempotence of connecting a handle to the
    port it is already on, and that a gesture on line [l] changes no
    record of another line ([line_frame]). *)

From stdpp Require Import base list gmap strings sets.
From S2P Require Import Prelude Model Items.
Set Warnings "-clear-no-such-hyp".

Module Protocol.
Import CoreModel Items.

(** ** The interface *)

Class Connector (C : Type) := {
  element : C -> nat;
  line : C -> nat;
  allow : C -> handle -> nat -> world -> result bool;
  connect : C -> handle -> nat -> world -> result (option bool * world);
  disconnect : C -> handle -> world -> result world
}.

Class ConnectorLaws (C : Type) `{!Connector C} := {
  connect_frame c h p w r w' :
    connect c h p w = Ok (r, w') -> connector_frame w w';
  disconnect_frame c h w w' :
    disconnect c h w = Ok w' -> connector_frame w w';
  connect_store_wf c h p w r w' :
    store_wf (w_store w) -> connect c h p w = Ok (r, w') -> store_wf (w_store w');
  disconnect_store_wf c h w w' :
    store_wf (w_store w) -> disconnect c h w = Ok w' -> store_wf (w_store w')
}.

(** What a connector promises about the types of the links it writes:
    it keeps every [annotatedElement] link owned by a comment. A separate
    class over [Connector], as the typing of the domain is a law of its
    own beside the frame and well-formedness of [ConnectorLaws]. *)
Class ConnectorTyped (C : Type) `{!Connector C} := {
  connect_typed c h p w r w' :
    annotations_typed (w_store w) -> connect c h p w = Ok (r, w') ->
    annotations_typed (w_store w');
  disconnect_typed c h w w' :
    annotations_typed (w_store w) -> disconnect c h w = Ok w' -> annotations_typed (w_store w')
}.

(** ** BaseConnector *)

Record BaseConnector := mkBaseConnector { base_element : nat; base_line : nat }.

Definition base_allow (h : handle) (port : nat) (w : world) : result bool := Ok true.

Definition base_connect (h : handle) (port : nat) (w : world)
    : result (option bool * world) :=
  Ok (Some true, w).

Definition base_disconnect (h : handle) (w : world) : result world := Ok w.

#[export] Instance BaseConnector_connector : Connector BaseConnector := {
  element := base_element;
  line := base_line;
  allow _ := base_allow;
  connect _ := base_connect;
  disconnect _ := base_disconnect
}.

#[export] Instance BaseConnector_laws : ConnectorLaws BaseConnector.
Proof.
  split; intros *; cbn; unfold base_connect, base_disconnect;
    intros; simplify_eq; auto with gaphor.
Qed.

(** ** The editor's gestures *)

(** gaphas glues a handle only to a port whose [connectable] flag is set. *)
Definition port_connectable (w : world) (target port : nat) : bool :=
  match item_of w target with
  | Some it => default false (it_ports it !! port)
  | None => false
  end.

Definition world_wf (w : world) : Prop :=
  conns_unique w /\ conns_placed w /\ store_wf (w_store w).

Section Gestures.
Context {C : Type} `{ConnectorLaws C}.

(** [Connector(target, line)]: the connector registered for the pair,
    or [None] when no relationship is defined for it. *)
Variable dispatch : world -> nat -> nat -> option C.

(** Take handle [h] off the item it is docked to. *)
Definition disconnect_gesture (h : handle) (w : world) : result world :=
  match get_connection w h with
  | None => Ok w
  | Some ci =>
      w1 <- match dispatch w (ci_connected ci) h.1 with
            | Some c => disconnect c h w
            | None => Ok w
            end ;;
      Ok (remove_connection h w1)
  end.

(** Glue test and drop of handle [h] on [port] of [target] when the
    handle is not already there: the port must be connectable and the
    connector must allow it; the handle then leaves its old target, is
    recorded on the new one, and the connector links the subjects. *)
Definition connect_new (h : handle) (target port : nat) (w : world)
    : result (bool * world) :=
  match dispatch w target h.1 with
  | None => Ok (false, w)
  | Some c =>
      if port_connectable w target port then
        ok <- allow c h port w ;;
        if ok then
          w1 <- disconnect_gesture h w ;;
          rw <- connect c h port (record_connection h target port w1) ;;
          Ok (true, rw.2)
        else Ok (false, w)
      else Ok (false, w)
  end.

(** Drop handle [h] on [port] of [target]: [true] when the handle is
    docked there afterwards. Dropping it where it already is changes
    nothing. *)
Definition connect_gesture (h : handle) (target port : nat) (w : world)
    : result (bool * world) :=
  match get_connection w h with
  | Some ci =>
      if decide (ci_connected ci = target /\ ci_port ci = port) then Ok (true, w)
      else connect_new h target port w
  | None => connect_new h target port w
  end.

(** *** Lemmas *)

Lemma get_connection_set_store st w h :
  get_connection (set_store st w) h = get_connection w h.
Proof. reflexivity. Qed.

Lemma conns_unique_set_store st w : conns_unique w -> conns_unique (set_store st w).
Proof. done. Qed.

(** The step of [disconnect_gesture] that runs the connector. *)
Lemma dispatch_disconnect_frame w t h w1 :
  match dispatch w t h.1 with Some c => disconnect c h w | None => Ok w end = Ok w1 ->
  connector_frame w w1 /\ (store_wf (w_store w) -> store_wf (w_store w1)).
Proof.
  destruct (dispatch w t h.1) as [c|]; intros Hd; [|simplify_eq; auto with gaphor].
  split; [by eapply disconnect_frame|eauto using disconnect_store_wf].
Qed.

Lemma disconnect_gesture_wf h w w' :
  world_wf w -> disconnect_gesture h w = Ok w' -> world_wf w'.
Proof.
  intros (Hu & Hp & Hs) Hd. unfold disconnect_gesture in Hd.
  destruct (get_connection w h) as [ci|]; [|by simplify_eq].
  unfold_result Hd. simplify_eq.
  destruct (dispatch_disconnect_frame _ _ _ _ Ha) as [[Hf _] Hs'].
  split_and!; [apply conns_unique_remove; eauto using conns_frame_conns_unique
              |apply conns_placed_remove; eauto using conns_frame_conns_placed|auto].
Qed.

Lemma disconnect_gesture_removes h w w' :
  disconnect_gesture h w = Ok w' -> get_connection w' h = None.
Proof.
  unfold disconnect_gesture. destruct (get_connection w h) eqn:E; intros Hd; [|by simplify_eq].
  unfold_result Hd. simplify_eq. apply get_connection_remove.
Qed.

Lemma disconnect_gesture_other h h' w w' :
  h <> h' -> disconnect_gesture h w = Ok w' -> get_connection w' h' = get_connection w h'.
Proof.
  intros Hne. unfold disconnect_gesture. destruct (get_connection w h); intros Hd;
    [|by simplify_eq].
  unfold_result Hd. simplify_eq. rewrite get_connection_remove_ne by done.
  apply conns_frame_get_connection, (dispatch_disconnect_frame _ _ _ _ Ha).
Qed.

Lemma connect_new_cases h t p w b w' :
  connect_new h t p w = Ok (b, w') ->
  (b = false /\ w' = w) \/
  (b = true /\ exists c w1 r,
     dispatch w t h.1 = Some c /\ disconnect_gesture h w = Ok w1 /\
     connect c h p (record_connection h t p w1) = Ok (r, w')).
Proof.
  unfold connect_new. destruct (dispatch w t h.1) as [c|]; intros Hc; [|simplify_eq; auto].
  destruct (port_connectable w t p); [|simplify_eq; auto].
  unfold_result Hc; simplify_eq; [|auto].
  destruct a1 as [r w2]. simpl in *. simplify_eq. right. eauto 10.
Qed.

Lemma connect_new_wf h t p w b w' :
  world_wf w -> connect_new h t p w = Ok (b, w') -> world_wf w'.
Proof.
  intros Hwf Hc. destruct (connect_new_cases _ _ _ _ _ _ Hc)
    as [[_ ->] | (_ & c & w1 & r & _ & Hd & Hcn)]; [done|].
  apply disconnect_gesture_wf in Hd as (Hu & Hp & Hs); [|done].
  destruct (connect_frame _ _ _ _ _ _ Hcn) as [Hf _].
  split_and!.
  - eapply conns_frame_conns_unique; [exact Hf|by apply conns_unique_record].
  - eapply conns_frame_conns_placed; [exact Hf|by apply conns_placed_record].
  - eapply connect_store_wf; [|exact Hcn]. exact Hs.
Qed.

Lemma connect_new_records h t p w w' :
  connect_new h t p w = Ok (true, w') ->
  get_connection w' h = Some (mkCinfo h.1 h.2 t p).
Proof.
  intros Hc. destruct (connect_new_cases _ _ _ _ _ _ Hc)
    as [[? _] | (_ & c & w1 & r & _ & _ & Hcn)]; [done|].
  rewrite (conns_frame_get_connection _ _ _ (proj1 (connect_frame _ _ _ _ _ _ Hcn))).
  apply get_connection_record.
Qed.

(** A gesture on a handle of line [h.1] changes no record of another
    line, and no diagram, class or fold of an item. *)
Lemma disconnect_gesture_line_frame h w w' :
  disconnect_gesture h w = Ok w' -> line_frame h.1 w w'.
Proof.
  unfold disconnect_gesture. destruct (get_connection w h); intros Hd;
    [|simplify_eq; split_and!; done].
  unfold_result Hd. simplify_eq.
  eapply line_frame_trans; [|apply line_frame_remove].
  apply line_frame_connector, (dispatch_disconnect_frame _ _ _ _ Ha).
Qed.

Lemma connect_gesture_line_frame h t p w b w' :
  connect_gesture h t p w = Ok (b, w') -> line_frame h.1 w w'.
Proof.
  assert (Hn : connect_new h t p w = Ok (b, w') -> line_frame h.1 w w').
  { intros Hc. destruct (connect_new_cases _ _ _ _ _ _ Hc)
      as [[_ ->] | (_ & c & w1 & r & _ & Hd & Hcn)]; [split_and!; done|].
    eapply line_frame_trans; [by apply disconnect_gesture_line_frame|].
    eapply line_frame_trans; [apply line_frame_record|].
    apply line_frame_connector. by eapply connect_frame. }
  unfold connect_gesture. destruct (get_connection w h);
    [case_decide; [intros; simplify_eq; split_and!; done|]|]; auto.
Qed.

(** Dropping a handle keeps one connection record per handle and a
    well-formed element store, whatever connector the registry returns. *)
Theorem connect_gesture_wf h t p w b w' :
  world_wf w -> connect_gesture h t p w = Ok (b, w') -> world_wf w'.
Proof.
  intros Hwf Hc. unfold connect_gesture in Hc. destruct (get_connection w h) as [ci|];
    [case_decide; [by simplify_eq|]|]; eauto using connect_new_wf.
Qed.

(** A successful drop leaves the handle docked to the port it was
    dropped on. *)
Lemma connect_gesture_records h t p w w' :
  connect_gesture h t p w = Ok (true, w') ->
  exists ci, get_connection w' h = Some ci /\ ci_connected ci = t /\ ci_port ci = p.
Proof.
  unfold connect_gesture. destruct (get_connection w h) as [ci|] eqn:E;
    [case_decide as Hci; [intros; simplify_eq; by exists ci|]|];
    intros Hc; eexists; split_and!; [eapply connect_new_records; exact Hc|done|done
                                    |eapply connect_new_records; exact Hc|done|done].
Qed.

(** Dropping a handle again on the port it is docked to is a no-op that
    reports success: the world, and with it every subject, is unchanged. *)
Theorem connect_gesture_idempotent h t p w w' :
  connect_gesture h t p w = Ok (true, w') -> connect_gesture h t p w' = Ok (true, w').
Proof.
  intros Hc. destruct (connect_gesture_records _ _ _ _ _ Hc) as (ci & Hci & <- & <-).
  unfold connect_gesture. rewrite Hci. by rewrite decide_True.
Qed.
End Gestures.

Section TypedGestures.
Context {C : Type} `{ConnectorLaws C} `{!ConnectorTyped C}.
Variable dispatch : world -> nat -> nat -> option C.

(** The gestures change the store only through the connector. *)
Lemma disconnect_gesture_typed h w w' :
  annotations_typed (w_store w) -> disconnect_gesture dispatch h w = Ok w' ->
  annotations_typed (w_store w').
Proof.
  intros Ht Hd. unfold disconnect_gesture in Hd.
  destruct (get_connection w h) as [ci|]; [|by simplify_eq].
  unfold_result Hd. simplify_eq. unfold remove_connection. rewrite w_store_put_conns.
  destruct (dispatch w (ci_connected ci) h.1); [|by simplify_eq].
  by eapply disconnect_typed.
Qed.

Lemma connect_gesture_typed h t p w b w' :
  annotations_typed (w_store w) -> connect_gesture dispatch h t p w = Ok (b, w') ->
  annotations_typed (w_store w').
Proof.
  intros Ht Hc.
  assert (Hn : connect_new dispatch h t p w = Ok (b, w') -> annotations_typed (w_store w')).
  { intros Hc'. destruct (connect_new_cases dispatch _ _ _ _ _ _ Hc')
      as [[_ ->] | (_ & c & w1 & r & _ & Hd & Hcn)]; [done|].
    eapply connect_typed; [|exact Hcn]. unfold record_connection. rewrite w_store_put_conns.
    by eapply disconnect_gesture_typed. }
  unfold connect_gesture in Hc. destruct (get_connection w h);
    [case_decide; [by simplify_eq|]|]; auto.
Qed.
End TypedGestures.

End Protocol.
