(* ===== verification/Relationship.v ===== *)
(** * Relationship: connectors that give a line a relationship subject

    gaphor's [RelationshipConnect] (gaphor.diagram.connectors) and the two
    of its subclasses the interface items meet: the interface realization
    connector (gaphor.UML.classes.interfacerealization) and the dependency
    connector (gaphor.UML.classes.dependency). Their code is outside src/;
    they are modelled from the specification (section 3: relationship
    subjects are created when a connection needs them and destroyed with
    the last connection that supports them; section 4.2: a reconnection
    keeps the subject) and from test_realizationconnect.py.

    [allow] checks the item an end may glue to: the head of a realization
    to an interface item, its tail to a class or component item, either
    end of a dependency to an element item. [connect], once both ends are
    docked to items with subjects, points the line's relationship at the
    two subjects ([set_ends]): a realization's [contract] and
    [implementatingClassifier], a dependency's [supplier] and [client]; a
    line without subject first gets a new relationship (a [Usage] for a
    dependency on an interface). [disconnect] of the last docked end
    unlinks the relationship and clears the line's subject; while the
    other end is docked the subject stays, so that the reconnection the
    editor performs as a disconnect followed by a connect keeps it.

    The theorems: the connector keeps the laws of the protocol; [connect]
    creates one realization pointing at the two subjects; a reconnection
    keeps the subject and moves its end; the disconnect of the last end
    removes every trace of the relationship. *)

From stdpp Require Import base list gmap strings sets.
From S2P Require Import Prelude Model Factory Items Protocol.
Set Warnings "-clear-no-such-hyp".

Module Relationship.
Import CoreModel Factory Items Protocol.

Inductive relkind := RealizationRel | DependencyRel.

#[export] Instance relkind_eq_dec : EqDecision relkind.
Proof. solve_decision. Defined.

(** The connector built for [(element, line)]. *)
Record RelationshipConnect := mkRelationshipConnect {
  rc_kind : relkind;
  rc_element : nat;
  rc_line : nat
}.

(** The items end [e] of the line may glue to. *)
Definition end_allowed (k : relkind) (e : hend) (w : world) (t : nat) : bool :=
  match k, e with
  | RealizationRel, Head => is_item w t InterfaceItem
  | RealizationRel, Tail => is_item w t ClassItem || is_item w t ComponentItem
  | DependencyRel, _ => is_item w t ElementPresentation
  end.

Definition allow (self : RelationshipConnect) (h : handle) (port : nat) (w : world)
    : result bool :=
  if end_allowed (rc_kind self) h.2 w (rc_element self) then base_allow h port w
  else Ok false.

(** The class of a new relationship whose head shows [hs]. *)
Definition rel_class (k : relkind) (st : store) (hs : nat) : UClass :=
  match k with
  | RealizationRel => InterfaceRealization
  | DependencyRel => if isinstance st hs Interface then Usage else Dependency
  end.

(** Point relationship [r] at the head subject [hs] and the tail subject
    [ts]. *)
Definition set_ends (k : relkind) (r hs ts : nat) (st : store) : store :=
  match k with
  | RealizationRel =>
      assoc_set_one InterfaceRealization_implementatingClassifier r ts
        (put_ref r "contract" [hs] st)
  | DependencyRel =>
      assoc_set_one (flip NamedElement_clientDependency) r ts
        (assoc_set_one (flip NamedElement_supplierDependency) r hs st)
  end.

(** The subject of the item end [e] of line [l] is docked to. *)
Definition end_subject (w : world) (l : nat) (e : hend) : option nat :=
  get_connected w (l, e) ≫= subject_of w.

Definition connect (self : RelationshipConnect) (h : handle) (port : nat) (w : world)
    : result (option bool * world) :=
  r <- base_connect h port w ;;
  let l := rc_line self in
  let k := rc_kind self in
  match end_subject w l Head, end_subject w l Tail with
  | Some hs, Some ts =>
      let st := w_store w in
      match subject_of w l with
      | Some rel => Ok (r.1, set_store (set_ends k rel hs ts st) w)
      | None =>
          let '(rel, st1) := create (rel_class k st hs) st in
          Ok (r.1, set_subject l (Some rel) (set_store (set_ends k rel hs ts st1) w))
      end
  | _, _ => Ok (r.1, w)
  end.

Definition disconnect (self : RelationshipConnect) (h : handle) (w : world) : result world :=
  let l := rc_line self in
  match get_connected w (l, other_end h.2), subject_of w l with
  | None, Some rel => base_disconnect h (set_subject l None (set_store (unlink rel (w_store w)) w))
  | _, _ => base_disconnect h w
  end.

#[export] Instance RelationshipConnect_connector : Connector RelationshipConnect := {
  Protocol.element := rc_element;
  Protocol.line := rc_line;
  Protocol.allow := allow;
  Protocol.connect := connect;
  Protocol.disconnect := disconnect
}.

(** ** The laws *)

Lemma contract_plain : plain_ref "contract".
Proof. apply (bool_decide_unpack _). vm_compute. exact I. Qed.

Lemma client_declared : declared (flip NamedElement_clientDependency).
Proof. right. rewrite flip_flip. vm_compute. right. left. Qed.

Lemma supplier_declared : declared (flip NamedElement_supplierDependency).
Proof. right. rewrite flip_flip. vm_compute. right. right. left. Qed.

Lemma realization_in : InterfaceRealization_implementatingClassifier ∈ associations.
Proof. vm_compute. right. right. right. left. Qed.

Lemma realization_declared : declared InterfaceRealization_implementatingClassifier.
Proof. left. apply realization_in. Qed.

#[export] Hint Resolve contract_plain client_declared supplier_declared
  realization_declared : gaphor.

Lemma store_wf_set_ends k r hs ts st : store_wf st -> store_wf (set_ends k r hs ts st).
Proof.
  intros Hwf. destruct k; simpl; apply store_wf_assoc_set_one; auto with gaphor.
  apply store_wf_put_ref; [apply contract_plain|apply NoDup_singleton|done].
Qed.

Lemma connector_frame_set_store_subject l s st w :
  connector_frame w (set_subject l s (set_store st w)).
Proof.
  eapply connector_frame_trans; [apply connector_frame_set_store|apply connector_frame_set_subject].
Qed.

#[export] Hint Resolve store_wf_set_ends connector_frame_set_store_subject : gaphor.

(** The cases of [connect]: nothing, new ends for the line's subject, or
    a new relationship. *)
Lemma connect_cases c h p w r w' :
  connect c h p w = Ok (r, w') ->
  w' = w \/
  (exists rel hs ts, subject_of w (rc_line c) = Some rel /\
     w' = set_store (set_ends (rc_kind c) rel hs ts (w_store w)) w) \/
  (exists hs ts, subject_of w (rc_line c) = None /\
     let '(rel, st1) := create (rel_class (rc_kind c) (w_store w) hs) (w_store w) in
     w' = set_subject (rc_line c) (Some rel)
            (set_store (set_ends (rc_kind c) rel hs ts st1) w)).
Proof.
  unfold connect, base_connect; simpl.
  destruct (end_subject w (rc_line c) Head) as [hs|], (end_subject w (rc_line c) Tail) as [ts|];
    intros Hc; simplify_eq; auto.
  destruct (subject_of w (rc_line c)) as [rel|] eqn:Es; simplify_eq; [eauto 10|].
  destruct (create (rel_class (rc_kind c) (w_store w) hs) (w_store w)) as [rel st1] eqn:Ecr.
  simplify_eq. right; right.
  exists hs, ts. split; [done|]. simpl. done.
Qed.

Lemma disconnect_cases c h w w' :
  disconnect c h w = Ok w' ->
  w' = w \/ exists rel, w' = set_subject (rc_line c) None (set_store (unlink rel (w_store w)) w).
Proof.
  unfold disconnect, base_disconnect; simpl.
  destruct (get_connected w (rc_line c, other_end h.2)), (subject_of w (rc_line c));
    intros; simplify_eq; eauto.
Qed.

#[export] Instance RelationshipConnect_laws : ConnectorLaws RelationshipConnect.
Proof.
  split; cbn.
  - intros c h p w r w' [->|[(rel & hs & ts & _ & ->)|(hs & ts & _ & Hw)]]%connect_cases;
      auto with gaphor.
    destruct (create _ _); subst. auto with gaphor.
  - intros c h w w' [->|[rel ->]]%disconnect_cases; auto with gaphor.
  - intros c h p w r w' Hwf [->|[(rel & hs & ts & _ & ->)|(hs & ts & _ & Hw)]]%connect_cases;
      simpl; auto with gaphor.
    destruct (create _ _) as [rel st1] eqn:Ecr; subst; simpl.
    apply store_wf_set_ends. apply (f_equal snd) in Ecr. simpl in Ecr. subst. auto with gaphor.
  - intros c h w w' Hwf [->|[rel ->]]%disconnect_cases; simpl; auto with gaphor.
Qed.

Lemma annotations_typed_set_ends k r hs ts st :
  annotations_typed st -> annotations_typed (set_ends k r hs ts st).
Proof.
  intros Ht. destruct k; simpl;
    repeat (apply annotations_typed_assoc_set_one; [decide_compute|]).
  - apply annotations_typed_put_ref; [done|]. by intros ?.
  - done.
Qed.

#[export] Instance RelationshipConnect_typed : ConnectorTyped RelationshipConnect.
Proof.
  split; cbn.
  - intros c h p w r w' Ht [->|[(rel & hs & ts & _ & ->)|(hs & ts & _ & Hw)]]%connect_cases;
      simpl; auto using annotations_typed_set_ends.
    destruct (create _ _) as [rel st1] eqn:Ecr; subst; simpl.
    apply annotations_typed_set_ends. by eapply annotations_typed_create_eq.
  - intros c h w w' Ht [->|[rel ->]]%disconnect_cases; simpl; auto with gaphor.
Qed.

(** ** Theorems *)

Lemma s_class_set_ends k r hs ts st : s_class (set_ends k r hs ts st) = s_class st.
Proof. destruct k; simpl; by rewrite !s_class_assoc_set_one. Qed.

(** The ends of a realization after [set_ends]. *)
Lemma set_ends_realization r hs ts st :
  store_wf st -> length (get_ref st r "implementatingClassifier") <= 1 ->
  let st' := set_ends RealizationRel r hs ts st in
  get_ref st' r "contract" = [hs] /\ get_ref st' r "implementatingClassifier" = [ts] /\
  r ∈ get_ref st' ts "interfaceRealization".
Proof.
  intros Hwf Hlen st'. subst st'. simpl.
  assert (Hwf1 : store_wf (put_ref r "contract" [hs] st))
    by (apply store_wf_put_ref; auto using NoDup_singleton with gaphor).
  destruct (assoc_set_one_value InterfaceRealization_implementatingClassifier r ts
              (put_ref r "contract" [hs] st)) as [H1 H2];
    [apply realization_in|exact Hwf1|by rewrite get_ref_put_ref, decide_False|].
  split_and!; [|exact H1|exact H2].
  rewrite assoc_set_one_frame by decide_compute. by rewrite get_ref_put_ref, decide_True.
Qed.

(** [connect] of a realization whose two ends show subjects and which has
    no subject yet creates one new [InterfaceRealization], the line's
    subject, whose contract is the interface and whose implementing
    classifier is the class, linked back from the class. *)
Theorem realization_connect_creates e l h p w it isub cs :
  store_wf (w_store w) -> item_of w l = Some it -> it_subject it = None ->
  end_subject w l Head = Some isub -> end_subject w l Tail = Some cs ->
  exists w' r, connect (mkRelationshipConnect RealizationRel e l) h p w = Ok (Some true, w') /\
    s_class (w_store w) !! r = None /\ subject_of w' l = Some r /\
    s_class (w_store w') !! r = Some InterfaceRealization /\
    get_ref (w_store w') r "contract" = [isub] /\
    get_ref (w_store w') r "implementatingClassifier" = [cs] /\
    r ∈ get_ref (w_store w') cs "interfaceRealization".
Proof.
  intros Hwf Hit Hs Hh Ht. unfold connect, base_connect; simpl. rewrite Hh, Ht.
  assert (Hsub : subject_of w l = None) by (unfold subject_of; by rewrite Hit).
  rewrite Hsub. simpl.
  destruct (set_ends_realization (fresh_id (w_store w)) isub cs (create InterfaceRealization (w_store w)).2)
    as (H1 & H2 & H3); [by apply store_wf_create|rewrite get_ref_create, fresh_owner; simpl; lia|].
  eexists _, (fresh_id (w_store w)). split; [reflexivity|].
  split_and!; [apply fresh_class| | |done|done|done].
  - by apply (subject_of_set_subject _ _ _ it).
  - simpl. rewrite ?s_class_assoc_set_one, ?s_class_put_ref. simpl. apply lookup_insert_eq.
Qed.

(** A reconnection keeps the line's subject: [connect] with the subject
    already there points it at the new classifier, which becomes the one
    implementing classifier; no other classifier keeps the realization. *)
Theorem realization_reconnect_keeps_subject e l h p w rel isub cs :
  store_wf (w_store w) -> subject_of w l = Some rel ->
  length (get_ref (w_store w) rel "implementatingClassifier") <= 1 ->
  end_subject w l Head = Some isub -> end_subject w l Tail = Some cs ->
  exists w', connect (mkRelationshipConnect RealizationRel e l) h p w = Ok (Some true, w') /\
    subject_of w' l = Some rel /\ get_ref (w_store w') rel "contract" = [isub] /\
    get_ref (w_store w') rel "implementatingClassifier" = [cs] /\
    forall c, rel ∈ get_ref (w_store w') c "interfaceRealization" -> c = cs.
Proof.
  intros Hwf Hsub Hlen Hh Ht. unfold connect, base_connect; simpl. rewrite Hh, Ht, Hsub.
  destruct (set_ends_realization rel isub cs (w_store w) Hwf Hlen) as (H1 & H2 & H3).
  eexists. split; [reflexivity|]. simpl. split_and!; [done|done|done|].
  intros c Hc. destruct (store_wf_set_ends RealizationRel rel isub cs _ Hwf) as [Hcons _].
  apply (Hcons _ realization_in rel c) in Hc.
  change (assoc_name InterfaceRealization_implementatingClassifier) with "implementatingClassifier" in Hc.
  rewrite H2 in Hc. set_solver.
Qed.

(** While the other end is docked, a disconnect keeps the subject. *)
Lemma relationship_disconnect_keeps c h w :
  is_Some (get_connected w (rc_line c, other_end h.2)) -> disconnect c h w = Ok w.
Proof. intros [t Ht]. unfold disconnect. by rewrite Ht. Qed.

(** The disconnect of the last docked end unlinks the relationship: the
    line has no subject, the element is gone, and no link mentions it. *)
Theorem relationship_disconnect_unlinks c h w rel :
  get_connected w (rc_line c, other_end h.2) = None -> subject_of w (rc_line c) = Some rel ->
  exists w', disconnect c h w = Ok w' /\ subject_of w' (rc_line c) = None /\
    s_class (w_store w') !! rel = None /\ forall o p, rel ∉ get_ref (w_store w') o p.
Proof.
  intros Ho Hs. unfold disconnect, base_disconnect. rewrite Ho, Hs.
  eexists. split; [reflexivity|]. split_and!.
  - apply subject_of_set_subject_None.
  - apply unlink_class.
  - intros o p. apply unlink_no_link.
Qed.

End Relationship.
