(* ===== verification/Assembly.v ===== *)
(** * Assembly: the assembly connector algorithm

    Section 4.5 of the specification: connector lines that each join a
    component item to the same folded interface item share ONE domain
    [Connector] of kind "assembly", with one [ConnectorEnd] per
    participating component (its role a domain [Port] owned by the
    component). The code (gaphor.UML.components.connectorconnect) is
    outside src/; it is modelled from the specification and checked
    against test_connect.py.

    [component_of] and [interface_of] are [get_component] and the
    interface at the other end; a component plays a role towards the
    interface when its subject realizes the interface's subject
    ([provides]) or has a usage on it ([requires]), as the helpers
    [provide] and [require] of test_connect.py:157-167 write them.

    [allow] refuses a connector joining two components or two
    interfaces, and, on a folded interface, a port that does not match
    the component's role (section 4.4). [connect], once the line joins a
    component with a role and an interface: reuses the line's own
    relationship or the one of another connector line on the same
    interface, adding an end for the component unless it has one, or
    creates a new assembly with one end; the relationship becomes the
    line's subject. Without a role the line keeps no subject (section 7,
    "no-subject connection"). [disconnect] removes the ends of the line's
    component; when fewer than two ends remain, the relationship goes
    with its ends and their ports, and every line showing it loses its
    subject; otherwise only this line's subject is cleared.

    The theorems: the connector keeps the laws of the protocol; [connect]
    creates an assembly, or joins the existing one with one end per
    component; [disconnect] tears an assembly of two ends down
    completely. *)

From stdpp Require Import base list gmap strings sets.
From S2P Require Import Prelude Model Factory Items Folding Protocol.
Set Warnings "-clear-no-such-hyp".

Module Assembly.
Import CoreModel Factory Items Folding Protocol.

(** The connector built for [(element, line)]. *)
Record AssemblyConnect := mkAssemblyConnect {
  ac_element : nat;
  ac_line : nat
}.

(** ** Roles in the domain *)

(** [c] realizes [i]: one of [c.interfaceRealization] has contract [i]. *)
Definition provides (st : store) (c i : nat) : bool :=
  existsb (fun r => bool_decide (get_one st r "contract" = Some i))
    (get_ref st c (assoc_opposite InterfaceRealization_implementatingClassifier)).

(** [c] uses [i]: one of [c.clientDependency] is a [Usage] with supplier
    [i] ([i] in the opposite end of its [supplierDependency]). *)
Definition requires (st : store) (c i : nat) : bool :=
  existsb (fun u => isinstance st u Usage &&
                    bool_decide (i ∈ get_ref st u (assoc_opposite NamedElement_supplierDependency)))
    (get_ref st c (assoc_name NamedElement_clientDependency)).

Definition has_role (st : store) (c i : nat) : bool := provides st c i || requires st c i.

(** ** The items at the ends of a line *)

Definition target_of_class (w : world) (l : nat) (c : IClass) : option nat :=
  head (filter (fun t => is_item w t c = true) (line_targets w l)).

(** [ConnectorConnectBase.get_component(line)]. *)
Definition component_of (w : world) (l : nat) : option nat := target_of_class w l ComponentItem.
Definition interface_of (w : world) (l : nat) : option nat := target_of_class w l InterfaceItem.

(** The relationship [l] will share: its own subject, or the subject of
    another connector line docked to interface item [i]. *)
Definition assembly_of (w : world) (l i : nat) : option nat :=
  match subject_of w l with
  | Some a => Some a
  | None =>
      head (omap (fun ci => if bool_decide (ci_item ci <> l) && is_item w (ci_item ci) ConnectorItem
                            then subject_of w (ci_item ci) else None)
              (get_connections_to w i))
  end.

(** ** Domain objects of an assembly *)

(** The component an end stands for: the classifier of its role port. *)
Definition end_component (st : store) (e : nat) : option nat :=
  head (get_ref st e "role" ≫= fun p => get_ref st p "encapsulatedClassifier").

Definition ends_for (st : store) (a c : nat) : list nat :=
  filter (fun e => end_component st e = Some c) (get_ref st a "end").

(** A new end of [a] for component [c]: a domain port of [c], and the end
    whose role it is. *)
Definition add_end (a c : nat) (st : store) : store :=
  let '(p, st1) := create Port st in
  let st2 := put_ref p "encapsulatedClassifier" [c] st1 in
  let '(e, st3) := create ConnectorEnd st2 in
  ref_add a "end" e (put_ref e "role" [p] st3).

(** A new assembly connector with one end for [c]. *)
Definition new_assembly (c : nat) (st : store) : nat * store :=
  let '(a, st1) := create CoreModel.Connector st in
  (a, add_end a c (set_attr a "kind" "assembly" st1)).

(** Unlink an end and its role port. *)
Definition drop_end (e : nat) (st : store) : store :=
  foldr unlink (unlink e st) (get_ref st e "role").

Definition drop_ends (es : list nat) (st : store) : store := foldr drop_end st es.

(** The ends of [a] for the component line [l] is docked to. *)
Definition line_ends (w : world) (l a : nat) : list nat :=
  match component_of w l ≫= subject_of w with
  | Some cs => ends_for (w_store w) a cs
  | None => []
  end.

Definition clear_subjects (ls : list nat) (w : world) : world :=
  foldr (fun l w => set_subject l None w) w ls.

(** ** The connector *)

(** On a folded interface the port must match the component's role. *)
Definition port_matches (w : world) (l t port : nat) (e : hend) : bool :=
  match get_connected w (l, other_end e) ≫= subject_of w, subject_of w t with
  | Some cs, Some isub =>
      let st := w_store w in
      if has_role st cs isub then
        (provides st cs isub && bool_decide (port = provided_port)) ||
        (requires st cs isub && bool_decide (port = required_port))
      else true
  | _, _ => true
  end.

Definition allow (self : AssemblyConnect) (h : handle) (port : nat) (w : world)
    : result bool :=
  let l := ac_line self in
  let t := ac_element self in
  let other := get_connected w (l, other_end h.2) in
  let other_is c := default false ((fun o => is_item w o c) <$> other) in
  if is_item w t ComponentItem then
    if other_is ComponentItem then Ok false else base_allow h port w
  else if is_item w t InterfaceItem then
    if other_is InterfaceItem then Ok false
    else match item_of w t with
         | Some it =>
             if decide (it_folded it = NONE) then base_allow h port w
             else if port_matches w l t port h.2 then base_allow h port w else Ok false
         | None => Ok false
         end
  else Ok false.

Definition connect (self : AssemblyConnect) (h : handle) (port : nat) (w : world)
    : result (option bool * world) :=
  r <- base_connect h port w ;;
  let l := ac_line self in
  let st := w_store w in
  match component_of w l ≫= subject_of w, interface_of w l with
  | Some cs, Some i =>
      match subject_of w i with
      | Some isub =>
          if has_role st cs isub then
            match assembly_of w l i with
            | Some a =>
                let st' := if decide (ends_for st a cs = []) then add_end a cs st else st in
                Ok (r.1, set_subject l (Some a) (set_store st' w))
            | None =>
                let '(a, st') := new_assembly cs st in
                Ok (r.1, set_subject l (Some a) (set_store st' w))
            end
          else Ok (r.1, w)
      | None => Ok (r.1, w)
      end
  | _, _ => Ok (r.1, w)
  end.

Definition disconnect (self : AssemblyConnect) (h : handle) (w : world) : result world :=
  let l := ac_line self in
  let st := w_store w in
  match subject_of w l with
  | Some a =>
      let st1 := drop_ends (line_ends w l a) st in
      let rest := get_ref st1 a "end" in
      if decide (length rest < 2) then
        base_disconnect h (clear_subjects (presentation w a)
                             (set_store (unlink a (drop_ends rest st1)) w))
      else base_disconnect h (set_subject l None (set_store st1 w))
  | None => base_disconnect h w
  end.

#[export] Instance AssemblyConnect_connector : Connector AssemblyConnect := {
  Protocol.element := ac_element;
  Protocol.line := ac_line;
  Protocol.allow := allow;
  Protocol.connect := connect;
  Protocol.disconnect := disconnect
}.

(** ** The laws *)

Lemma assembly_refs_plain :
  plain_ref "encapsulatedClassifier" /\ plain_ref "role" /\ plain_ref "end".
Proof. split_and!; decide_compute. Qed.

Lemma store_wf_add_end a c st : store_wf st -> store_wf (add_end a c st).
Proof.
  destruct assembly_refs_plain as (Hp1 & Hp2 & Hp3). intros Hwf. unfold add_end.
  destruct (create Port st) as [p st1] eqn:E1.
  destruct (create ConnectorEnd _) as [e st3] eqn:E2.
  apply store_wf_ref_add; [done|]. apply store_wf_put_ref; [done|apply NoDup_singleton|].
  eapply store_wf_create_eq; [exact E2|]. apply store_wf_put_ref; [done|apply NoDup_singleton|].
  by eapply store_wf_create_eq.
Qed.

Lemma store_wf_new_assembly c st : store_wf st -> store_wf (new_assembly c st).2.
Proof.
  intros Hwf. unfold new_assembly. destruct (create _ st) as [a st1] eqn:E. simpl.
  apply store_wf_add_end, store_wf_set_attr. by eapply store_wf_create_eq.
Qed.

Lemma store_wf_drop_ends es st : store_wf st -> store_wf (drop_ends es st).
Proof.
  intros Hwf. induction es as [|e es IH]; simpl; [done|]. unfold drop_end.
  generalize (get_ref (drop_ends es st) e "role"). intros ps.
  induction ps as [|p ps IHp]; simpl; auto with gaphor.
Qed.

Lemma connector_frame_clear_subjects ls w : connector_frame w (clear_subjects ls w).
Proof.
  induction ls as [|l ls IH]; simpl; [apply connector_frame_refl|].
  eapply connector_frame_trans; [exact IH|apply connector_frame_set_subject].
Qed.

Lemma w_store_clear_subjects ls w : w_store (clear_subjects ls w) = w_store w.
Proof. induction ls as [|l ls IH]; simpl; [done|]. apply IH. Qed.

Lemma connector_frame_subject_store l s st w :
  connector_frame w (set_subject l s (set_store st w)).
Proof.
  eapply connector_frame_trans; [apply connector_frame_set_store|apply connector_frame_set_subject].
Qed.

Lemma connector_frame_clear_store ls st w :
  connector_frame w (clear_subjects ls (set_store st w)).
Proof.
  eapply connector_frame_trans; [apply connector_frame_set_store|apply connector_frame_clear_subjects].
Qed.

#[local] Hint Resolve store_wf_add_end store_wf_drop_ends connector_frame_subject_store
  connector_frame_clear_store : gaphor.

Ltac ac_branches H :=
  unfold connect, disconnect, base_connect, base_disconnect, bind in H;
  simpl in H; repeat (case_match; simplify_eq/=).

Lemma annotations_typed_add_end a c st : annotations_typed st -> annotations_typed (add_end a c st).
Proof.
  intros Ht. unfold add_end.
  destruct (create Port st) as [p st1] eqn:E1.
  destruct (create ConnectorEnd _) as [e st3] eqn:E2.
  apply annotations_typed_ref_add; [done|]. apply annotations_typed_put_ref; [|done].
  eapply annotations_typed_create_eq; [exact E2|]. apply annotations_typed_put_ref; [|done].
  by eapply annotations_typed_create_eq.
Qed.

Lemma annotations_typed_new_assembly c st :
  annotations_typed st -> annotations_typed (new_assembly c st).2.
Proof.
  intros Ht. unfold new_assembly. destruct (create _ st) as [a st1] eqn:E. simpl.
  apply annotations_typed_add_end, annotations_typed_set_attr. by eapply annotations_typed_create_eq.
Qed.

Lemma annotations_typed_drop_ends es st : annotations_typed st -> annotations_typed (drop_ends es st).
Proof.
  intros Ht. induction es as [|e es IH]; simpl; [done|]. unfold drop_end.
  generalize (get_ref (drop_ends es st) e "role"). intros ps.
  induction ps as [|p ps IHp]; simpl; auto with gaphor.
Qed.

Opaque add_end new_assembly drop_ends clear_subjects.

#[export] Instance AssemblyConnect_laws : ConnectorLaws AssemblyConnect.
Proof.
  split; cbn.
  - intros c h p w r w' Hc. ac_branches Hc; auto with gaphor.
  - intros c h w w' Hc. ac_branches Hc; auto with gaphor.
  - intros c h p w r w' Hwf Hc. ac_branches Hc; simpl; auto with gaphor.
    match goal with H : new_assembly _ _ = (_, _) |- _ => rename H into Hn end.
    apply (f_equal snd) in Hn. simpl in Hn. subst. by apply store_wf_new_assembly.
  - intros c h w w' Hwf Hc. ac_branches Hc; rewrite ?w_store_clear_subjects;
      simpl; auto with gaphor.
Qed.

#[local] Hint Resolve annotations_typed_add_end annotations_typed_drop_ends : gaphor.

#[export] Instance AssemblyConnect_typed : ConnectorTyped AssemblyConnect.
Proof.
  split; cbn.
  - intros c h p w r w' Ht Hc. ac_branches Hc; simpl; auto with gaphor.
    match goal with H : new_assembly ?cc ?st = (_, _) |- _ =>
      pose proof (annotations_typed_new_assembly cc st Ht) as Hnt; rewrite H in Hnt; exact Hnt end.
  - intros c h w w' Ht Hc. ac_branches Hc; rewrite ?w_store_clear_subjects;
      simpl; auto with gaphor.
Qed.

Transparent add_end new_assembly drop_ends clear_subjects.

(** ** Adding an end *)

Lemma get_ref_ref_add o p v st o' p' :
  get_ref (ref_add o p v st) o' p' =
  if decide ((o, p) = (o', p')) then coll_add v (get_ref st o p) else get_ref st o' p'.
Proof. apply get_ref_put_ref. Qed.

#[local] Hint Rewrite get_ref_ref_add : gaphor_rw.

(** The end [add_end] creates. *)
Definition new_end (c : nat) (st : store) : nat :=
  fresh_id (put_ref (fresh_id st) "encapsulatedClassifier" [c] (create Port st).2).

(** Name the intermediate stores of [add_end a c st]: the port [p], the
    end [e]. *)
Ltac open_add_end c st :=
  unfold add_end; try unfold new_end;
  let p := fresh "p" in let st1 := fresh "st1" in
  let st2 := fresh "st2" in let e := fresh "e" in
  set (p := fresh_id st) in *; set (st1 := (create Port st).2) in *;
  change (create Port st) with (p, st1); cbv beta iota;
  set (st2 := put_ref p "encapsulatedClassifier" [c] st1) in *;
  set (e := fresh_id st2) in *;
  change (create ConnectorEnd st2) with (e, (create ConnectorEnd st2).2); cbv beta iota.

(** Reads of [add_end]'s store at keys it does not write. *)
Ltac add_end_reads :=
  repeat first [ rewrite get_ref_ref_add, decide_False by congruence
               | rewrite get_ref_put_ref, decide_False by congruence
               | rewrite get_ref_create ].

Lemma add_end_ends a c st :
  get_ref (add_end a c st) a "end" = get_ref st a "end" ++ [new_end c st] /\
  new_end c st ∉ get_ref st a "end".
Proof.
  pose proof (fresh_target (put_ref (fresh_id st) "encapsulatedClassifier" [c]
                              (create Port st).2) a "end") as Hf.
  open_add_end c st. subst st2 st1.
  rewrite get_ref_put_ref, decide_False, get_ref_create in Hf by congruence.
  rewrite get_ref_ref_add, decide_True by done. add_end_reads.
  split; [by apply coll_add_not_elem|done].
Qed.

Lemma end_component_add_end_new a c st : end_component (add_end a c st) (new_end c st) = Some c.
Proof.
  unfold end_component. open_add_end c st. add_end_reads.
  rewrite get_ref_put_ref, decide_True by done.
  cbv beta iota delta [mbind list_bind]. rewrite app_nil_r. add_end_reads.
  subst st2. by rewrite get_ref_put_ref, decide_True.
Qed.

Lemma end_component_add_end_old a c st e :
  e ∈ get_ref st a "end" -> end_component (add_end a c st) e = end_component st e.
Proof.
  intros He. pose proof (proj2 (add_end_ends a c st)) as Hn.
  assert (Hf : forall p, p ∈ get_ref st e "role" -> p <> fresh_id st).
  { intros p Hp ->. by apply (fresh_target st e "role"). }
  unfold end_component. open_add_end c st. add_end_reads.
  rewrite get_ref_put_ref, decide_False by (intros Heq; simplify_eq; set_solver).
  subst st2 st1. add_end_reads.
  f_equal. apply list_bind_ext_in. intros q Hq. add_end_reads.
  rewrite get_ref_put_ref, decide_False by (intros Heq; simplify_eq; by apply (Hf _ Hq)).
  by rewrite get_ref_create.
Qed.

Lemma s_attr_add_end a c st : s_attr (add_end a c st) = s_attr st.
Proof. reflexivity. Qed.

Lemma s_class_add_end a c st x k :
  s_class st !! x = Some k -> s_class (add_end a c st) !! x = Some k.
Proof.
  intros Hx. pose proof (fresh_class st) as Hp.
  pose proof (fresh_class (put_ref (fresh_id st) "encapsulatedClassifier" [c] (create Port st).2)) as He.
  open_add_end c st.
  assert (Hx2 : s_class st2 !! x = Some k)
    by (change (s_class st2) with (<[p:=Port]> (s_class st));
        rewrite lookup_insert_ne by congruence; done).
  change (s_class (ref_add a "end" e (put_ref e "role" [p] (create ConnectorEnd st2).2)))
    with (<[e:=ConnectorEnd]> (s_class st2)).
  rewrite lookup_insert_ne by congruence. done.
Qed.

(** [add_end a c] adds one end to [a], for [c]: the ends for the other
    components stay as they are. *)
Lemma ends_for_add_end a c st c' :
  ends_for (add_end a c st) a c' =
  ends_for st a c' ++ (if decide (c' = c) then [new_end c st] else []).
Proof.
  unfold ends_for. rewrite (proj1 (add_end_ends a c st)), filter_app.
  rewrite (list_filter_ext_in _ (fun e => end_component st e = Some c'))
    by (intros e He; by rewrite end_component_add_end_old).
  f_equal. rewrite filter_cons, filter_nil, end_component_add_end_new.
  repeat case_decide; simplify_eq; done.
Qed.

(** ** Removing ends *)

Definition unlinks (xs : list nat) (st : store) : store := foldr unlink st xs.

Lemma drop_end_unlinks e st : drop_end e st = unlinks (get_ref st e "role" ++ [e]) st.
Proof. unfold drop_end, unlinks. by rewrite foldr_app. Qed.

Lemma s_class_unlinks xs st y :
  y ∈ xs \/ s_class st !! y = None -> s_class (unlinks xs st) !! y = None.
Proof.
  induction xs as [|x xs IH]; simpl; [set_solver|]. intros Hy. simpl.
  destruct (decide (y = x)) as [->|Hne]; [apply lookup_delete_eq|].
  rewrite lookup_delete_ne by congruence. apply IH. set_solver.
Qed.

Lemma get_ref_unlinks_sub xs st o p : get_ref (unlinks xs st) o p ⊆ get_ref st o p.
Proof.
  induction xs as [|x xs IH]; simpl; [set_solver|]. rewrite get_ref_unlink.
  case_decide; [set_solver|]. intros q [_ Hq]%list_elem_of_filter. apply IH; exact Hq.
Qed.

Lemma get_ref_unlinks_keep xs st o p q :
  q ∈ get_ref st o p -> o ∉ xs -> q ∈ get_ref (unlinks xs st) o p \/ q ∈ xs.
Proof.
  induction xs as [|x xs IH]; simpl; intros Hq Ho; [by left|].
  rewrite get_ref_unlink, decide_False by set_solver. rewrite list_elem_of_filter.
  destruct (IH Hq) as [Hin|Hin]; [set_solver| |set_solver].
  destruct (decide (q = x)); set_solver.
Qed.

Lemma get_ref_drop_ends_sub es st o p : get_ref (drop_ends es st) o p ⊆ get_ref st o p.
Proof.
  induction es as [|e es IH]; simpl; [set_solver|]. rewrite drop_end_unlinks.
  etrans; [apply get_ref_unlinks_sub|apply IH].
Qed.

Lemma s_class_drop_ends es st y :
  s_class st !! y = None -> s_class (drop_ends es st) !! y = None.
Proof.
  induction es as [|e es IH]; simpl; [done|]. rewrite drop_end_unlinks. intros Hy.
  apply s_class_unlinks. auto.
Qed.

(** Every dropped end is gone. *)
Lemma drop_ends_gone es st e : e ∈ es -> s_class (drop_ends es st) !! e = None.
Proof.
  induction es as [|e' es IH]; simpl; [set_solver|]. rewrite drop_end_unlinks.
  intros He. apply s_class_unlinks. apply elem_of_cons in He as [->|He]; [set_solver|auto].
Qed.

(** A link from an owner that is neither dropped nor a port of a dropped
    end survives, unless its target is dropped or such a port. *)
Lemma drop_ends_keep es st o p q :
  q ∈ get_ref st o p -> o ∉ es -> (forall e, e ∈ es -> o ∉ get_ref st e "role") ->
  q ∈ get_ref (drop_ends es st) o p \/ q ∈ es \/ exists e, e ∈ es /\ q ∈ get_ref st e "role".
Proof.
  induction es as [|e es IH]; simpl; intros Hq Ho Hr; [by left|].
  destruct IH as [Hin|[Hin|(e' & He' & Hin)]];
    [done|set_solver|intros x Hx; apply Hr; set_solver| |set_solver|right; right; exists e'; set_solver].
  rewrite drop_end_unlinks.
  destruct (get_ref_unlinks_keep (get_ref (drop_ends es st) e "role" ++ [e]) _ o p q Hin)
    as [Hk|Hk]; [|by left|].
  - rewrite elem_of_app, list_elem_of_singleton. intros [Hp| ->]; [|set_solver].
    apply (Hr e); [set_solver|]. by apply (get_ref_drop_ends_sub es st).
  - apply elem_of_app in Hk as [Hk|Hk%list_elem_of_singleton].
    + right; right. exists e. split; [set_solver|]. by apply (get_ref_drop_ends_sub es st).
    + right; left. set_solver.
Qed.

(** No dropped end is a port of a dropped end. *)
Definition ends_apart (st : store) (es : list nat) : Prop :=
  forall e e', e ∈ es -> e' ∈ es -> e ∉ get_ref st e' "role".

(** The role ports of the dropped ends are gone. *)
Lemma drop_ends_ports es st e q :
  ends_apart st es -> e ∈ es -> q ∈ get_ref st e "role" ->
  s_class (drop_ends es st) !! q = None.
Proof.
  revert e. induction es as [|e' es IH]; simpl; intros e Ha He Hq; [set_solver|].
  rewrite drop_end_unlinks. apply s_class_unlinks.
  assert (Ha' : ends_apart st es) by (intros x y Hx Hy; apply Ha; set_solver).
  destruct (decide (e ∈ es)) as [Hin|Hnin]; [right; by apply (IH e)|].
  assert (e = e') as -> by set_solver.
  destruct (drop_ends_keep es st e' "role" q Hq Hnin) as [Hk|[Hk|(x & Hx & Hk)]].
  - intros x Hx. apply Ha; set_solver.
  - left. set_solver.
  - right. by apply drop_ends_gone.
  - right. by apply (IH x).
Qed.

Lemma subject_of_clear_subjects ls w l :
  l ∈ ls -> subject_of (clear_subjects ls w) l = None.
Proof.
  induction ls as [|l' ls IH]; simpl; [set_solver|]. intros Hl.
  destruct (decide (l = l')) as [->|Hne]; [apply subject_of_set_subject_None|].
  rewrite subject_of_set_subject_ne by congruence. apply IH. set_solver.
Qed.

Lemma s_class_unlink_keep x st y : s_class st !! y = None -> s_class (unlink x st) !! y = None.
Proof. intros Hy. by apply (s_class_unlinks [x]); right. Qed.

Lemma line_ends_sub w l a : line_ends w l a ⊆ get_ref (w_store w) a "end".
Proof.
  unfold line_ends, ends_for. case_match; [|set_solver].
  intros x [_ Hx]%list_elem_of_filter. done.
Qed.

(** The domain shape of an assembly whose ends can be dropped: the
    relationship is none of its ends nor one of their ports, and no end is
    a port of an end. *)
Definition assembly_wf (st : store) (a : nat) : Prop :=
  (a ∉ get_ref st a "end") /\ (forall e, e ∈ get_ref st a "end" -> a ∉ get_ref st e "role") /\
  ends_apart st (get_ref st a "end").

Lemma ends_apart_Forall st es :
  ends_apart st es <-> Forall (fun e' => Forall (fun e => e ∉ get_ref st e' "role") es) es.
Proof.
  unfold ends_apart. split.
  - intros H. apply Forall_forall. intros e' He'. apply Forall_forall. intros e He. by apply H.
  - intros H e e' He He'. pose proof (proj1 (Forall_forall _ _) H e' He') as H1.
    by apply (proj1 (Forall_forall _ _) H1).
Qed.

Lemma assembly_wf_Forall st a :
  assembly_wf st a <->
  (a ∉ get_ref st a "end") /\ Forall (fun e => a ∉ get_ref st e "role") (get_ref st a "end") /\
  Forall (fun e' => Forall (fun e => e ∉ get_ref st e' "role") (get_ref st a "end"))
    (get_ref st a "end").
Proof. unfold assembly_wf. rewrite <-ends_apart_Forall, Forall_forall. done. Qed.

#[export] Instance assembly_wf_dec st a : Decision (assembly_wf st a).
Proof.
  destruct (decide ((a ∉ get_ref st a "end") /\ Forall (fun e => a ∉ get_ref st e "role") (get_ref st a "end") /\
    Forall (fun e' => Forall (fun e => e ∉ get_ref st e' "role") (get_ref st a "end"))
      (get_ref st a "end"))) as [H|H];
    [left; by apply assembly_wf_Forall|right; by rewrite assembly_wf_Forall].
Defined.

(** After the ends [D] of one component are dropped, every other end of
    [a] is still an end of [a]. *)
Lemma end_kept_or_dropped st a D e :
  assembly_wf st a -> D ⊆ get_ref st a "end" -> e ∈ get_ref st a "end" ->
  e ∈ D \/ e ∈ get_ref (drop_ends D st) a "end".
Proof.
  intros (Ha1 & Ha2 & Ha3) HD He.
  destruct (decide (e ∈ D)) as [|HeD]; [by left|right].
  destruct (drop_ends_keep D st a "end" e He) as [Hk|[Hk|(x & Hx & Hk)]];
    [set_solver|intros x Hx; apply Ha2; set_solver|done|done|].
  exfalso. by apply (Ha3 e x); [|apply HD|].
Qed.

(** A role port of an end that survives the first drop is still its
    port, or gone already. *)
Lemma port_kept_or_gone st a D e q :
  assembly_wf st a -> D ⊆ get_ref st a "end" -> e ∈ get_ref st a "end" -> e ∉ D ->
  q ∈ get_ref st e "role" ->
  q ∈ get_ref (drop_ends D st) e "role" \/ s_class (drop_ends D st) !! q = None.
Proof.
  intros (Ha1 & Ha2 & Ha3) HD He HeD Hq.
  assert (Hap : ends_apart st D) by (intros x y Hx Hy; apply Ha3; set_solver).
  destruct (drop_ends_keep D st e "role" q Hq HeD) as [Hk|[Hk|(x & Hx & Hk)]].
  - intros x Hx. apply Ha3; set_solver.
  - by left.
  - right. by apply drop_ends_gone.
  - right. by apply (drop_ends_ports D st x).
Qed.

(** Teardown (section 4.5, section 8): when fewer than two ends remain
    after the ends of the line's component are dropped, [disconnect]
    leaves nothing of the assembly: the relationship is gone and no link
    mentions it, every one of its ends and every role port of an end is
    gone, and every line that showed it has no subject. *)
Theorem assembly_disconnect_teardown c h w a :
  assembly_wf (w_store w) a -> subject_of w (ac_line c) = Some a ->
  length (get_ref (drop_ends (line_ends w (ac_line c) a) (w_store w)) a "end") < 2 ->
  exists w', disconnect c h w = Ok w' /\
    s_class (w_store w') !! a = None /\ (forall o p, a ∉ get_ref (w_store w') o p) /\
    (forall e, e ∈ get_ref (w_store w) a "end" ->
       s_class (w_store w') !! e = None /\
       forall q, q ∈ get_ref (w_store w) e "role" -> s_class (w_store w') !! q = None) /\
    (forall l, subject_of w l = Some a -> subject_of w' l = None).
Proof.
  intros Hwf Hs Hlen. unfold disconnect, base_disconnect. rewrite Hs, decide_True by done.
  eexists. split; [reflexivity|]. rewrite w_store_clear_subjects, w_store_set_store.
  pose proof (line_ends_sub w (ac_line c) a) as HD.
  set (D := line_ends w (ac_line c) a) in *. set (st1 := drop_ends D (w_store w)) in *.
  set (rest := get_ref st1 a "end") in *.
  assert (Hkeep : forall y, s_class st1 !! y = None ->
            s_class (unlink a (drop_ends rest st1)) !! y = None)
    by (intros y Hy; by apply s_class_unlink_keep, s_class_drop_ends).
  assert (Hap : ends_apart st1 rest).
  { intros x y Hx Hy Hxy. destruct Hwf as (_ & _ & Ha3).
    apply (Ha3 x y); [by apply (get_ref_drop_ends_sub D _ a "end")
                     |by apply (get_ref_drop_ends_sub D _ a "end")
                     |by apply (get_ref_drop_ends_sub D _ y "role")]. }
  split_and!.
  - apply unlink_class.
  - intros o p. apply unlink_no_link.
  - intros e He. destruct (end_kept_or_dropped _ a D e Hwf HD He) as [HeD|Her].
    + split; [by apply Hkeep, drop_ends_gone|].
      intros q Hq. apply Hkeep. apply (drop_ends_ports D _ e); [|done|done].
      intros x y Hx Hy. apply Hwf; set_solver.
    + split; [by apply s_class_unlink_keep, drop_ends_gone|].
      intros q Hq. destruct (decide (e ∈ D)) as [HeD|HeD].
      { apply Hkeep. apply (drop_ends_ports D _ e); [|done|done]. intros x y Hx Hy. apply Hwf; set_solver. }
      destruct (port_kept_or_gone _ a D e q Hwf HD He HeD Hq) as [Hq1|Hq1]; [|by apply Hkeep].
      apply s_class_unlink_keep. by apply (drop_ends_ports rest st1 e).
  - intros l Hl. apply subject_of_clear_subjects. by apply elem_of_presentation.
Qed.

(** C20. A connector line joining a component with a role to an interface,
    when no line on the interface shows an assembly yet, creates one: a
    new [Connector] of kind "assembly", the line's subject, with exactly
    one end, whose role port belongs to the component. *)
Theorem assembly_connect_creates e l h p w it cs i isub :
  item_of w l = Some it -> component_of w l ≫= subject_of w = Some cs ->
  interface_of w l = Some i -> subject_of w i = Some isub ->
  has_role (w_store w) cs isub = true -> assembly_of w l i = None ->
  exists w' a en, connect (mkAssemblyConnect e l) h p w = Ok (Some true, w') /\
    s_class (w_store w) !! a = None /\ subject_of w' l = Some a /\
    s_class (w_store w') !! a = Some CoreModel.Connector /\
    get_attr (w_store w') a "kind" = Some "assembly" /\
    get_ref (w_store w') a "end" = [en] /\ end_component (w_store w') en = Some cs.
Proof.
  intros Hit Hc Hi Hs Hr Ha. unfold connect, base_connect. cbn [bind ac_line fst].
  rewrite Hc, Hi, Hs, Hr, Ha.
  set (a := fresh_id (w_store w)).
  set (st0 := set_attr a "kind" "assembly" (create CoreModel.Connector (w_store w)).2).
  change (new_assembly cs (w_store w)) with (a, add_end a cs st0). cbv beta iota.
  destruct (add_end_ends a cs st0) as [Hends _].
  assert (Hst0 : get_ref st0 a "end" = [])
    by (subst st0; rewrite get_ref_set_attr, get_ref_create; apply fresh_owner).
  rewrite Hst0 in Hends.
  eexists _, a, (new_end cs st0). split; [reflexivity|]. rewrite w_store_set_subject, w_store_set_store.
  split_and!; [apply fresh_class|by apply (subject_of_set_subject _ _ _ it)| | |done|].
  - apply s_class_add_end. apply lookup_insert_eq.
  - unfold get_attr. rewrite s_attr_add_end. apply lookup_insert_eq.
  - apply end_component_add_end_new.
Qed.

(** C21. A connector line joining a component with a role to an interface
    that already carries an assembly shares it: the assembly becomes the
    line's subject, the component gets an end unless it has one, and the
    ends of every other component stay as they are. *)
Theorem assembly_connect_joins e l h p w it cs i isub a :
  item_of w l = Some it -> component_of w l ≫= subject_of w = Some cs ->
  interface_of w l = Some i -> subject_of w i = Some isub ->
  has_role (w_store w) cs isub = true -> assembly_of w l i = Some a ->
  exists w', connect (mkAssemblyConnect e l) h p w = Ok (Some true, w') /\
    subject_of w' l = Some a /\ ends_for (w_store w') a cs <> [] /\
    (forall c', c' <> cs -> ends_for (w_store w') a c' = ends_for (w_store w) a c') /\
    length (get_ref (w_store w') a "end") =
      length (get_ref (w_store w) a "end") +
      (if decide (ends_for (w_store w) a cs = []) then 1 else 0).
Proof.
  intros Hit Hc Hi Hs Hr Ha. unfold connect, base_connect. cbn [bind ac_line fst].
  rewrite Hc, Hi, Hs, Hr, Ha. eexists. split; [reflexivity|].
  rewrite w_store_set_subject, w_store_set_store.
  split; [by apply (subject_of_set_subject _ _ _ it)|].
  case_decide as Hn.
  - rewrite ends_for_add_end, Hn, decide_True by done.
    split_and!; [done| |].
    + intros c' Hc'. by rewrite ends_for_add_end, decide_False, app_nil_r.
    + rewrite (proj1 (add_end_ends a cs _)), length_app. simpl. lia.
  - split_and!; [done|done|lia].
Qed.

End Assembly.
