(* ===== verification/CommentLine.v ===== *)
(** * CommentLine: gaphor/diagram/general/connectors.py

    [CommentLinePresentationConnect] connects a comment line to a comment
    item, an element item or another line; [InverseCommentLineLineConnect]
    is the same connector built with its two arguments swapped. The
    methods read the world (which item the opposite handle is docked to,
    the subjects of both ends, the comment lines attached to every
    presentation of a subject) and change only the element store, through
    the [annotatedElement]/[comment] association of [Model].

    The theorems: the connector satisfies [ConnectorLaws]; [connect] links
    the comment to the other subject in both directions, raises
    [AssertionError] when neither end is a comment, never raises after a
    successful [allow] in a diagram whose comment items show comments;
    [allow] refuses two items showing the same subject only when that
    subject is [None]; [disconnect] keeps the link while a second comment line
    still joins the two subjects and removes it with the last one, and
    raises [ValueError] when the link is missing. *)

From stdpp Require Import base list gmap strings sets.
From S2P Require Import Prelude Model Items Protocol.
Set Warnings "-clear-no-such-hyp".

Module CommentLine.
Import CoreModel Items Protocol.

(** connectors.py:18-22: the connector built for [(element, line)]. *)
Record CommentLinePresentationConnect := mkCommentLinePresentationConnect {
  cl_element : nat;
  cl_line : nat
}.

(** [x.subject] and [isinstance(x, cls)] of an optional item. *)
Definition subject_of_opt (w : world) (o : option nat) : option nat :=
  o ≫= subject_of w.

Definition is_item_opt (w : world) (o : option nat) (c : IClass) : bool :=
  match o with Some i => is_item w i c | None => false end.

(** connectors.py:24-53 *)
Definition allow (self : CommentLinePresentationConnect) (h : handle) (port : nat)
    (w : world) : result bool :=
  opp <- opposite (cl_line self) h ;;
  let connected_to := get_connected w opp in
  let element := cl_element self in
  if decide (connected_to = Some element) then Ok false
  else if truthy connected_to && negb (truthy (subject_of_opt w connected_to))
          && negb (truthy (subject_of w element))
          && bool_decide (subject_of_opt w connected_to = subject_of w element)
  then Ok false
  else
    let glue_ok := xorb (is_item_opt w connected_to CommentItem)
                        (is_item w element CommentItem) in
    if truthy connected_to && negb glue_ok then Ok false
    else base_allow h port w.

(** connectors.py:55-64 *)
Definition connect (self : CommentLinePresentationConnect) (h : handle) (port : nat)
    (w : world) : result (option bool * world) :=
  r <- base_connect h port w ;;
  if truthy_bool r.1 then
    opp <- opposite (cl_line self) h ;;
    let connected_to := get_connected w opp in
    let st := w_store w in
    match subject_of_opt w connected_to, subject_of w (cl_element self) with
    | Some cs, Some es =>
        if isinstance st cs Comment then
          Ok (None, set_store (assoc_set Comment_annotatedElement cs es st) w)
        else
          pyassert (isinstance st es Comment)
            (Ok (None, set_store (assoc_set Comment_annotatedElement es cs st) w))
    | _, _ => Ok (None, w)
    end
  else Ok (None, w).

(** connectors.py:87-92 *)
Definition all_comment_line_items (w : world) (subject : nat) : list nat :=
  presentation w subject ≫= fun p =>
    ci_item <$> filter (fun ci => is_item w (ci_item ci) CommentLineItem = true)
                       (get_connections_to w p).

(** connectors.py:78-82: the unlinking branch of [disconnect], for the
    element's subject [es] and the opposite's subject [os]. *)
Definition unlink_subjects (st : store) (es os : nat) : result store :=
  if isinstance st os Comment then
    assoc_del Comment_annotatedElement os es st
  else if truthy (Some os) then
    pyassert (isinstance st es Comment) (assoc_del Comment_annotatedElement es os st)
  else Ok st.

(** connectors.py:66-84 *)
Definition disconnect (self : CommentLinePresentationConnect) (h : handle) (w : world)
    : result world :=
  opposite_handle <- opposite (cl_line self) h ;;
  let opp := get_connected w opposite_handle in
  let st := w_store w in
  match subject_of w (cl_element self), opp, subject_of_opt w opp with
  | Some es, Some _, Some os =>
      let comment_line_items_1 : gset nat := list_to_set (all_comment_line_items w es) in
      let comment_line_items_2 : gset nat := list_to_set (all_comment_line_items w os) in
      if decide (1 < size (comment_line_items_1 ∩ comment_line_items_2)) then Ok w
      else
        st' <- unlink_subjects st es os ;;
        base_disconnect h (set_store st' w)
  | _, _, _ => base_disconnect h w
  end.

(** connectors.py:95-101: [__init__(self, line, element)] passes its
    arguments on swapped. *)
Definition InverseCommentLineLineConnect (line element : nat)
    : CommentLinePresentationConnect :=
  mkCommentLinePresentationConnect element line.

#[export] Instance CommentLinePresentationConnect_connector :
  Connector CommentLinePresentationConnect := {
  Protocol.element := cl_element;
  Protocol.line := cl_line;
  Protocol.allow := allow;
  Protocol.connect := connect;
  Protocol.disconnect := disconnect
}.

(** ** The connector keeps the laws of the protocol *)

(** Break a call of [connect] or [disconnect] into the branches of its body. *)
Ltac cl_branches H :=
  unfold connect, disconnect, unlink_subjects, base_connect, base_disconnect, bind,
    pyassert in H;
  simpl in H; repeat (case_match; simplify_eq/=).

#[export] Instance CommentLinePresentationConnect_laws :
  ConnectorLaws CommentLinePresentationConnect.
Proof.
  split; cbn.
  - intros c h p w r w' Hc. cl_branches Hc; auto with gaphor.
  - intros c h w w' Hc. cl_branches Hc; auto with gaphor.
  - intros c h p w r w' Hwf Hc. cl_branches Hc; auto with gaphor.
  - intros c h w w' Hwf Hc. cl_branches Hc; eauto with gaphor.
Qed.

(** The links [connect] adds are owned by the subject it found to be a
    comment, or asserted to be one. *)
#[export] Instance CommentLinePresentationConnect_typed :
  ConnectorTyped CommentLinePresentationConnect.
Proof.
  split; cbn.
  - intros c h p w r w' Ht Hc. cl_branches Hc; simpl; try done;
      (apply annotations_typed_assoc_set; [done|intros _; done|intros Heq; discriminate]).
  - intros c h w w' Ht Hc. cl_branches Hc; eauto with gaphor.
Qed.

(** ** Specification-level notions *)

(** The link the connector maintains between the subject [x] of the
    opposite end and the subject [y] of the element: the comment
    annotates the other one. *)
Definition comment_link (st : store) (x y : nat) : Prop :=
  if isinstance st x Comment then annotates st x y else annotates st y x.

#[export] Instance annotates_dec st c e : Decision (annotates st c e).
Proof. unfold annotates. apply _. Defined.

#[export] Instance comment_link_dec st x y : Decision (comment_link st x y).
Proof. unfold comment_link. destruct (isinstance st x Comment); apply _. Defined.

(** Line [l] is docked, by one of its handles, to a presentation of [s]. *)
Definition docked (w : world) (l s : nat) : Prop :=
  exists p hd port, subject_of w p = Some s /\
    mkCinfo l hd p port ∈ diagram_connections w (diagram_of w p).

(** Every comment item shows a comment. *)
Definition comment_items_show_comments (w : world) : Prop :=
  forall i s, is_item w i CommentItem = true -> subject_of w i = Some s ->
    isinstance (w_store w) s Comment = true.

Definition comment_items_show_commentsb (w : world) : bool :=
  forallb (fun '(_, it) =>
    if isubclass (it_class it) CommentItem then
      match it_subject it with Some s => isinstance (w_store w) s Comment | None => true end
    else true) (map_to_list (w_items w)).

Lemma comment_items_show_commentsb_sound w :
  comment_items_show_commentsb w = true -> comment_items_show_comments w.
Proof.
  unfold comment_items_show_commentsb, comment_items_show_comments, is_item, subject_of, item_of.
  rewrite forallb_forall. intros Hall i s Hi Hs.
  destruct (w_items w !! i) as [it|] eqn:Hit; simplify_eq/=.
  specialize (Hall (i, it)). rewrite <- list_elem_of_In, elem_of_map_to_list in Hall.
  specialize (Hall Hit). by rewrite Hi, Hs in Hall.
Qed.

Lemma elem_of_all_comment_line_items w s l :
  l ∈ all_comment_line_items w s <-> is_item w l CommentLineItem = true /\ docked w l s.
Proof.
  unfold all_comment_line_items, docked. rewrite list_elem_of_bind. split.
  - intros (p & Hl & Hp%elem_of_presentation).
    apply list_elem_of_fmap in Hl as ([l' hd p' port] & -> & Hci).
    apply list_elem_of_filter in Hci as [Hcl Hci].
    unfold get_connections_to in Hci. apply list_elem_of_filter in Hci as [Hp' Hci].
    simpl in *. subst. eauto 10.
  - intros (Hcl & p & hd & port & Hp & Hci). exists p.
    split; [|by apply elem_of_presentation].
    apply list_elem_of_fmap. exists (mkCinfo l hd p port). split; [done|].
    apply list_elem_of_filter. split; [done|]. by apply list_elem_of_filter.
Qed.

(** Two distinct lines in both sets make the intersection larger than one. *)
Lemma shared_lines_size (X Y : gset nat) l l' :
  l <> l' -> l ∈ X -> l ∈ Y -> l' ∈ X -> l' ∈ Y -> 1 < size (X ∩ Y).
Proof.
  intros Hne ????. assert ({[l; l']} ⊆ X ∩ Y) as Hsub by set_solver.
  apply subseteq_size in Hsub. rewrite size_union in Hsub by set_solver.
  rewrite !size_singleton in Hsub. lia.
Qed.

Lemma single_line_size (X Y : gset nat) l :
  (forall l', l' ∈ X -> l' ∈ Y -> l' = l) -> ~ 1 < size (X ∩ Y).
Proof.
  intros Honly. assert (X ∩ Y ⊆ {[l]}) as Hsub.
  { intros x Hx. apply elem_of_intersection in Hx as [??]. set_solver. }
  apply subseteq_size in Hsub. rewrite size_singleton in Hsub. lia.
Qed.

(** ** connect *)

(** [connect] with the opposite handle docked and both ends showing a
    subject: the subject found to be a comment becomes the owner of the
    link, the element's subject when the opposite one is not a comment,
    and the [assert] fails when neither is. *)
Lemma connect_docked c h p w oh ct cs es :
  opposite (cl_line c) h = Ok oh -> get_connected w oh = Some ct ->
  subject_of w ct = Some cs -> subject_of w (cl_element c) = Some es ->
  connect c h p w =
    if isinstance (w_store w) cs Comment then
      Ok (None, set_store (assoc_set Comment_annotatedElement cs es (w_store w)) w)
    else if isinstance (w_store w) es Comment then
      Ok (None, set_store (assoc_set Comment_annotatedElement es cs (w_store w)) w)
    else Raise AssertionError.
Proof.
  intros Ho Hct Hcs Hes. unfold connect; simpl. rewrite Ho; simpl.
  unfold subject_of_opt. rewrite Hct; simpl. rewrite Hcs, Hes.
  by destruct (isinstance (w_store w) cs Comment), (isinstance (w_store w) es Comment).
Qed.

(** The store [connect] leaves, on a consistent store, links the two
    subjects as [comment_link] says. *)
Lemma comment_link_connect st cs es :
  assoc_consistent st Comment_annotatedElement ->
  (isinstance st cs Comment = true \/ isinstance st es Comment = true) ->
  comment_link (if isinstance st cs Comment then assoc_set Comment_annotatedElement cs es st
                else assoc_set Comment_annotatedElement es cs st) cs es.
Proof.
  intros Hc Hcomm. unfold comment_link.
  destruct (isinstance st cs Comment) eqn:Ecs; rewrite isinstance_assoc_set, Ecs;
    apply assoc_set_linked; auto using annotatedElement_name_ne.
Qed.

(** C4. After [connect], the comment of the two ends annotates the other
    subject, in both directions of the association. *)
Theorem connect_links c h p w oh ct cs es :
  store_wf (w_store w) ->
  opposite (cl_line c) h = Ok oh -> get_connected w oh = Some ct ->
  subject_of w ct = Some cs -> subject_of w (cl_element c) = Some es ->
  isinstance (w_store w) cs Comment = true \/ isinstance (w_store w) es Comment = true ->
  exists w', connect c h p w = Ok (None, w') /\ comment_link (w_store w') cs es.
Proof.
  intros [Hc%wf_annotated _] Ho Hct Hcs Hes Hcomm.
  rewrite (connect_docked c h p w oh ct cs es Ho Hct Hcs Hes).
  pose proof (comment_link_connect _ cs es Hc Hcomm) as Hl.
  destruct (isinstance (w_store w) cs Comment) eqn:Ecs.
  - eexists; split; [done|exact Hl].
  - destruct Hcomm as [Hcs'|Ees]; [congruence|]. rewrite Ees.
    eexists; split; [done|exact Hl].
Qed.

(** C6. When neither subject is a comment, the [assert] of the else branch
    fails. *)
Theorem connect_raises_without_comment c h p w oh ct cs es :
  opposite (cl_line c) h = Ok oh -> get_connected w oh = Some ct ->
  subject_of w ct = Some cs -> subject_of w (cl_element c) = Some es ->
  isinstance (w_store w) cs Comment = false -> isinstance (w_store w) es Comment = false ->
  connect c h p w = Raise AssertionError.
Proof.
  intros Ho Hct Hcs Hes Ecs Ees.
  by rewrite (connect_docked c h p w oh ct cs es Ho Hct Hcs Hes), Ecs, Ees.
Qed.

(** C5. A glue the connector allowed never ends in the failed [assert]:
    [allow] demands that exactly one end is a comment item, and a comment
    item shows a comment. *)
Theorem allow_connect_safe c h p w :
  comment_items_show_comments w -> allow c h p w = Ok true ->
  exists w', connect c h p w = Ok (None, w').
Proof.
  intros Htyped Hallow. unfold allow in Hallow.
  destruct (opposite (cl_line c) h) as [oh|] eqn:Ho; [|discriminate]. simpl in Hallow.
  unfold connect; simpl. rewrite Ho; simpl. unfold subject_of_opt in *.
  destruct (get_connected w oh) as [ct|]; simpl in *; [|eauto].
  destruct (subject_of w ct) as [cs|] eqn:Hcs; simpl; [|eauto].
  destruct (subject_of w (cl_element c)) as [es|] eqn:Hes; [|eauto].
  destruct (isinstance (w_store w) cs Comment) eqn:Ecs; [eauto|].
  unfold pyassert. destruct (isinstance (w_store w) es Comment) eqn:Ees; [eauto|].
  exfalso. repeat (case_match; simplify_eq/=).
  destruct (is_item w ct CommentItem) eqn:Ict,
           (is_item w (cl_element c) CommentItem) eqn:Iel; simplify_eq/=.
  - by rewrite (Htyped _ _ Ict Hcs) in Ecs.
  - by rewrite (Htyped _ _ Iel Hes) in Ees.
Qed.

(** C9. Two different items showing the same subject: [allow] refuses
    them only when that subject is [None] (the test at connectors.py:39-45
    is [not connected_to.subject and not element.subject]), and two
    items sharing a real subject pass on to the comment-item test, against
    the docstring's "same goes for subjects". *)
Theorem allow_same_subject c h p w oh ct :
  opposite (cl_line c) h = Ok oh -> get_connected w oh = Some ct -> ct <> cl_element c ->
  subject_of w ct = subject_of w (cl_element c) ->
  allow c h p w = Ok (bool_decide (subject_of w ct <> None) &&
                      xorb (is_item w ct CommentItem) (is_item w (cl_element c) CommentItem)).
Proof.
  intros Ho Hct Hne Hs. unfold allow. rewrite Ho; simpl.
  unfold subject_of_opt. rewrite Hct; simpl. rewrite decide_False by congruence.
  rewrite Hs. destruct (subject_of w (cl_element c)); simpl; [|done].
  by destruct (xorb _ _).
Qed.

(** ** disconnect *)

(** C2. While a second comment line joins the two subjects, [disconnect]
    keeps the link (connectors.py:74-75). *)
Theorem disconnect_keeps_shared_link c h w oh o es os l' :
  opposite (cl_line c) h = Ok oh -> get_connected w oh = Some o ->
  subject_of w (cl_element c) = Some es -> subject_of w o = Some os ->
  is_item w (cl_line c) CommentLineItem = true ->
  docked w (cl_line c) es -> docked w (cl_line c) os ->
  l' <> cl_line c -> is_item w l' CommentLineItem = true ->
  docked w l' es -> docked w l' os ->
  disconnect c h w = Ok w.
Proof.
  intros Ho Ho' Hes Hos Hl Hd1 Hd2 Hne Hl' Hd1' Hd2'.
  unfold disconnect. rewrite Ho; simpl. unfold subject_of_opt. rewrite Ho', Hes; simpl.
  rewrite Hos. rewrite decide_True; [done|].
  apply (shared_lines_size _ _ (cl_line c) l'); [done| | | |];
    apply elem_of_list_to_set, elem_of_all_comment_line_items; auto.
Qed.

(** The unlinking step removes an existing link in both directions. *)
Lemma unlink_subjects_ok st es os :
  store_wf st -> comment_link st os es ->
  isinstance st os Comment = true \/ isinstance st es Comment = true ->
  exists st', unlink_subjects st es os = Ok st' /\ ~ comment_link st' os es /\ store_wf st'.
Proof.
  intros Hwf Hlink Hcomm. pose proof Hwf as [Hc%wf_annotated Hnd].
  unfold unlink_subjects, comment_link in *.
  destruct (isinstance st os Comment) eqn:Eos;
    [|destruct Hcomm as [?|Ees]; [done|]; unfold pyassert; rewrite Ees; simpl];
    destruct Hlink as [Hin _]; unfold assoc_del at 1; rewrite decide_True by done;
    (edestruct (assoc_del_invariant Comment_annotatedElement annotatedElement_name_ne)
      as (Hc' & Hnd' & Hno & _);
      [exact Hc|exact Hnd|unfold assoc_del; by rewrite decide_True|]);
    eexists; (split_and!; [done| |eapply store_wf_assoc_del;
      [apply annotatedElement_declared|exact Hwf|unfold assoc_del; by rewrite decide_True]]);
    rewrite isinstance_put_ref, isinstance_put_ref, Eos; intros [? _]; done.
Qed.

(** Deleting a link that is not there raises [ValueError]. *)
Lemma unlink_subjects_missing st es os :
  store_wf st -> ~ comment_link st os es ->
  isinstance st os Comment = true \/ isinstance st es Comment = true ->
  unlink_subjects st es os = Raise ValueError.
Proof.
  intros [Hc%wf_annotated _] Hno Hcomm. unfold unlink_subjects, comment_link, annotates in *.
  destruct (isinstance st os Comment) eqn:Eos.
  - apply (assoc_del_raises _ annotatedElement_name_ne). intros Hin. apply Hno.
    split; [done|]. by apply (Hc _ _).
  - destruct Hcomm as [Hos|Ees]; [congruence|]. unfold pyassert. rewrite Ees. simpl.
    apply (assoc_del_raises _ annotatedElement_name_ne). intros Hin. apply Hno.
    split; [done|]. by apply (Hc _ _).
Qed.

(** [disconnect] of the only comment line joining the two subjects:
    the fan-in guard of connectors.py:74-75 does not return early, and
    the result is that of the unlinking. *)
Lemma disconnect_last c h w oh o es os :
  opposite (cl_line c) h = Ok oh -> get_connected w oh = Some o ->
  subject_of w (cl_element c) = Some es -> subject_of w o = Some os ->
  (forall l, is_item w l CommentLineItem = true -> docked w l es -> docked w l os ->
     l = cl_line c) ->
  disconnect c h w = (st' <- unlink_subjects (w_store w) es os ;; Ok (set_store st' w)).
Proof.
  intros Ho Ho' Hes Hos Honly.
  unfold disconnect. rewrite Ho; simpl. unfold subject_of_opt.
  rewrite Ho', Hes; simpl. rewrite Hos. rewrite decide_False; [done|].
  apply (single_line_size _ _ (cl_line c)). intros l
    [? ?]%elem_of_list_to_set%elem_of_all_comment_line_items
    [? ?]%elem_of_list_to_set%elem_of_all_comment_line_items. auto.
Qed.

(** C3. The last comment line joining the two subjects removes the link, in
    both directions, and leaves a well-formed store. *)
Theorem disconnect_removes_last_link c h w oh o es os :
  store_wf (w_store w) ->
  opposite (cl_line c) h = Ok oh -> get_connected w oh = Some o ->
  subject_of w (cl_element c) = Some es -> subject_of w o = Some os ->
  isinstance (w_store w) os Comment = true \/ isinstance (w_store w) es Comment = true ->
  (forall l, is_item w l CommentLineItem = true -> docked w l es -> docked w l os ->
     l = cl_line c) ->
  comment_link (w_store w) os es ->
  exists w', disconnect c h w = Ok w' /\ ~ comment_link (w_store w') os es /\
    store_wf (w_store w').
Proof.
  intros Hwf Ho Ho' Hes Hos Hcomm Honly Hlink.
  rewrite (disconnect_last c h w oh o es os Ho Ho' Hes Hos Honly).
  destruct (unlink_subjects_ok _ _ _ Hwf Hlink Hcomm) as (st' & -> & ? & ?).
  by eexists.
Qed.

(** C7. [disconnect] of the last line over a missing link raises: the
    specification asks for such stale state to be tolerated (section 7). *)
Theorem disconnect_missing_link_raises c h w oh o es os :
  store_wf (w_store w) ->
  opposite (cl_line c) h = Ok oh -> get_connected w oh = Some o ->
  subject_of w (cl_element c) = Some es -> subject_of w o = Some os ->
  isinstance (w_store w) os Comment = true \/ isinstance (w_store w) es Comment = true ->
  (forall l, is_item w l CommentLineItem = true -> docked w l es -> docked w l os ->
     l = cl_line c) ->
  ~ comment_link (w_store w) os es ->
  disconnect c h w = Raise ValueError.
Proof.
  intros Hwf Ho Ho' Hes Hos Hcomm Honly Hlink.
  rewrite (disconnect_last c h w oh o es os Ho Ho' Hes Hos Honly).
  by rewrite unlink_subjects_missing.
Qed.

End CommentLine.
