(* ===== verification/Registry.v ===== *)
(** * Registry: [Connector.register] and [Connector(target, line)]

    connectors.py registers [CommentLinePresentationConnect] for three
    (target, line) class pairs and [InverseCommentLineLineConnect] for
    one; [uml_registrations] adds, from the specification, the
    realization and dependency connectors on any element item and the
    assembly connector on component and interface items. The resolution
    rule is the specification's (section 4.1; the multiple-dispatch
    library is outside src/): among the registered pairs whose classes
    are superclasses of the runtime classes, the one more specific than
    all others in both positions; none means no connector, two with no
    most specific one is a tie, which the specification requires to be
    refused when registering.

    [dispatch] builds the connector for two items of a world as an
    [AnyConnector], whose laws are those of each connector; the editor's
    gestures of [Protocol] are instantiated with it, and [step] follows a
    gesture with the recomputation of the folds its line touched.

    The theorems: a comment line's second handle dropped through the
    editor links the two subjects, and taking off the only line joining
    them unlinks them; a line dropped on a comment line raises
    [KeyError] through the inverse connector; along any sequence of
    gestures every owner of an [annotatedElement] link stays a
    [Comment] (the [ConnectorTyped] instances of the connectors
    combined in [AnyConnector]). The lemmas: connectors.py ties at one
    pair; the world stays well formed along any run; the local
    recomputation of folds equals the global one. *)

From stdpp Require Import base list gmap strings sets.
From S2P Require Import Prelude Model Items Folding Protocol Relationship Assembly CommentLine.
Set Warnings "-clear-no-such-hyp".

Module Registry.
Import CoreModel Items Folding Protocol Relationship Assembly CommentLine.

(** The connector classes a registration names. *)
Inductive ConnectorClass :=
  | CommentLinePresentationConnect_cls
  | InverseCommentLineLineConnect_cls
  | InterfaceRealizationConnect_cls
  | DependencyConnect_cls
  | AssemblyConnect_cls.

#[export] Instance ConnectorClass_eq_dec : EqDecision ConnectorClass.
Proof. solve_decision. Defined.

Definition registration : Type := (IClass * IClass * ConnectorClass)%type.

(** connectors.py:15-17 and 95, in the order the decorators run
    (innermost first). *)
Definition registrations : list registration :=
  [(LinePresentation, CommentLineItem, CommentLinePresentationConnect_cls);
   (ElementPresentation, CommentLineItem, CommentLinePresentationConnect_cls);
   (CommentItem, CommentLineItem, CommentLinePresentationConnect_cls);
   (CommentLineItem, LinePresentation, InverseCommentLineLineConnect_cls)].

(** The registrations of the connectors of the interface items, outside
    src/ (gaphor.UML.classes and gaphor.UML.components), from the
    specification: a realization or a dependency on any element item, a
    connector line on a component or an interface item. *)
Definition uml_registrations : list registration :=
  [(ElementPresentation, InterfaceRealizationItem, InterfaceRealizationConnect_cls);
   (ElementPresentation, DependencyItem, DependencyConnect_cls);
   (ComponentItem, ConnectorItem, AssemblyConnect_cls);
   (InterfaceItem, ConnectorItem, AssemblyConnect_cls)].

Definition all_registrations : list registration := registrations ++ uml_registrations.

Definition applicable (t l : IClass) (r : registration) : bool :=
  isubclass t r.1.1 && isubclass l r.1.2.

(** [r] is at least as specific as [r'] in both positions. *)
Definition more_specific (r r' : registration) : bool :=
  isubclass r.1.1 r'.1.1 && isubclass r.1.2 r'.1.2.

Definition candidates (regs : list registration) (t l : IClass) : list registration :=
  filter (fun r => applicable t l r = true) regs.

Definition most_specific (regs : list registration) (t l : IClass) : list registration :=
  let cs := candidates regs t l in
  filter (fun r => forallb (more_specific r) cs = true) cs.

Definition resolve (regs : list registration) (t l : IClass) : option ConnectorClass :=
  snd <$> head (most_specific regs t l).

(** A tie: registrations apply, none of them is the most specific. *)
Definition ambiguous (regs : list registration) (t l : IClass) : bool :=
  negb (bool_decide (candidates regs t l = [])) &&
  bool_decide (most_specific regs t l = []).

Definition all_iclasses : list IClass :=
  [Presentation; ElementPresentation; LinePresentation; CommentItem; CommentLineItem;
   ClassItem; InterfaceItem; ComponentItem; DependencyItem; InterfaceRealizationItem;
   ConnectorItem].

(** The check the specification asks of registration: no tie for any
    pair of classes. *)
Definition registry_ok (regs : list registration) : bool :=
  forallb (fun t => forallb (fun l => negb (ambiguous regs t l)) all_iclasses) all_iclasses.

(** ** Connectors of a world *)

(** The connectors the registry can return. *)
Inductive AnyConnector :=
  | ACommentLine (c : CommentLinePresentationConnect)
  | ARelationship (c : RelationshipConnect)
  | AAssembly (c : AssemblyConnect).

(** [cls(target, line)]. *)
Definition instantiate (k : ConnectorClass) (target line : nat) : AnyConnector :=
  match k with
  | CommentLinePresentationConnect_cls =>
      ACommentLine (mkCommentLinePresentationConnect target line)
  | InverseCommentLineLineConnect_cls =>
      ACommentLine (InverseCommentLineLineConnect target line)
  | InterfaceRealizationConnect_cls => ARelationship (mkRelationshipConnect RealizationRel target line)
  | DependencyConnect_cls => ARelationship (mkRelationshipConnect DependencyRel target line)
  | AssemblyConnect_cls => AAssembly (mkAssemblyConnect target line)
  end.

Definition item_class (w : world) (i : nat) : option IClass := it_class <$> item_of w i.

(** [Connector(target, line)] for two items of the world. *)
Definition dispatch (w : world) (target line : nat) : option AnyConnector :=
  item_class w target ≫= fun t =>
  item_class w line ≫= fun l =>
  (fun k => instantiate k target line) <$> resolve all_registrations t l.

#[export] Instance AnyConnector_connector : Connector AnyConnector := {
  Protocol.element c := match c with
    | ACommentLine c => Protocol.element c | ARelationship c => Protocol.element c
    | AAssembly c => Protocol.element c end;
  Protocol.line c := match c with
    | ACommentLine c => Protocol.line c | ARelationship c => Protocol.line c
    | AAssembly c => Protocol.line c end;
  Protocol.allow c := match c with
    | ACommentLine c => Protocol.allow c | ARelationship c => Protocol.allow c
    | AAssembly c => Protocol.allow c end;
  Protocol.connect c := match c with
    | ACommentLine c => Protocol.connect c | ARelationship c => Protocol.connect c
    | AAssembly c => Protocol.connect c end;
  Protocol.disconnect c := match c with
    | ACommentLine c => Protocol.disconnect c | ARelationship c => Protocol.disconnect c
    | AAssembly c => Protocol.disconnect c end
}.

#[export] Instance AnyConnector_laws : ConnectorLaws AnyConnector.
Proof.
  split; intros [c|c|c];
    first [exact (connect_frame c) | exact (disconnect_frame c)
          | exact (connect_store_wf c) | exact (disconnect_store_wf c)].
Qed.

#[export] Instance AnyConnector_typed : ConnectorTyped AnyConnector.
Proof.
  split; intros [c|c|c];
    first [exact (connect_typed c) | exact (disconnect_typed c)].
Qed.

(** ** The editor *)

Definition editor_connect : handle -> nat -> nat -> world -> result (bool * world) :=
  connect_gesture dispatch.

Definition editor_disconnect : handle -> world -> result world :=
  disconnect_gesture dispatch.

(** One user gesture: drop a handle on a port of an item, or take it off. *)
Inductive gesture :=
  | GConnect (h : handle) (target port : nat)
  | GDisconnect (h : handle).

Definition gesture_line (g : gesture) : nat :=
  match g with GConnect h _ _ | GDisconnect h => h.1 end.

Definition apply_gesture (g : gesture) (w : world) : result world :=
  match g with
  | GConnect h t p => r <- editor_connect h t p w ;; Ok r.2
  | GDisconnect h => editor_disconnect h w
  end.

(** One gesture, then the recomputation of the folds it touches
    (section 4.4). *)
Definition step (g : gesture) (w : world) : result world :=
  w1 <- apply_gesture g w ;; Ok (refold_line (gesture_line g) w w1).

Fixpoint run (gs : list gesture) (w : world) : result world :=
  match gs with
  | [] => Ok w
  | g :: gs' => w1 <- step g w ;; run gs' w1
  end.

(** ** Theorems *)

(** The registrations of connectors.py tie at exactly one pair of
    classes: a comment line docked to a comment line matches both
    (LinePresentation, CommentLineItem) and (CommentLineItem,
    LinePresentation), and neither is more specific. *)
Theorem registrations_tie t l :
  ambiguous registrations t l = true <-> t = CommentLineItem /\ l = CommentLineItem.
Proof. destruct t, l; vm_compute; naive_solver. Qed.

(** Line-like presentation classes. *)
Definition line_like (c : IClass) : bool := isubclass c LinePresentation.

Lemma world_wf_refold_line l w w' : world_wf w' -> world_wf (refold_line l w w').
Proof.
  intros (Hu & Hp & Hs). unfold refold_line.
  pose proof (conns_frame_refold_all (touched l w w') w') as Hf.
  destruct (refold_all_store_conns (touched l w w') w') as [Hst _].
  split_and!; [by eapply conns_frame_conns_unique|by eapply conns_frame_conns_placed|by rewrite Hst].
Qed.

(** A gesture before the recomputation: a well-formed world, and a frame
    for the gesture's line. *)
Lemma gesture_frame g w w1 :
  world_wf w -> apply_gesture g w = Ok w1 ->
  world_wf w1 /\ line_frame (gesture_line g) w w1.
Proof.
  destruct g as [h t p|h]; simpl; intros Hwf Hs.
  - unfold_result Hs. destruct a as [b w2]. simplify_eq/=.
    split; [by eapply (connect_gesture_wf dispatch)|by eapply (connect_gesture_line_frame dispatch)].
  - split; [by eapply (disconnect_gesture_wf dispatch)|by eapply (disconnect_gesture_line_frame dispatch)].
Qed.

Lemma step_cases g w w' :
  step g w = Ok w' ->
  exists w1, apply_gesture g w = Ok w1 /\ w' = refold_line (gesture_line g) w w1.
Proof. unfold step. intros Hs. unfold_result Hs. simplify_eq. eauto. Qed.

Lemma step_wf g w w' : world_wf w -> step g w = Ok w' -> world_wf w'.
Proof.
  intros Hwf (w1 & Hg & ->)%step_cases.
  apply world_wf_refold_line. by apply (gesture_frame g w w1).
Qed.

(** A step keeps every interface item in the fold its lines determine. *)
Lemma step_folds g w w' :
  world_wf w -> fold_consistent w -> step g w = Ok w' -> fold_consistent w'.
Proof.
  intros Hwf Hc (w1 & Hg & ->)%step_cases.
  destruct (gesture_frame g w w1 Hwf Hg) as [(Hu1 & Hp1 & _) Hf].
  destruct Hwf as (Hu & Hp & _).
  by apply refold_line_consistent.
Qed.

(** Along any sequence of gestures the world keeps one connection record
    per handle and a consistent, duplicate-free element store. *)
Theorem run_preserves_wf gs w w' :
  world_wf w -> run gs w = Ok w' -> world_wf w'.
Proof.
  revert w. induction gs as [|g gs IH]; intros w Hwf Hr; simpl in Hr; [by simplify_eq|].
  unfold_result Hr. eauto using step_wf.
Qed.

(** The editor's recomputation after a gesture, of the interface items
    the gesture's line was and is docked to, gives the same world as
    recomputing the fold of every item. *)
Theorem step_refolds_everything g w w' :
  world_wf w -> fold_consistent w -> step g w = Ok w' ->
  exists w1, apply_gesture g w = Ok w1 /\ w' = refold_everything w1.
Proof.
  intros Hwf Hc (w1 & Hg & ->)%step_cases. exists w1. split; [done|].
  destruct (gesture_frame g w w1 Hwf Hg) as [(Hu1 & Hp1 & _) Hf].
  destruct Hwf as (Hu & Hp & _). by apply refold_line_everything.
Qed.

Lemma run_wf_folds gs w w' :
  world_wf w -> fold_consistent w -> run gs w = Ok w' ->
  world_wf w' /\ fold_consistent w'.
Proof.
  revert w. induction gs as [|g gs IH]; intros w Hwf Hc Hr; simpl in Hr; [by simplify_eq|].
  unfold_result Hr. eauto using step_wf, step_folds.
Qed.

Lemma step_typed g w w' :
  annotations_typed (w_store w) -> step g w = Ok w' -> annotations_typed (w_store w').
Proof.
  intros Ht (w1 & Hg & ->)%step_cases. unfold refold_line.
  rewrite (proj1 (refold_all_store_conns _ w1)).
  destruct g as [h t p|h]; simpl in Hg.
  - unfold_result Hg. destruct a as [b w2]. simplify_eq/=.
    by eapply (connect_gesture_typed dispatch).
  - by eapply (disconnect_gesture_typed dispatch).
Qed.

Lemma run_wf_typed gs w w' :
  world_wf w -> annotations_typed (w_store w) -> run gs w = Ok w' ->
  world_wf w' /\ annotations_typed (w_store w').
Proof.
  revert w. induction gs as [|g gs IH]; intros w Hwf Ht Hr; simpl in Hr; [by simplify_eq|].
  unfold_result Hr. eauto using step_wf, step_typed.
Qed.

(** C8. [Comment.annotatedElement] is declared on [Comment]: along any
    sequence of gestures, through every registered connector, every
    element that owns an [annotatedElement] link is a comment, and so is
    every element an [Element.comment] link points to. The assert of
    [CommentLinePresentationConnect.connect] is what keeps it. *)
Theorem run_keeps_annotation_types gs w w' :
  world_wf w -> annotations_typed (w_store w) -> run gs w = Ok w' ->
  annotations_typed (w_store w') /\
  (forall e c, c ∈ get_ref (w_store w') e (assoc_opposite Comment_annotatedElement) ->
     isinstance (w_store w') c Comment = true).
Proof.
  intros Hwf Ht Hr. destruct (run_wf_typed gs w w' Hwf Ht Hr) as [(_ & _ & [Hc _]) Ht'].
  split; [done|]. intros e c He. apply (Ht' c e), (wf_annotated _ Hc), He.
Qed.

(** ** Comment lines through the editor *)

(** What the registry gives a comment line on a presentation that is not
    itself a comment line, and a line other than a comment line on a
    comment line. *)
Lemma resolve_comment_line tc :
  tc <> Presentation -> tc <> CommentLineItem ->
  resolve all_registrations tc CommentLineItem = Some CommentLinePresentationConnect_cls.
Proof. destruct tc; intros H1 H2; vm_compute; congruence. Qed.

Lemma resolve_inverse lc :
  line_like lc = true -> lc <> CommentLineItem ->
  resolve all_registrations CommentLineItem lc = Some InverseCommentLineLineConnect_cls.
Proof. destruct lc; intros H1 H2; vm_compute in H1 |- *; congruence. Qed.

Lemma dispatch_comment_line w t l tc :
  item_class w t = Some tc -> item_class w l = Some CommentLineItem ->
  tc <> Presentation -> tc <> CommentLineItem ->
  dispatch w t l = Some (ACommentLine (mkCommentLinePresentationConnect t l)).
Proof. intros Ht Hl ??. unfold dispatch. rewrite Ht, Hl; simpl. by rewrite resolve_comment_line. Qed.

Lemma dispatch_inverse w t l lc :
  item_class w t = Some CommentLineItem -> item_class w l = Some lc ->
  line_like lc = true -> lc <> CommentLineItem ->
  dispatch w t l = Some (ACommentLine (InverseCommentLineLineConnect t l)).
Proof. intros Ht Hl ??. unfold dispatch. rewrite Ht, Hl; simpl. by rewrite resolve_inverse. Qed.

(** C1. Through the editor: a free handle of a comment line dropped on an
    item showing [es], while the other handle is docked to an item
    showing [cs]; when the gesture succeeds and leaves the handle docked,
    the two subjects are linked, the comment of the two annotating the
    other (connectors.py:55-64 reached through the registrations of
    lines 15-17). *)
Theorem step_links_comment_line w l e t p tc ct cs es w' :
  world_wf w ->
  item_class w l = Some CommentLineItem -> item_class w t = Some tc ->
  tc <> Presentation -> tc <> CommentLineItem ->
  get_connection w (l, e) = None -> get_connected w (l, other_end e) = Some ct ->
  subject_of w ct = Some cs -> subject_of w t = Some es ->
  step (GConnect (l, e) t p) w = Ok w' -> get_connected w' (l, e) = Some t ->
  comment_link (w_store w') cs es.
Proof.
  intros (_ & _ & [Hc%wf_annotated _]) Hl Ht Htc1 Htc2 Hfree Hct Hcs Hes
    (w1 & Hg & ->)%step_cases Hdock.
  unfold refold_line in *. rewrite (proj1 (refold_all_store_conns _ w1)).
  unfold get_connected in Hdock.
  rewrite (conns_frame_get_connection _ _ _ (conns_frame_refold_all _ w1)) in Hdock.
  cbn [apply_gesture] in Hg. unfold editor_connect, connect_gesture in Hg.
  rewrite Hfree in Hg. unfold connect_new in Hg.
  cbn [fst] in Hg. rewrite (dispatch_comment_line w t l tc) in Hg by done.
  assert (Hhe : (l, e) <> (l, other_end e)) by (destruct e; done).
  destruct (port_connectable w t p); [|simplify_eq/=; by rewrite Hfree in Hdock].
  destruct (Protocol.allow _ (l, e) p w) as [[|]|]; simpl in Hg;
    [|simplify_eq/=; by rewrite Hfree in Hdock|discriminate].
  unfold disconnect_gesture in Hg. rewrite Hfree, bind_Ok in Hg.
  rewrite (connect_docked _ _ _ _ (l, other_end e) ct cs es) in Hg; cycle 1.
  - unfold opposite. simpl. rewrite decide_True by done. by destruct e.
  - unfold get_connected. by rewrite get_connection_record_ne.
  - unfold subject_of, record_connection in *. by rewrite item_of_put_conns.
  - unfold subject_of, record_connection in *. by rewrite item_of_put_conns.
  - unfold record_connection in Hg. rewrite w_store_put_conns in Hg.
    pose proof (comment_link_connect (w_store w) cs es Hc) as Hl'.
    destruct (isinstance (w_store w) cs Comment) eqn:Ecs,
      (isinstance (w_store w) es Comment) eqn:Ees; simpl in Hg; simplify_eq/=;
      rewrite ?w_store_set_store; auto.
Qed.

(** C11. Through the editor: taking off a handle of the only comment line
    that joins [es] and [os], docked at both ends over an existing link,
    succeeds, removes the link in both directions and the handle's
    record (connectors.py:66-84 reached through the registrations). *)
Theorem step_unlinks_last_comment_line w l e t tc o es os :
  world_wf w ->
  item_class w l = Some CommentLineItem -> item_class w t = Some tc ->
  tc <> Presentation -> tc <> CommentLineItem ->
  get_connected w (l, e) = Some t -> get_connected w (l, other_end e) = Some o ->
  subject_of w t = Some es -> subject_of w o = Some os ->
  isinstance (w_store w) os Comment = true \/ isinstance (w_store w) es Comment = true ->
  (forall l', is_item w l' CommentLineItem = true -> docked w l' es -> docked w l' os -> l' = l) ->
  comment_link (w_store w) os es ->
  exists w', step (GDisconnect (l, e)) w = Ok w' /\
    ~ comment_link (w_store w') os es /\ get_connection w' (l, e) = None.
Proof.
  intros (_ & _ & Hwf) Hl Ht Htc1 Htc2 Hlt Hlo Hes Hos Hcomm Honly Hlink.
  unfold get_connected in Hlt. destruct (get_connection w (l, e)) as [ci|] eqn:Hci;
    simplify_eq/=.
  destruct (unlink_subjects_ok _ _ _ Hwf Hlink Hcomm) as (st' & Hu & Hno & _).
  unfold step, apply_gesture, editor_disconnect, disconnect_gesture. rewrite Hci.
  cbn [fst]. rewrite (dispatch_comment_line w _ l tc) by done.
  change (Protocol.disconnect (ACommentLine ?c) ?h ?w) with (CommentLine.disconnect c h w).
  rewrite (disconnect_last _ _ _ (l, other_end e) o es os); simpl; try done.
  - rewrite Hu. simpl. eexists; split; [done|]. unfold refold_line.
    destruct (refold_all_store_conns (touched l w (remove_connection (l, e) (set_store st' w)))
      (remove_connection (l, e) (set_store st' w))) as [Hst _].
    split.
    + rewrite Hst. unfold remove_connection. by rewrite w_store_put_conns.
    + rewrite (conns_frame_get_connection _ _ _ (conns_frame_refold_all _ _)).
      apply get_connection_remove.
  - unfold opposite. simpl. rewrite decide_True by done. by destruct e.
Qed.

(** C10. A line other than a comment line, dropped on a comment line,
    gets [InverseCommentLineLineConnect], whose constructor swaps its
    arguments (connectors.py:100-101): its [line] is the comment line,
    which the dropped handle does not belong to, so [allow] asks
    [Line.opposite] for a foreign handle and the gesture raises
    [KeyError] whenever the port is free to take it. *)
Theorem step_inverse_raises w t l e p lc :
  item_class w t = Some CommentLineItem -> item_class w l = Some lc ->
  line_like lc = true -> lc <> CommentLineItem ->
  get_connection w (l, e) = None -> port_connectable w t p = true ->
  step (GConnect (l, e) t p) w = Raise KeyError.
Proof.
  intros Ht Hl Hlc Hne Hfree Hp.
  assert (l <> t) by (intros ->; congruence).
  unfold step, apply_gesture, editor_connect, connect_gesture. rewrite Hfree.
  unfold connect_new. cbn [fst]. rewrite (dispatch_inverse w t l lc), Hp by done.
  assert (Ha : CommentLine.allow (InverseCommentLineLineConnect t l) (l, e) p w = Raise KeyError).
  { unfold CommentLine.allow, opposite. simpl. by rewrite decide_False. }
  change (Protocol.allow (ACommentLine ?c) ?h ?p ?w) with (CommentLine.allow c h p w).
  by rewrite Ha.
Qed.

End Registry.
