(* ===== verification/Styling.v ===== *)
(** * Styling: gaphor/core/styling/__init__.py

    The style cascade: [parse_style_sheet] turns the rules of a style
    sheet into (selector, declarations) pairs, or an error per rule that
    does not parse; [CompiledStyleSheet] numbers them in order and drops
    the errors; [match] keeps the selectors that match an element, sorts
    them by (specificity, order) and merges their declarations, later
    ones winning ([merge_styles]). The CSS tokenizer (tinycss2), the
    selector compiler and the declaration parser are outside src/: they
    are the section's parameters ([compile_selector_list],
    [StyleDeclarations]), a parsed rule is given as its prelude and its
    (property, raw value) list, and a selector as its predicate and its
    specificity.

    The theorems: [merge_styles] yields, for each property, the value of
    the last style that sets it; a compiled sheet keeps one entry per
    parsed selector, numbered by position, in increasing order; [match]
    implements the cascade, the value of a property being the one of the
    matching selector with the greatest (specificity, order) that sets
    it. *)

From stdpp Require Import base list gmap strings sets sorting.
From S2P Require Import Prelude.
Set Warnings "-clear-no-such-hyp".

Module Styling.

(** A selector's specificity: (ids, classes, elements). *)
Definition specificity : Type := (nat * nat * nat)%type.

Section Styling.
Context {Elem Decl : Type}.

Local Abbreviation style := (gmap string Decl).

(** What [parse_style_sheet] yields: a selector with its declarations,
    or an error. *)
Inductive parsed :=
  | ParsedSelector (pred : Elem -> bool) (spec : specificity) (declaration : style)
  | ParsedError.

(** styling/__init__.py:16-20 *)
Definition merge_styles (styles : list style) : style :=
  foldl (fun acc s => s ∪ acc) ∅ styles.

(** An entry of [CompiledStyleSheet.selectors]. *)
Record entry := mkEntry {
  sel_pred : Elem -> bool;
  sel_spec : specificity;
  sel_order : nat;
  sel_decl : style
}.

(** styling/__init__.py:25-29: [enumerate] from [order], errors
    dropped. *)
Fixpoint compile_from (order : nat) (ps : list parsed) : list entry :=
  match ps with
  | [] => []
  | ParsedSelector pred spec decl :: ps' =>
      mkEntry pred spec order decl :: compile_from (S order) ps'
  | ParsedError :: ps' => compile_from (S order) ps'
  end.

(** The sort key [(specificity, order)], compared lexicographically. *)
Definition sort_key (t : specificity * nat * style) : list nat :=
  let '((a, b, c), o, _) := t in [a; b; c; o].

Fixpoint lex_leb (xs ys : list nat) : bool :=
  match xs, ys with
  | [], _ => true
  | _ :: _, [] => false
  | x :: xs', y :: ys' => (x <? y) || ((x =? y) && lex_leb xs' ys')
  end.

Definition key_le (t u : specificity * nat * style) : Prop :=
  lex_leb (sort_key t) (sort_key u) = true.

#[local] Instance key_le_dec : RelDecision key_le.
Proof. intros t u. unfold key_le. apply _. Defined.

(** styling/__init__.py:31-40 *)
Definition match_ (sheet : list entry) (element : Elem) : style :=
  let results := merge_sort key_le
    ((fun e => (sel_spec e, sel_order e, sel_decl e)) <$>
       filter (fun e => sel_pred e element = true) sheet) in
  merge_styles ((fun t : specificity * nat * style => t.2) <$> results).

(** ** merge_styles *)

Lemma merge_styles_snoc ds d : merge_styles (ds ++ [d]) = d ∪ merge_styles ds.
Proof. unfold merge_styles. by rewrite foldl_app. Qed.

Lemma merge_styles_lookup_last ds k :
  merge_styles ds !! k = last (omap (fun s : style => s !! k) ds).
Proof.
  induction ds as [|d ds IH] using rev_ind; [unfold merge_styles; simpl; by rewrite lookup_empty|].
  rewrite merge_styles_snoc, lookup_union, omap_app, IH. simpl.
  destruct (d !! k); simpl; [rewrite last_snoc|rewrite app_nil_r];
    by destruct (last _).
Qed.

(** C13. Each property takes the value of the last style that sets it. *)
Theorem merge_styles_lookup ds k v :
  merge_styles ds !! k = Some v <->
  exists i d, ds !! i = Some d /\ d !! k = Some v /\
    forall j d', i < j -> ds !! j = Some d' -> d' !! k = None.
Proof.
  rewrite merge_styles_lookup_last, last_omap_Some. split.
  - intros (l1 & d & l2 & -> & Hd & Hn). exists (length l1), d.
    split_and!; [by rewrite list_lookup_middle|done|].
    intros j d' Hj Hj'. rewrite Forall_forall in Hn. apply Hn.
    rewrite lookup_app_r in Hj' by lia.
    destruct (j - length l1) as [|m] eqn:E; [lia|]. simpl in Hj'.
    by apply list_elem_of_lookup_2 in Hj'.
  - intros (i & d & Hi & Hd & Hn).
    destruct (list_elem_of_split_length ds i d Hi) as (l1 & l2 & -> & Hl).
    exists l1, d, l2. split_and!; [done|done|]. apply Forall_forall.
    intros d' (m & Hm)%list_elem_of_lookup. apply (Hn (S m + length l1)); [lia|].
    rewrite lookup_app_r by lia. by replace (S m + length l1 - length l1) with (S m) by lia.
Qed.

(** ** Compiled sheets *)

Lemma compile_from_orders n ps :
  Forall (fun e => n <= sel_order e < n + length ps) (compile_from n ps) /\
  StronglySorted (fun e e' => sel_order e < sel_order e') (compile_from n ps).
Proof.
  revert n. induction ps as [|[pred spec decl|] ps IH]; intros n; simpl.
  - split; constructor.
  - destruct (IH (S n)) as [Hb Hs]. split.
    + constructor; [simpl; lia|]. eapply Forall_impl; [exact Hb|]. simpl; lia.
    + constructor; [done|]. eapply Forall_impl; [exact Hb|]. simpl; lia.
  - destruct (IH (S n)) as [Hb Hs]. split; [|done].
    eapply Forall_impl; [exact Hb|]. simpl; lia.
Qed.
(** ** The sort order *)

Lemma lex_leb_refl xs : lex_leb xs xs = true.
Proof. induction xs as [|x xs IH]; simpl; [done|]. rewrite Nat.eqb_refl, IH. lia. Qed.

Lemma lex_leb_trans xs ys zs :
  lex_leb xs ys = true -> lex_leb ys zs = true -> lex_leb xs zs = true.
Proof.
  revert ys zs. induction xs as [|x xs IH]; intros [|y ys] [|z zs]; simpl; try done.
  rewrite !orb_true_iff, !andb_true_iff, !Nat.ltb_lt, !Nat.eqb_eq.
  intros [?|[-> ?]] [?|[-> ?]]; eauto with lia.
Qed.

Lemma lex_leb_total xs ys :
  length xs = length ys -> lex_leb xs ys = true \/ lex_leb ys xs = true.
Proof.
  revert ys. induction xs as [|x xs IH]; intros [|y ys] Hl; simpl in *;
    [by left|discriminate|discriminate|].
  rewrite !orb_true_iff, !andb_true_iff, !Nat.ltb_lt, !Nat.eqb_eq.
  destruct (Nat.lt_trichotomy x y) as [?|[->|?]]; [auto| |auto].
  destruct (IH ys) as [?|?]; auto.
Qed.

Lemma lex_leb_antisym xs ys :
  length xs = length ys -> lex_leb xs ys = true -> lex_leb ys xs = true -> xs = ys.
Proof.
  revert ys. induction xs as [|x xs IH]; intros [|y ys] Hl; simpl in *;
    [done|discriminate|discriminate|].
  rewrite !orb_true_iff, !andb_true_iff, !Nat.ltb_lt, !Nat.eqb_eq.
  intros [?|[? ?]] [?|[? ?]]; try lia. subst. f_equal. auto.
Qed.

Lemma length_sort_key t : length (sort_key t) = 4.
Proof. by destruct t as [[[[a b] c] o] d]. Qed.

#[local] Instance key_le_total : Total key_le.
Proof. intros t u. apply lex_leb_total. by rewrite !length_sort_key. Qed.

#[local] Instance key_le_trans : Transitive key_le.
Proof. intros t u v. apply lex_leb_trans. Qed.

Lemma key_le_antisym t u : key_le t u -> key_le u t -> t.1.2 = u.1.2.
Proof.
  destruct t as [[[[a b] c] o] d], u as [[[[a' b'] c'] o'] d']. unfold key_le. simpl.
  intros H1 H2. pose proof (lex_leb_antisym [a; b; c; o] [a'; b'; c'; o'] eq_refl H1 H2).
  by simplify_eq.
Qed.

(** ** The cascade *)

Definition triple (e : entry) : specificity * nat * style :=
  (sel_spec e, sel_order e, sel_decl e).

(** Entry [e] is the matching selector that sets property [k] with the
    greatest (specificity, order). *)
Definition cascade_winner (sheet : list entry) (el : Elem) (k : string) (e : entry) : Prop :=
  e ∈ sheet /\ sel_pred e el = true /\ is_Some (sel_decl e !! k) /\
  forall e', e' ∈ sheet -> sel_pred e' el = true -> is_Some (sel_decl e' !! k) ->
    key_le (triple e') (triple e).

Lemma match_lookup sheet el k :
  match_ sheet el !! k =
  last (omap (fun t : specificity * nat * style => t.2 !! k)
    (merge_sort key_le (triple <$> filter (fun e => sel_pred e el = true) sheet))).
Proof. unfold match_. by rewrite merge_styles_lookup_last, omap_fmap. Qed.

Lemma elem_of_matching sheet el t :
  t ∈ merge_sort key_le (triple <$> filter (fun e => sel_pred e el = true) sheet) <->
  exists e, t = triple e /\ e ∈ sheet /\ sel_pred e el = true.
Proof.
  rewrite (merge_sort_Permutation key_le), list_elem_of_fmap.
  setoid_rewrite list_elem_of_filter. naive_solver.
Qed.

(** [match] computes the cascade: a property takes the value of the
    matching selector with the greatest (specificity, order) that sets
    it, when the orders are distinct (as [CompiledStyleSheet] numbers
    them). *)
Theorem match_cascade sheet el k v :
  NoDup (sel_order <$> sheet) ->
  match_ sheet el !! k = Some v <->
  exists e, cascade_winner sheet el k e /\ sel_decl e !! k = Some v.
Proof.
  intros Hnd. rewrite match_lookup, last_omap_Some.
  set (L := merge_sort key_le _).
  assert (Hsorted : StronglySorted key_le L)
    by (apply StronglySorted_merge_sort; apply _).
  assert (Hord : forall t u, t ∈ L -> u ∈ L -> t.1.2 = u.1.2 -> t = u).
  { intros t u (e & -> & ? & _)%elem_of_matching (e' & -> & ? & _)%elem_of_matching Ho.
    f_equal. eapply NoDup_fmap_inj_on; eauto. }
  split.
  - intros (l1 & t & l2 & HL & Ht & Hn).
    assert (t ∈ L) as (e & -> & He & Hp)%elem_of_matching by (rewrite HL; set_solver).
    exists e. unfold cascade_winner. split_and!; [done|done|exists v; exact Ht| |exact Ht].
    intros e' He' Hp' [v' Hv'].
    assert (Hin : triple e' ∈ L) by (apply elem_of_matching; eauto).
    rewrite HL in Hin, Hsorted. apply elem_of_app in Hin as [Hin|[<-|Hin]%elem_of_cons].
    + apply StronglySorted_app in Hsorted as (Hlr & _ & _). apply Hlr; set_solver.
    + apply lex_leb_refl.
    + rewrite Forall_forall in Hn. specialize (Hn _ Hin). simpl in Hn. congruence.
  - intros (e & (He & Hp & _ & Hmax) & Hv).
    assert (Hin : triple e ∈ L) by (apply elem_of_matching; eauto).
    destruct (list_elem_of_split _ _ Hin) as (l1 & l2 & HL).
    exists l1, (triple e), l2. split_and!; [done|done|].
    apply Forall_forall. intros u Hu. destruct (u.2 !! k) eqn:Hk; [|done].
    exfalso.
    assert (HuL : u ∈ L) by (rewrite HL; set_solver).
    destruct (proj1 (elem_of_matching _ _ _) HuL) as (e' & -> & He' & Hp').
    assert (Hle : key_le (triple e) (triple e')).
    { rewrite HL in Hsorted. apply StronglySorted_app in Hsorted as (_ & _ & Hs).
      inversion Hs as [|? ? _ Hf]. rewrite Forall_forall in Hf.
      by apply Hf. }
    pose proof (key_le_antisym _ _ Hle (Hmax e' He' Hp' ltac:(by eexists))) as Ho.
    rewrite <- (Hord _ _ Hin HuL Ho) in Hu.
    assert (HndL : NoDup L).
    { unfold L. rewrite (merge_sort_Permutation key_le). apply (NoDup_fmap_1 (fun t => t.1.2)).
      rewrite <- list_fmap_compose. apply NoDup_fmap_filter, Hnd. }
    rewrite HL in HndL. apply NoDup_app in HndL as (_ & _ & HndL).
    apply NoDup_cons in HndL as [Hnot _]. by apply Hnot.
Qed.
Lemma StronglySorted_lt_NoDup (l : list entry) :
  StronglySorted (fun e e' => sel_order e < sel_order e') l -> NoDup (sel_order <$> l).
Proof.
  induction 1 as [|e l _ IH Hf]; simpl; constructor; [|done].
  intros (e' & Ho & He')%list_elem_of_fmap. rewrite Forall_forall in Hf.
  specialize (Hf _ He'). lia.
Qed.

(** ** Parsing a style sheet *)
Section Parsing.
Context {Prelude Raw : Type}.

(** The selector compiler: a list of (predicate, specificity) pairs,
    or [None] for a [SelectorError]. *)
Variable compile_selector_list : Prelude -> option (list ((Elem -> bool) * specificity)).
(** [StyleDeclarations(prop, value)]: the parsed value, or [None]. *)
Variable StyleDeclarations : string -> Raw -> option Decl.

(** A rule as tinycss2 yields it: a parse error, or a qualified rule
    with its prelude and its declarations. *)
Inductive rule :=
  | RuleError
  | QualifiedRule (prelude : Prelude) (declarations : list (string * Raw)).

(** styling/__init__.py:67-74: the dict comprehension over the parsed
    declarations, a later property overriding an earlier one. *)
Definition declaration_of (decls : list (string * Raw)) : style :=
  foldl (fun acc '(prop, value) =>
    match StyleDeclarations prop value with
    | Some v => <[prop := v]> acc
    | None => acc
    end) ∅ decls.

(** styling/__init__.py:43-76 *)
Fixpoint parse_style_sheet (rules : list rule) : list parsed :=
  match rules with
  | [] => []
  | RuleError :: rs => ParsedError :: parse_style_sheet rs
  | QualifiedRule prelude decls :: rs =>
      match compile_selector_list prelude with
      | None => ParsedError :: parse_style_sheet rs
      | Some selectors =>
          let declaration := declaration_of decls in
          ((fun sel => ParsedSelector sel.1 sel.2 declaration) <$> selectors)
            ++ parse_style_sheet rs
      end
  end.

Definition CompiledStyleSheet (rules : list rule) : list entry :=
  compile_from 0 (parse_style_sheet rules).


(** C14. In the declaration dict of a rule, a property has the last value
    [StyleDeclarations] accepted for it. *)
Theorem declaration_of_lookup decls p :
  declaration_of decls !! p =
  last (omap (fun '(q, raw) => if decide (q = p) then StyleDeclarations q raw else None)
    decls).
Proof.
  induction decls as [|[q raw] decls IH] using rev_ind;
    [unfold declaration_of; simpl; by rewrite lookup_empty|].
  unfold declaration_of in *. rewrite foldl_app, omap_app. simpl.
  destruct (StyleDeclarations q raw) as [v|] eqn:Hv; case_decide; subst;
    rewrite ?lookup_insert_eq, ?lookup_insert_ne, ?Hv by done; simpl;
    rewrite ?last_snoc, ?app_nil_r; done.
Qed.
(** C12. For a compiled style sheet the cascade holds unconditionally: its
    entries are numbered in increasing order. *)
Corollary compiled_match_cascade rules el k v :
  match_ (CompiledStyleSheet rules) el !! k = Some v <->
  exists e, cascade_winner (CompiledStyleSheet rules) el k e /\ sel_decl e !! k = Some v.
Proof.
  apply match_cascade, StronglySorted_lt_NoDup. apply compile_from_orders.
Qed.

End Parsing.
End Styling.

End Styling.
