(* ===== verification/CopyPaste.v ===== *)
(** * CopyPaste: gaphor/UML/classes/copypaste.py

    [copy] is a single-dispatch generic function: the implementation
    registered for the first class of the element's MRO that has one.
    copypaste.py registers [copy_class] for [Class] and [Interface],
    [copy_operation] for [Operation] and [copy_association] for
    [Association]; every other element falls back to the default of
    gaphor.diagram.copypaste (outside src/), which copies the element
    alone. Each implementation yields the element's own copy, then the
    copies of its features (attributes then operations, parameters,
    member ends), recursively. The recursion is given fuel; a raise
    [RecursionError] when it runs out.

    The theorems: on a store whose features have the expected classes,
    three levels of fuel suffice for every element, more fuel changes
    nothing, and the copy of a class is its own copy followed by its
    attributes and its operations, each operation followed by its
    parameters. *)

From stdpp Require Import base list gmap strings sets.
From S2P Require Import Prelude Model.
Set Warnings "-clear-no-such-hyp".

Module CopyPaste.
Import CoreModel.

(** What the copy of one element records (gaphor.diagram.copypaste):
    its class and, for a named element, its name. *)
Record copied := mkCopied { cp_class : option UClass; cp_name : option string }.

#[export] Instance copied_eq_dec : EqDecision copied.
Proof. solve_decision. Defined.

(** [copy_named_element(element)]. *)
Definition copy_named_element (st : store) (e : nat) : copied :=
  mkCopied (s_class st !! e) (get_attr st e "name").

(** The default [copy]: the element alone. *)
Definition copy_element (st : store) (e : nat) : copied :=
  mkCopied (s_class st !! e) None.

(** The implementations copypaste.py registers. *)
Inductive copy_impl := CopyClass | CopyOperation | CopyAssociation | CopyDefault.

(** copypaste.py:7-8, 18, 25: the registrations, resolved along the MRO. *)
Definition registered (c : UClass) : option copy_impl :=
  match c with
  | Class_ | Interface => Some CopyClass
  | Operation => Some CopyOperation
  | Association => Some CopyAssociation
  | _ => None
  end.

Definition dispatch_copy (st : store) (e : nat) : copy_impl :=
  match s_class st !! e with
  | Some c => default CopyDefault (head (omap registered (mro c)))
  | None => CopyDefault
  end.

Section Impls.
(** The recursive [copy] the implementations call. *)
Variable copy : nat -> result (list (nat * copied)).

(** copypaste.py:9-15 *)
Definition copy_class (st : store) (e : nat) : result (list (nat * copied)) :=
  rest <- result_mapM copy (get_ref st e "ownedAttribute" ++ get_ref st e "ownedOperation") ;;
  Ok ((e, copy_named_element st e) :: concat rest).

(** copypaste.py:19-22 *)
Definition copy_operation (st : store) (e : nat) : result (list (nat * copied)) :=
  rest <- result_mapM copy (get_ref st e "ownedParameter") ;;
  Ok ((e, copy_named_element st e) :: concat rest).

(** copypaste.py:26-29 *)
Definition copy_association (st : store) (e : nat) : result (list (nat * copied)) :=
  rest <- result_mapM copy (get_ref st e "memberEnd") ;;
  Ok ((e, copy_named_element st e) :: concat rest).
End Impls.

(** [copy(element)], as the list of (id, copy) pairs it yields. *)
Fixpoint copy (fuel : nat) (st : store) (e : nat) : result (list (nat * copied)) :=
  match fuel with
  | 0 => Raise RecursionError
  | S fuel' =>
      match dispatch_copy st e with
      | CopyClass => copy_class (copy fuel' st) st e
      | CopyOperation => copy_operation (copy fuel' st) st e
      | CopyAssociation => copy_association (copy fuel' st) st e
      | CopyDefault => Ok [(e, copy_element st e)]
      end
  end.

(** ** Well-typed features *)

(** Every feature has the class its property declares. *)
Definition features_typed (st : store) : Prop :=
  forall e,
    (forall a, a ∈ get_ref st e "ownedAttribute" -> s_class st !! a = Some Property) /\
    (forall o, o ∈ get_ref st e "ownedOperation" -> s_class st !! o = Some Operation) /\
    (forall q, q ∈ get_ref st e "ownedParameter" -> s_class st !! q = Some Parameter_) /\
    (forall m, m ∈ get_ref st e "memberEnd" -> s_class st !! m = Some Property).

(** The class a feature property requires of its values. *)
Definition feature_class (p : string) : option UClass :=
  if decide (p = "ownedAttribute") then Some Property
  else if decide (p = "ownedOperation") then Some Operation
  else if decide (p = "ownedParameter") then Some Parameter_
  else if decide (p = "memberEnd") then Some Property
  else None.

Definition features_typedb (st : store) : bool :=
  forallb (fun '((_, p), l) =>
    match feature_class p with
    | Some c => forallb (fun x => bool_decide (s_class st !! x = Some c)) l
    | None => true
    end) (map_to_list (s_ref st)).

Lemma features_typedb_entry st e p c x :
  features_typedb st = true -> feature_class p = Some c -> x ∈ get_ref st e p ->
  s_class st !! x = Some c.
Proof.
  intros Hb Hp (l & Hl & Hx)%elem_of_get_ref. unfold features_typedb in Hb.
  rewrite forallb_forall in Hb. specialize (Hb ((e, p), l)).
  rewrite <- list_elem_of_In, elem_of_map_to_list in Hb. specialize (Hb Hl).
  rewrite Hp, forallb_forall in Hb.
  by apply (bool_decide_eq_true_1 _), Hb, list_elem_of_In.
Qed.

Lemma features_typedb_sound st : features_typedb st = true -> features_typed st.
Proof.
  intros Hb e. split_and!; intros x Hx;
    (eapply features_typedb_entry; [exact Hb| |exact Hx]); vm_compute; reflexivity.
Qed.

(** The fuel a copy of an element of this implementation needs. *)
Definition copy_depth (i : copy_impl) : nat :=
  match i with
  | CopyClass => 3
  | CopyOperation | CopyAssociation => 2
  | CopyDefault => 1
  end.

(** ** Theorems *)

Lemma copy_unfold fuel st e :
  copy (S fuel) st e =
  match dispatch_copy st e with
  | CopyClass => copy_class (copy fuel st) st e
  | CopyOperation => copy_operation (copy fuel st) st e
  | CopyAssociation => copy_association (copy fuel st) st e
  | CopyDefault => Ok [(e, copy_element st e)]
  end.
Proof. reflexivity. Qed.

(** More fuel gives the same copy. *)
Lemma copy_fuel_mono fuel fuel' st e l :
  copy fuel st e = Ok l -> fuel <= fuel' -> copy fuel' st e = Ok l.
Proof.
  revert fuel' e l. induction fuel as [|fuel IH]; intros [|fuel'] e l Hc Hle;
    simpl in *; try discriminate; try lia.
  assert (Hm : forall l ys, result_mapM (copy fuel st) l = Ok ys ->
                            result_mapM (copy fuel' st) l = Ok ys).
  { intros l' ys. apply result_mapM_ext_Ok. intros x y _ Hx. apply (IH fuel'); [done|lia]. }
  destruct (dispatch_copy st e); [..|done];
    unfold copy_class, copy_operation, copy_association in *;
    apply bind_Ok_inv in Hc as (rest & Hr & Hc); by rewrite (Hm _ _ Hr).
Qed.

(** Attributes, parameters and member ends are copied alone. *)
Lemma copy_leaf fuel st a c :
  s_class st !! a = Some c -> c = Property \/ c = Parameter_ ->
  copy (S fuel) st a = Ok [(a, copy_element st a)].
Proof.
  intros Hc Hp. simpl. unfold dispatch_copy. rewrite Hc. by destruct Hp as [->| ->].
Qed.

Definition copy_leaves (st : store) (l : list nat) : list (nat * copied) :=
  (fun q => (q, copy_element st q)) <$> l.

Lemma concat_leaves st l : concat ((fun q => [(q, copy_element st q)]) <$> l) = copy_leaves st l.
Proof. unfold copy_leaves. induction l as [|q l IH]; csimpl; [done|]. by rewrite IH. Qed.

(** An operation is copied with its parameters. *)
Lemma copy_operation_shape fuel st o :
  features_typed st -> s_class st !! o = Some Operation ->
  copy (S (S fuel)) st o =
  Ok ((o, copy_named_element st o) :: copy_leaves st (get_ref st o "ownedParameter")).
Proof.
  intros Ht Hc. rewrite copy_unfold.
  replace (dispatch_copy st o) with CopyOperation by (unfold dispatch_copy; by rewrite Hc).
  unfold copy_operation.
  rewrite (result_mapM_Ok _ _ (fun q => [(q, copy_element st q)])).
  - rewrite bind_Ok. by rewrite concat_leaves.
  - intros q Hq. apply copy_leaf with Parameter_; [|auto]. by apply (Ht o).
Qed.

(** C16. The copy of a class or an interface: the element itself, then each
    attribute alone, then each operation followed by its parameters. *)
Theorem copy_class_shape fuel st e :
  features_typed st -> dispatch_copy st e = CopyClass ->
  copy (S (S (S fuel))) st e =
  Ok ((e, copy_named_element st e) ::
      copy_leaves st (get_ref st e "ownedAttribute") ++
      concat ((fun o => (o, copy_named_element st o) ::
                 copy_leaves st (get_ref st o "ownedParameter"))
              <$> get_ref st e "ownedOperation")).
Proof.
  intros Ht Hd. rewrite copy_unfold, Hd. unfold copy_class.
  set (g := fun x => match s_class st !! x with
                     | Some Operation =>
                         (x, copy_named_element st x) ::
                           copy_leaves st (get_ref st x "ownedParameter")
                     | _ => [(x, copy_element st x)]
                     end).
  rewrite (result_mapM_Ok _ _ g).
  - rewrite bind_Ok, fmap_app, concat_app. f_equal. f_equal. f_equal.
    + rewrite <- concat_leaves. f_equal. apply Forall_fmap_ext, Forall_forall.
      intros a Ha. unfold g. by rewrite (proj1 (Ht e) a Ha).
    + f_equal. apply Forall_fmap_ext, Forall_forall.
      intros o Ho. unfold g. by rewrite (proj1 (proj2 (Ht e)) o Ho).
  - intros x [Hx|Hx]%elem_of_app; unfold g.
    + destruct (Ht e) as [Ha _]. rewrite (Ha x Hx).
      apply copy_leaf with Property; auto.
    + destruct (Ht e) as [_ [Ho _]]. rewrite (Ho x Hx).
      apply copy_operation_shape; auto.
Qed.

(** C17. Three levels of fuel copy any element of a well-typed store. *)
Theorem copy_terminates fuel st e :
  features_typed st -> copy_depth (dispatch_copy st e) <= fuel ->
  exists l, copy fuel st e = Ok l.
Proof.
  intros Ht Hf. destruct (dispatch_copy st e) eqn:Hd; simpl in Hf.
  - destruct fuel as [|[|[|fuel]]]; try lia. rewrite copy_unfold, Hd. unfold copy_class.
    destruct (result_mapM_exists (copy (S (S fuel)) st)
      (get_ref st e "ownedAttribute" ++ get_ref st e "ownedOperation")) as [ys ->];
      [|by eexists].
    intros x [Hx|Hx]%elem_of_app; destruct (Ht e) as (Ha & Ho & _).
    + eexists. apply copy_leaf with Property; auto.
    + eexists. apply copy_operation_shape; auto.
  - destruct fuel as [|[|fuel]]; try lia. rewrite copy_unfold, Hd. unfold copy_operation.
    rewrite (result_mapM_Ok _ _ (fun q => [(q, copy_element st q)])); [by eexists|].
    intros q Hq. unfold dispatch_copy in Hd.
    apply copy_leaf with Parameter_; [|auto]. by apply (Ht e).
  - destruct fuel as [|[|fuel]]; try lia. rewrite copy_unfold, Hd. unfold copy_association.
    rewrite (result_mapM_Ok _ _ (fun q => [(q, copy_element st q)])); [by eexists|].
    intros q Hq. apply copy_leaf with Property; [|auto]. by apply (Ht e).
  - destruct fuel as [|fuel]; try lia. rewrite copy_unfold, Hd. by eexists.
Qed.

End CopyPaste.
