(* ===== verification/Scenarios.v ===== *)
(** * Scenarios: gesture sequences on concrete diagrams

    Small worlds evaluated by [vm_compute]: a comment [1] and a class [2],
    a comment item [10] and a class item [11] showing them, comment lines
    [20] and [21], a dependency line [30]. The scenarios replay the
    comment-line properties of the specification (section 8) through the
    editor of [Registry] (dispatch, glue test, connection table and
    connector together), and the witnesses instantiate the general
    theorems of the other files on these worlds. *)

From stdpp Require Import base list gmap strings sets.
From S2P Require Import Prelude Model Items Protocol CommentLine Registry Styling CopyPaste.
Set Warnings "-clear-no-such-hyp".

Module Scenarios.
Import CoreModel Items Protocol CommentLine Registry Styling CopyPaste.

Definition mk_item (c : IClass) (s : option nat) : item := mkItem c s 0 [true] NONE.

Definition store0 : store := mkStore (<[1 := Comment]> (<[2 := Class_]> ∅)) ∅ ∅.

Definition world0 : world :=
  mkWorld store0
    (<[10 := mk_item CommentItem (Some 1)]> (<[11 := mk_item ClassItem (Some 2)]>
     (<[20 := mk_item CommentLineItem None]> (<[21 := mk_item CommentLineItem None]>
     (<[30 := mk_item DependencyItem None]> ∅)))))
    ∅.

(** Does comment [c] annotate [e], in both directions? *)
Definition annotatesb (st : store) (c e : nat) : bool :=
  bool_decide (e ∈ get_ref st c "annotatedElement") &&
  bool_decide (c ∈ get_ref st e "comment").

Definition observe {A} (gs : list gesture) (f : world -> A) : result A :=
  w <- run gs world0 ;; Ok (f w).

(** Both comment lines join the comment item and the class item. *)
Definition link_both : list gesture :=
  [GConnect (20, Head) 10 0; GConnect (20, Tail) 11 0;
   GConnect (21, Head) 10 0; GConnect (21, Tail) 11 0].

(** The worlds reached by the gestures, read off the computation. *)
Definition after (gs : list gesture) : world :=
  match run gs world0 with Ok w => w | Raise _ => world0 end.

Definition world_linked : world := Eval vm_compute in after link_both.

(** Close a ground goal about these worlds by evaluation. *)
Ltac by_eval :=
  first [ reflexivity
        | apply (bool_decide_unpack _); vm_compute; exact I
        | vm_compute; reflexivity ].

Lemma store0_wf : store_wf store0.
Proof. apply store_wfb_sound. by_eval. Qed.

Lemma world0_wf : world_wf world0.
Proof.
  split_and!; [intros d; unfold diagram_connections; simpl; rewrite lookup_empty; constructor
              |intros d ci; unfold diagram_connections; simpl; rewrite lookup_empty; set_solver
              |apply store0_wf].
Qed.

Lemma run_link_both : run link_both world0 = Ok world_linked.
Proof. by_eval. Qed.

(** ** The comment-line properties of section 8, through the editor *)

(** Both ends of one line on the same item are refused by [allow]: the
    second drop leaves the handle free. *)
Theorem comment_line_same_item_refused :
  observe [GConnect (20, Head) 10 0; GConnect (20, Tail) 10 0]
    (fun w => get_connection w (20, Tail)) = Ok None.
Proof. by_eval. Qed.

(** ** A style sheet

    Elements are numbers; a parsed rule's prelude is its list of
    selectors, an empty list standing for a selector error; a raw value
    is already parsed, [None] when [StyleDeclarations] rejects it. *)

Definition compile_prelude (p : list ((nat -> bool) * specificity))
    : option (list ((nat -> bool) * specificity)) :=
  match p with [] => None | _ => Some p end.

Definition declare (_ : string) (raw : option nat) : option nat := raw.

Definition sheet_rules : list (rule (Prelude := list ((nat -> bool) * specificity))
                                    (Raw := option nat)) :=
  [QualifiedRule [(fun _ => true, (0, 0, 1))] [("color", Some 1)];
   RuleError;
   QualifiedRule [(fun n => n =? 7, (0, 1, 0))] [("color", Some 2); ("size", Some 5); ("size", None)];
   QualifiedRule [(fun _ => true, (0, 0, 1))] [("color", Some 3)];
   QualifiedRule [] [("color", Some 9)]].

Definition sheet : list (entry (Elem := nat) (Decl := nat)) :=
  CompiledStyleSheet compile_prelude declare sheet_rules.

(** The more specific selector wins over a later one; among equally
    specific selectors the later one wins; a rejected value leaves the
    earlier one; rules that do not parse contribute nothing. *)
Theorem style_cascade_example :
  match_ sheet 7 !! "color" = Some 2 /\ match_ sheet 7 !! "size" = Some 5 /\
  match_ sheet 8 !! "color" = Some 3 /\ match_ sheet 8 !! "size" = None /\
  (sel_order <$> sheet) = [0; 2; 3].
Proof. split_and!; by_eval. Qed.

(** ** A class to copy

    Class [1] owns attribute [2] and operation [3], which owns parameter
    [4]. *)
Definition store_cp : store :=
  mkStore (<[1 := Class_]> (<[2 := Property]> (<[3 := Operation]> (<[4 := Parameter_]> ∅))))
    (<[(1, "name") := "Car"]> (<[(3, "name") := "drive"]> ∅))
    (<[(1, "ownedAttribute") := [2]]> (<[(1, "ownedOperation") := [3]]>
      (<[(3, "ownedParameter") := [4]]> ∅))).

End Scenarios.
