(* ===== verification/Witnesses.v ===== *)
(** * Witnesses: the general theorems applied to concrete worlds

    Each lemma applies one theorem of the development to a world of
    [Scenarios], discharging its hypotheses by evaluation (through the
    boolean checkers [store_wfb], [conns_uniqueb] and
    [comment_items_show_commentsb] where a hypothesis is an invariant). *)

From stdpp Require Import base list gmap strings sets.
From S2P Require Import Prelude Model Items Protocol CommentLine Registry Styling CopyPaste Scenarios.
Set Warnings "-clear-no-such-hyp".

Module Witnesses.
Import CoreModel Items Protocol CommentLine Registry Styling CopyPaste Scenarios.

(** One comment line, docked at its head to the comment item. *)
Definition world_half : world := Eval vm_compute in after [GConnect (20, Head) 10 0].

(** After the two lines, the second one taken off the comment item. *)
Definition world_one_line : world := Eval vm_compute in after (link_both ++ [GDisconnect (21, Head)]).

(** A comment line docked at both ends without [connect] having run. *)
Definition world_stale : world :=
  record_connection (20, Tail) 11 0 (record_connection (20, Head) 10 0 world0).

(** Two classes joined by a comment line recorded by hand. *)
Definition world_classes : world :=
  record_connection (20, Head) 11 0
    (mkWorld (mkStore (<[1 := Comment]> (<[2 := Class_]> (<[3 := Class_]> ∅))) ∅ ∅)
      (<[11 := mk_item ClassItem (Some 2)]> (<[16 := mk_item ClassItem (Some 3)]>
       (<[20 := mk_item CommentLineItem None]> ∅))) ∅).

Lemma disconnect_keeps_shared_link_witness :
  disconnect (mkCommentLinePresentationConnect 10 20) (20, Head) world_linked =
  Ok world_linked.
Proof.
  apply (disconnect_keeps_shared_link _ _ _ (20, Tail) 11 1 2 21).
  1-5: by_eval.
  - exists 10, Head, 0. split; by_eval.
  - exists 11, Tail, 0. split; by_eval.
  - done.
  - by_eval.
  - exists 10, Head, 0. split; by_eval.
  - exists 11, Tail, 0. split; by_eval.
Defined.

(** The only comment line joining two subjects, for the theorems whose
    hypothesis quantifies over all lines: evaluation lists the lines. *)
Ltac only_line w s :=
  intros l Hl Hd _;
  assert (Hin : l ∈ all_comment_line_items w s)
    by (apply elem_of_all_comment_line_items; auto);
  vm_compute in Hin; set_solver.

Lemma disconnect_removes_last_link_witness :
  exists w', disconnect (mkCommentLinePresentationConnect 10 20) (20, Head) world_one_line
    = Ok w' /\ ~ comment_link (w_store w') 2 1 /\ store_wf (w_store w').
Proof.
  apply (disconnect_removes_last_link _ _ _ (20, Tail) 11 1 2).
  - apply store_wfb_sound. by_eval.
  - by_eval.
  - by_eval.
  - by_eval.
  - by_eval.
  - right. by_eval.
  - only_line world_one_line 1.
  - by_eval.
Defined.

Lemma disconnect_missing_link_raises_witness :
  disconnect (mkCommentLinePresentationConnect 10 20) (20, Head) world_stale =
  Raise ValueError.
Proof.
  apply (disconnect_missing_link_raises _ _ _ (20, Tail) 11 1 2).
  - apply store_wfb_sound. by_eval.
  - by_eval.
  - by_eval.
  - by_eval.
  - by_eval.
  - right. by_eval.
  - only_line world_stale 1.
  - apply (bool_decide_unpack _). vm_compute. exact I.
Defined.

Lemma connect_links_witness :
  exists w', connect (mkCommentLinePresentationConnect 11 20) (20, Tail) 0 world_half
    = Ok (None, w') /\ comment_link (w_store w') 1 2.
Proof.
  apply (connect_links _ _ _ _ (20, Head) 10 1 2).
  - apply store_wfb_sound. by_eval.
  - by_eval.
  - by_eval.
  - by_eval.
  - by_eval.
  - left. by_eval.
Defined.

Lemma connect_raises_without_comment_witness :
  connect (mkCommentLinePresentationConnect 16 20) (20, Tail) 0 world_classes =
  Raise AssertionError.
Proof.
  apply (connect_raises_without_comment _ _ _ _ (20, Head) 11 2 3); by_eval.
Defined.

Lemma allow_connect_safe_witness :
  allow (mkCommentLinePresentationConnect 11 20) (20, Tail) 0 world_half = Ok true /\
  exists w', connect (mkCommentLinePresentationConnect 11 20) (20, Tail) 0 world_half
    = Ok (None, w').
Proof.
  split; [by_eval|]. apply allow_connect_safe.
  - apply comment_items_show_commentsb_sound. by_eval.
  - by_eval.
Defined.

Lemma connect_gesture_idempotent_witness :
  connect_gesture dispatch (20, Head) 10 0 world0 = Ok (true, world_half) /\
  connect_gesture dispatch (20, Head) 10 0 world_half = Ok (true, world_half).
Proof.
  split; [by_eval|]. apply (connect_gesture_idempotent dispatch _ _ _ world0). by_eval.
Defined.

(** A class [3] in package [4], itself at the top. *)
Definition store_ns : store :=
  mkStore (<[3 := Class_]> (<[4 := Namespace]> ∅))
    (<[(3, "name") := "Klass"]> (<[(4, "name") := "pkg"]> ∅))
    (<[(3, "namespace") := [4]]> ∅).

Lemma qualifiedname_depth_witness :
  exists q, namedelement_qualifiedname recursion_limit store_ns 3 = Ok q /\
    length q = 2 /\ last q = Some (get_attr store_ns 3 "name").
Proof.
  apply qualifiedname_depth.
  - apply (ns_step _ _ 4); [by_eval|]. apply ns_root. by_eval.
  - by_eval.
Defined.

Lemma qualifiedname_cycle_witness :
  namedelement_qualifiedname recursion_limit
    (mkStore (<[5 := Namespace]> ∅) ∅ (<[(5, "namespace") := [5]]> ∅)) 5 =
  Raise RecursionError.
Proof. apply qualifiedname_cycle. by_eval. Defined.

(** Elements [0 .. n - 1], each the namespace-child of the next: element
    [0] is [n] namespaces deep. *)
Definition chain_store (n : nat) : store :=
  mkStore ∅ ∅ (list_to_map ((fun i => ((i, "namespace"), [S i])) <$> seq 0 n)).

(** Read from a stack three frames deep (the caller, the descriptor and
    the lambda), a chain of 996 levels gives the name and one of 997
    raises. *)
Lemma qualifiedName_recursion_bound_witness :
  (exists q, qualifiedName 3 (chain_store 996) 0 = Ok (Some q) /\ length q = 997 /\
     last q = Some (get_attr (chain_store 996) 0 "name")) /\
  qualifiedName 3 (chain_store 997) 0 = Raise RecursionError.
Proof.
  split.
  - apply (qualifiedName_recursion_bound 3 (chain_store 996) 0 996);
      [apply ns_depthb_sound; by_eval|apply Nat.le_refl].
  - apply (qualifiedName_recursion_bound 3 (chain_store 997) 0 997);
      [apply ns_depthb_sound; by_eval|apply Nat.le_refl].
Defined.

Lemma store0_annotations_typed : annotations_typed store0.
Proof. intros o v Hv. unfold get_ref, store0 in Hv. simpl in Hv. rewrite lookup_empty in Hv. set_solver. Qed.

Lemma run_keeps_annotation_types_witness :
  annotations_typed (w_store world_linked) /\
  (forall e c, c ∈ get_ref (w_store world_linked) e (assoc_opposite Comment_annotatedElement) ->
     isinstance (w_store world_linked) c Comment = true).
Proof.
  apply (run_keeps_annotation_types link_both world0);
    [apply world0_wf|apply store0_annotations_typed|apply run_link_both].
Defined.

Lemma match_cascade_witness :
  match_ sheet 7 !! "color" = Some 2 <->
  exists e, cascade_winner sheet 7 "color" e /\ sel_decl e !! "color" = Some 2.
Proof. apply match_cascade. by_eval. Defined.

Lemma copy_class_shape_witness :
  copy 3 store_cp 1 =
  Ok ((1, copy_named_element store_cp 1) :: copy_leaves store_cp [2] ++
      [(3, copy_named_element store_cp 3); (4, copy_element store_cp 4)]).
Proof.
  apply (copy_class_shape 0 store_cp 1).
  - apply features_typedb_sound. by_eval.
  - by_eval.
Defined.

Lemma copy_terminates_witness : exists l, copy recursion_limit store_cp 1 = Ok l.
Proof.
  apply copy_terminates.
  - apply features_typedb_sound. by_eval.
  - by_eval.
Defined.

(** The second handle of line [20] dropped on the class item. *)
Definition world_two_ends : world :=
  Eval vm_compute in after [GConnect (20, Head) 10 0; GConnect (20, Tail) 11 0].

Lemma step_links_comment_line_witness : comment_link (w_store world_two_ends) 1 2.
Proof.
  assert (Hr : run [GConnect (20, Head) 10 0] world0 = Ok world_half) by by_eval.
  apply (step_links_comment_line world_half 20 Tail 11 0 ClassItem 10 1 2);
    [exact (run_preserves_wf _ _ _ world0_wf Hr)|by_eval..].
Defined.

(** Line [20] has its head on comment item [10] and line [21] on item
    [13]; items [10] and [12] both show comment [1], items [13] and [14]
    show nothing. *)
Definition world_shared_subject : world :=
  record_connection (21, Head) 13 0 (record_connection (20, Head) 10 0
    (mkWorld store0
      (<[10 := mk_item CommentItem (Some 1)]> (<[12 := mk_item ClassItem (Some 1)]>
       (<[13 := mk_item CommentItem None]> (<[14 := mk_item ClassItem None]>
       (<[20 := mk_item CommentLineItem None]> (<[21 := mk_item CommentLineItem None]> ∅))))))
      ∅)).

Lemma allow_same_subject_witness :
  allow (mkCommentLinePresentationConnect 12 20) (20, Tail) 0 world_shared_subject = Ok true /\
  allow (mkCommentLinePresentationConnect 14 21) (21, Tail) 0 world_shared_subject = Ok false.
Proof.
  split.
  - rewrite (allow_same_subject _ _ _ _ (20, Head) 10); by_eval.
  - rewrite (allow_same_subject _ _ _ _ (21, Head) 13); by_eval.
Defined.

(** The dependency line [30] dropped on comment line [20]. *)
Lemma step_inverse_raises_witness : step (GConnect (30, Head) 20 0) world0 = Raise KeyError.
Proof. apply (step_inverse_raises world0 20 30 Head 0 DependencyItem); by_eval. Defined.

Lemma step_unlinks_last_comment_line_witness :
  exists w', step (GDisconnect (20, Head)) world_one_line = Ok w' /\
    ~ comment_link (w_store w') 2 1 /\ get_connection w' (20, Head) = None.
Proof.
  assert (Hr : run (link_both ++ [GDisconnect (21, Head)]) world0 = Ok world_one_line) by by_eval.
  apply (step_unlinks_last_comment_line world_one_line 20 Head 10 CommentItem 11 1 2);
    [exact (run_preserves_wf _ _ _ world0_wf Hr)|by_eval..| |by_eval].
  only_line world_one_line 1.
Defined.

End Witnesses.
