(* ===== verification/ComponentScenarios.v ===== *)
(** * ComponentScenarios: the interface items through the editor

    The scenarios of test_connect.py and test_realizationconnect.py, and
    those of section 8 of the specification, replayed through the editor
    of [Registry] ([run]: dispatch, glue test, connection table, the
    connectors of [Relationship] and [Assembly], and the refolding of
    [Folding]) on one small diagram, evaluated by [vm_compute].

    The diagram: components [1], [2], [3] shown by component items [10],
    [11], [12]; interface [4] shown by interface item [13]; classes [5]
    and [6] shown by class items [14] and [15]; connector lines [20],
    [21], [22], a dependency line [30] and an interface realization line
    [40]. The domain says that [1] provides [4] and that [2] and [3]
    require it, written by the helpers [provide] and [require] of
    test_connect.py. *)

From stdpp Require Import base list gmap strings sets.
From S2P Require Import Prelude Model Factory Items Folding Protocol Relationship Assembly Registry.
Set Warnings "-clear-no-such-hyp".

Module ComponentScenarios.
Import CoreModel Factory Items Folding Protocol Relationship Assembly Registry.

(** ** The domain *)

(** [provide(component, interface)]: a new realization, appended to the
    component's [interfaceRealization], whose contract is the interface. *)
Definition provide (c i : nat) (st : store) : store :=
  let '(impl, st1) := create InterfaceRealization st in
  put_ref impl "contract" [i]
    (assoc_set (flip InterfaceRealization_implementatingClassifier) c impl st1).

(** [require(component, interface)]: a new usage, appended to the
    component's [clientDependency], whose supplier is the interface. *)
Definition require (c i : nat) (st : store) : store :=
  let '(usage, st1) := create Usage st in
  assoc_set (flip NamedElement_supplierDependency) usage i
    (assoc_set NamedElement_clientDependency c usage st1).

Definition base_store : store :=
  mkStore (<[1 := Component]> (<[2 := Component]> (<[3 := Component]> (<[4 := Interface]>
           (<[5 := Class_]> (<[6 := Class_]> ∅))))))
    ∅ ∅.

(** [1] provides [4], [2] and [3] require it. *)
Definition roles_store : store := require 3 4 (require 2 4 (provide 1 4 base_store)).

(** [1] and [2] both provide [4] (test_connection_order). *)
Definition providers_store : store := provide 2 4 (provide 1 4 base_store).

(** ** The diagram *)

Definition element_item (c : IClass) (s : option nat) : item := mkItem c s 0 [true] NONE.

(** An interface item in fold state [f], its ports as the state says. *)
Definition interface_item (f : Folded) : item :=
  mkItem InterfaceItem (Some 4) 0 (fold_ports f) f.

Definition items_with (f : Folded) : gmap nat item :=
  <[10 := element_item ComponentItem (Some 1)]> (<[11 := element_item ComponentItem (Some 2)]>
  (<[12 := element_item ComponentItem (Some 3)]> (<[13 := interface_item f]>
  (<[14 := element_item ClassItem (Some 5)]> (<[15 := element_item ClassItem (Some 6)]>
  (<[20 := element_item ConnectorItem None]> (<[21 := element_item ConnectorItem None]>
  (<[22 := element_item ConnectorItem None]> (<[30 := element_item DependencyItem None]>
  (<[40 := element_item InterfaceRealizationItem None]> ∅)))))))))).

(** Nothing connected, the interface unfolded. *)
Definition world_c : world := mkWorld roles_store (items_with NONE) ∅.

(** The world after a sequence of gestures from [w]. *)
Definition after_from (w : world) (gs : list gesture) : world :=
  match run gs w with Ok w' => w' | Raise _ => w end.

(** ** Gesture sequences *)

(** A realization and a dependency docked to the interface: it folds to
    [ASSEMBLY], both the provided and the required port are open. *)
Definition fold_assembly : list gesture := [GConnect (40, Head) 13 0; GConnect (30, Head) 13 0].

(** [self.connect(connN, connN.head, cN)] for the three connector lines. *)
Definition connect_components : list gesture :=
  [GConnect (20, Head) 10 0; GConnect (21, Head) 11 0; GConnect (22, Head) 12 0].

(** The provider on the provided port, the requirers on the required
    port. *)
Definition dock_provider : gesture := GConnect (20, Tail) 13 provided_port.
Definition dock_requirer1 : gesture := GConnect (21, Tail) 13 required_port.
Definition dock_requirer2 : gesture := GConnect (22, Tail) 13 required_port.

Definition assembly_pair : list gesture :=
  fold_assembly ++ connect_components ++ [dock_provider; dock_requirer1].

(** Observations. *)
Definition classes_of (st : store) (k : UClass) : list nat :=
  (filter (fun kv => kv.2 = k) (map_to_list (s_class st))).*1.

Definition end_count (w : world) (l : nat) : option nat :=
  (fun a => length (get_ref (w_store w) a "end")) <$> subject_of w l.

(** The gestures observed from [world_c]. *)
Definition observe_c {A} (w : world) (gs : list gesture) (f : world -> A) : result A :=
  w' <- run gs w ;; Ok (f w').

(** The relationship a line shows: its class, its kind, its end count. *)
Definition shown (w : world) (l : nat) : option (option UClass * option string * nat) :=
  (fun a => (s_class (w_store w) !! a, get_attr (w_store w) a "kind",
             length (get_ref (w_store w) a "end"))) <$> subject_of w l.

(** ** Theorems *)

Lemma world_c_wf : world_wf world_c.
Proof.
  split_and!; [intros d; unfold diagram_connections; simpl; rewrite lookup_empty; constructor
              |intros d ci; unfold diagram_connections; simpl; rewrite lookup_empty; set_solver
              |apply store_wfb_sound; vm_compute; reflexivity].
Qed.

Lemma world_c_folds : fold_consistent world_c.
Proof. apply fold_consistentb_sound. vm_compute. reflexivity. Qed.

(** Section 8, the assembly scenario, and test_connection's data model:
    a providing and a requiring component joined to an interface folded
    to [ASSEMBLY] share one relationship, of kind "assembly", with two
    ends; the interface stays in [ASSEMBLY]. *)
Theorem assembly_pair_shares :
  observe_c world_c assembly_pair
    (fun w => (bool_decide (subject_of w 20 = subject_of w 21), shown w 20, item_folds w 13)) =
  Ok (true, Some (Some CoreModel.Connector, Some "assembly", 2),
      Some (ASSEMBLY, [true; false; true; false])).
Proof. vm_compute. reflexivity. Qed.

(** test_addtional_connections: a third component that requires the
    interface joins the same relationship, which then has three ends. *)
Theorem additional_connection_joins :
  observe_c world_c (assembly_pair ++ [dock_requirer2])
    (fun w => (bool_decide (subject_of w 22 = subject_of w 20), end_count w 20)) =
  Ok (true, Some 3).
Proof. vm_compute. reflexivity. Qed.

(** Section 8, assembly identity independent of order: joining the
    provider and the two requirers in the order [C1, C2, C3] or
    [C2, C3, C1] gives, both times, the three lines one shared
    relationship, the only [Connector] of the model, with three ends. *)
Theorem assembly_order_independent :
  let outcome order := observe_c world_c (fold_assembly ++ connect_components ++ order)
    (fun w => (bool_decide (subject_of w 20 = subject_of w 21 /\ subject_of w 21 = subject_of w 22),
               end_count w 20, length (classes_of (w_store w) CoreModel.Connector))) in
  outcome [dock_provider; dock_requirer1; dock_requirer2] = Ok (true, Some 3, 1) /\
  outcome [dock_requirer1; dock_requirer2; dock_provider] = Ok (true, Some 3, 1).
Proof. split; vm_compute; reflexivity. Qed.

(** Section 8, assembly teardown, and test_disconnection: taking the
    provider's line off its component when the relationship has two ends
    clears the subject of both lines and leaves no [Connector],
    [ConnectorEnd] or [Port] in the model. *)
Theorem assembly_teardown_scenario :
  observe_c world_c (assembly_pair ++ [GDisconnect (20, Head)])
    (fun w => (subject_of w 20, subject_of w 21, classes_of (w_store w) CoreModel.Connector,
               classes_of (w_store w) ConnectorEnd, classes_of (w_store w) Port)) =
  Ok (None, None, [], [], []).
Proof. vm_compute. reflexivity. Qed.

(** Section 8, reconnection against section 4.5: moving the
    requirer's line of a two-end assembly from component [2] to
    component [3] is a disconnect, which leaves one end and so tears the
    assembly down, then a connect, which creates a new assembly with the
    one end of [3]. The provider's line loses its subject; the
    relationship of the moved line has one end, for [3], and none for
    the provider, where section 8 asks the same relationship to stay with
    the old end removed and a new end for [3] added. *)
Theorem reconnection_loses_identity :
  observe_c world_c (assembly_pair ++ [GConnect (21, Head) 12 0])
    (fun w => (subject_of w 20,
               subject_of w 21 ≫= fun a => Some (end_component (w_store w) <$> get_ref (w_store w) a "end"),
               length (classes_of (w_store w) CoreModel.Connector))) =
  Ok (None, Some [Some 3], 1).
Proof. vm_compute. reflexivity. Qed.

(** ** Witnesses *)

Definition w_components : world := after_from world_c (fold_assembly ++ connect_components).
Definition w_provided : world := after_from world_c (fold_assembly ++ connect_components ++ [dock_provider]).
Definition w_paired : world := after_from world_c assembly_pair.

(** The worlds [connect] sees: the handle already recorded. *)
Definition w_before_provider : world := record_connection (20, Tail) 13 provided_port w_components.
Definition w_before_requirer : world := record_connection (21, Tail) 13 required_port w_provided.

Definition w_realized : world :=
  after_from world_c [GConnect (40, Head) 13 0; GConnect (40, Tail) 14 0].
Definition w_before_realization : world :=
  record_connection (40, Tail) 14 0 (after_from world_c [GConnect (40, Head) 13 0]).
Definition w_before_reconnect : world :=
  match disconnect_gesture dispatch (40, Tail) w_realized with
  | Ok w => record_connection (40, Tail) 15 0 w
  | Raise _ => w_realized
  end.
Definition w_tail_off : world :=
  after_from world_c [GConnect (40, Head) 13 0; GConnect (40, Tail) 14 0; GDisconnect (40, Tail)].
Lemma assembly_connect_creates_witness :
  exists w' a en,
    Assembly.connect (mkAssemblyConnect 13 20) (20, Tail) provided_port w_before_provider = Ok (Some true, w') /\
    s_class (w_store w_before_provider) !! a = None /\ subject_of w' 20 = Some a /\
    s_class (w_store w') !! a = Some CoreModel.Connector /\
    get_attr (w_store w') a "kind" = Some "assembly" /\
    get_ref (w_store w') a "end" = [en] /\ end_component (w_store w') en = Some 1.
Proof.
  apply (assembly_connect_creates 13 20 (20, Tail) provided_port w_before_provider
           (element_item ConnectorItem None) 1 13 4); vm_compute; reflexivity.
Defined.

Lemma assembly_connect_joins_witness :
  exists w', Assembly.connect (mkAssemblyConnect 13 21) (21, Tail) required_port w_before_requirer =
               Ok (Some true, w') /\
    subject_of w' 21 = Some 10 /\ ends_for (w_store w') 10 2 <> [] /\
    (forall c', c' <> 2 -> ends_for (w_store w') 10 c' = ends_for (w_store w_before_requirer) 10 c') /\
    length (get_ref (w_store w') 10 "end") =
      length (get_ref (w_store w_before_requirer) 10 "end") +
      (if decide (ends_for (w_store w_before_requirer) 10 2 = []) then 1 else 0).
Proof.
  apply (assembly_connect_joins 13 21 (21, Tail) required_port w_before_requirer
           (element_item ConnectorItem None) 2 13 4 10); vm_compute; reflexivity.
Defined.

Lemma assembly_disconnect_teardown_witness :
  exists w', Assembly.disconnect (mkAssemblyConnect 10 20) (20, Head) w_paired = Ok w' /\
    s_class (w_store w') !! 10 = None /\ (forall o p, 10 ∉ get_ref (w_store w') o p) /\
    (forall e, e ∈ get_ref (w_store w_paired) 10 "end" ->
       s_class (w_store w') !! e = None /\
       forall q, q ∈ get_ref (w_store w_paired) e "role" -> s_class (w_store w') !! q = None) /\
    (forall l, subject_of w_paired l = Some 10 -> subject_of w' l = None).
Proof.
  apply (assembly_disconnect_teardown (mkAssemblyConnect 10 20) (20, Head) w_paired 10);
    decide_compute.
Defined.

Lemma realization_connect_creates_witness :
  exists w' r, Relationship.connect (mkRelationshipConnect RealizationRel 14 40) (40, Tail) 0 w_before_realization =
                 Ok (Some true, w') /\
    s_class (w_store w_before_realization) !! r = None /\ subject_of w' 40 = Some r /\
    s_class (w_store w') !! r = Some InterfaceRealization /\
    get_ref (w_store w') r "contract" = [4] /\
    get_ref (w_store w') r "implementatingClassifier" = [5] /\
    r ∈ get_ref (w_store w') 5 "interfaceRealization".
Proof.
  apply (realization_connect_creates 14 40 (40, Tail) 0 w_before_realization
           (element_item InterfaceRealizationItem None) 4 5);
    first [apply store_wfb_sound; vm_compute; reflexivity | vm_compute; reflexivity | decide_compute].
Defined.

Lemma realization_reconnect_keeps_subject_witness :
  exists w', Relationship.connect (mkRelationshipConnect RealizationRel 15 40) (40, Tail) 0 w_before_reconnect =
               Ok (Some true, w') /\
    subject_of w' 40 = Some 10 /\ get_ref (w_store w') 10 "contract" = [4] /\
    get_ref (w_store w') 10 "implementatingClassifier" = [6] /\
    forall c, 10 ∈ get_ref (w_store w') c "interfaceRealization" -> c = 6.
Proof.
  apply (realization_reconnect_keeps_subject 15 40 (40, Tail) 0 w_before_reconnect 10 4 6);
    first [apply store_wfb_sound; vm_compute; reflexivity | vm_compute; reflexivity | decide_compute].
Defined.

Lemma relationship_disconnect_unlinks_witness :
  exists w', Relationship.disconnect (mkRelationshipConnect RealizationRel 13 40) (40, Head) w_tail_off = Ok w' /\
    subject_of w' 40 = None /\ s_class (w_store w') !! 10 = None /\
    forall o p, 10 ∉ get_ref (w_store w') o p.
Proof.
  apply (relationship_disconnect_unlinks (mkRelationshipConnect RealizationRel 13 40) (40, Head)
           w_tail_off 10); vm_compute; reflexivity.
Defined.

Lemma create_fresh_witness :
  let '(x, st') := create Port roles_store in
  (forall y, y ∈ ids_of roles_store -> y < x) /\ s_class roles_store !! x = None /\
  s_class st' !! x = Some Port /\
  (forall y, y <> x -> s_class st' !! y = s_class roles_store !! y) /\
  s_attr st' = s_attr roles_store /\ s_ref st' = s_ref roles_store.
Proof. apply (create_fresh Port roles_store). reflexivity. Defined.

End ComponentScenarios.
