(* ===== verification/ComponentTests.v ===== *)
(** * ComponentTests: test_connect.py and test_realizationconnect.py

    The tests of the interface items, one definition per test, on the
    diagram of [ComponentScenarios]: the test's set-up and gestures
    through the editor of [Registry], its assertions read off the world
    reached. The test cases of components and interfaces start from
    [world_plain], in which no component plays a role; the assembly test
    cases from [world_c] with [provide] and [require] already applied.
    gaphor's test harness docks a handle to the first port of the item
    when the test names no port: port 0, the provided port of an
    interface item. [glue] is the harness's [allow]: the glue test of the
    connector the registry gives, without docking.

    The theorems say which tests the model passes. Six tests do not: five
    set [iface.folded] by hand, which section 4.4 overrides, since the
    fold is a function of the attached lines and a folded interface
    exposes only the ports of its state; test_simple_connection expects a
    subject for a line whose component plays no role, which section 7
    calls a no-subject connection. Each is stated with the outcome the
    model computes, and the findings of the development record them. *)

From stdpp Require Import base list gmap strings sets.
From S2P Require Import Prelude Model Factory Items Folding Protocol Relationship Assembly Registry ComponentScenarios.
Set Warnings "-clear-no-such-hyp".

Module ComponentTests.
Import CoreModel Factory Items Folding Protocol Relationship Assembly Registry ComponentScenarios.

(** [self.allow(line, handle, item, port)]. *)
Definition glue (w : world) (h : handle) (target port : nat) : result bool :=
  match dispatch w target h.1 with
  | Some c => Protocol.allow c h port w
  | None => Ok false
  end.

(** No component plays a role. *)
Definition world_plain : world := mkWorld base_store (items_with NONE) ∅.

(** ** ComponentConnectTestCase *)

Definition component_test_glue : result bool := glue world_plain (20, Head) 10 0.

Definition component_test_connection : result (option nat) :=
  observe_c world_plain [GConnect (20, Head) 10 0] (fun w => subject_of w 20).

Definition component_test_glue_both : result bool :=
  w <- run [GConnect (20, Head) 10 0] world_plain ;; glue w (20, Tail) 11 0.

(** ** InterfaceConnectTestCase *)

Definition interface_test_non_folded_glue : result bool := glue world_plain (20, Head) 13 0.

Definition interface_test_folded_glue : result bool :=
  glue (set_folded 13 REQUIRED world_plain) (20, Head) 13 0.

Definition interface_test_glue_when_dependency_connected : result bool :=
  w <- run [GConnect (30, Head) 13 0] world_plain ;;
  glue (set_folded 13 REQUIRED w) (20, Head) 13 0.

Definition interface_test_glue_when_implementation_connected : result bool :=
  w <- run [GConnect (40, Head) 13 0] world_plain ;;
  glue (set_folded 13 REQUIRED w) (20, Head) 13 0.

Definition interface_test_glue_when_connector_connected : result (option (Folded * list bool) * bool) :=
  w <- run [GConnect (20, Tail) 10 0; GConnect (20, Head) 13 0] (set_folded 13 REQUIRED world_plain) ;;
  b <- glue w (21, Head) 13 0 ;;
  Ok (item_folds w 13, b).

Definition interface_test_simple_connection : result (option (Folded * list bool) * option nat) :=
  observe_c world_plain [GConnect (20, Head) 13 0; GConnect (20, Tail) 10 0]
    (fun w => (item_folds w 13, subject_of w 20)).

Definition interface_test_simple_disconnection : result (option (Folded * list bool)) :=
  observe_c (set_folded 13 PROVIDED world_plain) [GConnect (20, Head) 13 0; GDisconnect (20, Head)]
    (fun w => item_folds w 13).

(** ** AssemblyConnectorTestCase *)

Definition assembly_test_getting_component : result (option nat * option nat) :=
  observe_c world_plain [GConnect (20, Tail) 10 0; GConnect (21, Head) 11 0]
    (fun w => (component_of w 20, component_of w 21)).

(** [iface.folded = Folded.ASSEMBLY], [provide(c1)], [require(c2)],
    [require(c3)]. *)
Definition world_preset : world := set_folded 13 ASSEMBLY world_c.

(** The observations of the assembly tests: the subjects of the three
    lines, the end count of the first line's relationship, the
    connectors, ends and ports of the model. *)
Definition assembly_state (w : world) :=
  (subject_of w 20, subject_of w 21, subject_of w 22, end_count w 20,
   length (classes_of (w_store w) CoreModel.Connector),
   length (classes_of (w_store w) ConnectorEnd), length (classes_of (w_store w) Port)).

Definition heads : list gesture := [GConnect (20, Head) 10 0; GConnect (21, Head) 11 0].

Definition assembly_test_connection :=
  observe_c world_preset (heads ++ [GConnect (20, Tail) 13 0; GConnect (21, Tail) 13 0])
    assembly_state.

Definition assembly_test_required_port_glue : result bool :=
  w <- run (heads ++ [GConnect (20, Tail) 13 0]) world_preset ;;
  glue w (21, Tail) 13 required_port.

Definition assembly_test_connection_order : result (option nat * option nat) :=
  observe_c (mkWorld providers_store (items_with NONE) ∅)
    (heads ++ [GConnect (20, Tail) 13 0; GConnect (21, Tail) 13 0])
    (fun w => (subject_of w 20, subject_of w 21)).

Definition assembly_test_addtional_connections :=
  observe_c world_preset
    (heads ++ [GConnect (22, Head) 12 0; GConnect (20, Tail) 13 0; GConnect (21, Tail) 13 0;
               GConnect (22, Tail) 13 0])
    assembly_state.

Definition assembly_test_disconnection :=
  observe_c world_preset
    (heads ++ [GConnect (20, Tail) 13 0; GConnect (21, Tail) 13 0; GDisconnect (20, Head)])
    assembly_state.

(** ** InterfaceRealizationTestCase *)

Definition realization_test_non_interface_glue : result bool := glue world_plain (40, Head) 14 0.

Definition realization_test_interface_glue : result bool := glue world_plain (40, Head) 13 0.

Definition realization_test_classifier_glue : result bool := glue world_plain (40, Tail) 14 0.

(** The realization a line shows: its class, contract and implementing
    classifier. *)
Definition realization_of (w : world) (l : nat) :=
  subject_of w l ≫= fun r =>
    Some (r, s_class (w_store w) !! r, get_ref (w_store w) r "contract",
          get_ref (w_store w) r "implementatingClassifier").

Definition realization_test_connection :=
  observe_c world_plain [GConnect (40, Head) 13 0; GConnect (40, Tail) 14 0]
    (fun w => (realization_of w 40, get_connected w (40, Head))).

Definition realization_test_reconnection :=
  observe_c world_plain [GConnect (40, Head) 13 0; GConnect (40, Tail) 14 0; GConnect (40, Tail) 15 0]
    (fun w => (realization_of w 40, get_ref (w_store w) 5 "interfaceRealization")).

(** ** The tests the model passes *)

(** ComponentConnectTestCase: a connector glues to a component; docked,
    it has no subject; a second component at the other end is refused. *)
Theorem component_connect_tests :
  component_test_glue = Ok true /\ component_test_connection = Ok None /\
  component_test_glue_both = Ok false.
Proof. split_and!; vm_compute; reflexivity. Qed.

(** InterfaceConnectTestCase, the glue tests: a connector glues to an
    interface item unfolded, folded, and folded with a dependency or a
    realization docked. *)
Theorem interface_glue_tests :
  interface_test_non_folded_glue = Ok true /\ interface_test_folded_glue = Ok true /\
  interface_test_glue_when_dependency_connected = Ok true /\
  interface_test_glue_when_implementation_connected = Ok true.
Proof. split_and!; vm_compute; reflexivity. Qed.

(** get_component reads the component at either end of the line. *)
Theorem getting_component_test : assembly_test_getting_component = Ok (Some 10, Some 11).
Proof. vm_compute. reflexivity. Qed.

(** test_required_port_glue: with the provider docked, the requirer's
    line glues to the required port. *)
Theorem required_port_glue_test : assembly_test_required_port_glue = Ok true.
Proof. vm_compute. reflexivity. Qed.

(** test_connection_order: two providers docked to an unfolded interface
    both get a subject, the same one. *)
Theorem connection_order_test : assembly_test_connection_order = Ok (Some 9, Some 9).
Proof. vm_compute. reflexivity. Qed.

(** InterfaceRealizationTestCase: the head glues to an interface item
    only, the tail to a class; connected, the line's subject is a new
    [InterfaceRealization] with the interface as contract and the class
    as implementing classifier; reconnected to another class it keeps
    the subject, which the first class no longer realizes. *)
Theorem realization_tests :
  realization_test_non_interface_glue = Ok false /\ realization_test_interface_glue = Ok true /\
  realization_test_classifier_glue = Ok true /\
  realization_test_connection = Ok (Some (7, Some InterfaceRealization, [4], [5]), Some 13) /\
  realization_test_reconnection = Ok (Some (7, Some InterfaceRealization, [4], [6]), []).
Proof. split_and!; vm_compute; reflexivity. Qed.

(** ** The tests the model does not pass *)

(** test_connection against section 4.4, with the requirer's line on
    the required port: once the provider's line is docked, the fold is
    recomputed from the attached lines whatever the preset, and the
    interface exposes only its provided port; the requirer's line cannot
    dock, so it has no subject and the relationship keeps one end, where
    the test expects one shared relationship with two. *)
Theorem preset_assembly_refuses_requirer :
  observe_c world_preset (connect_components ++ [dock_provider; dock_requirer1])
    (fun w => (item_folds w 13, get_connection w (21, Tail), subject_of w 21, end_count w 20)) =
  Ok (Some (PROVIDED, [true; false; false; false]), None, None, Some 1).
Proof. vm_compute. reflexivity. Qed.

(** The assembly tests as written, every tail on the first port: the
    requirers' lines are refused, the provider's line alone carries the
    assembly (test_connection, test_addtional_connections); in
    test_disconnection the precondition [conn1.subject is conn2.subject]
    fails, and the teardown then leaves no connector, end or port. *)
Theorem assembly_tests_as_written :
  assembly_test_connection = Ok (Some 10, None, None, Some 1, 1, 1, 1) /\
  assembly_test_addtional_connections = Ok (Some 10, None, None, Some 1, 1, 1, 1) /\
  assembly_test_disconnection = Ok (None, None, None, None, 0, 0, 0).
Proof. split_and!; vm_compute; reflexivity. Qed.

(** test_glue_when_connector_connected: preset to [REQUIRED], the
    interface exposes only its required port, so the line docked without
    a port is refused and the interface stays [REQUIRED], where the test
    expects [PROVIDED]; the second line still glues. *)
Theorem glue_when_connector_connected_test :
  interface_test_glue_when_connector_connected =
  Ok (Some (REQUIRED, [false; false; true; false]), true).
Proof. vm_compute. reflexivity. Qed.

(** test_simple_connection: the interface folds to [PROVIDED] as the test
    expects, but the line has no subject, its component playing no
    role. *)
Theorem simple_connection_test :
  interface_test_simple_connection = Ok (Some (PROVIDED, [true; false; false; false]), None).
Proof. vm_compute. reflexivity. Qed.

(** test_simple_disconnection against section 4.4: a connector line
    docked to an interface preset to [PROVIDED] and taken off again
    leaves it unfolded with every port connectable; the test expects it
    to stay [PROVIDED] (with every port connectable). *)
Theorem simple_disconnection_test :
  interface_test_simple_disconnection = Ok (Some (NONE, [true; true; true; true])).
Proof. vm_compute. reflexivity. Qed.

End ComponentTests.
